(** * An in-memory relational engine: tables, typed rows and WHERE filtering

    Shallow embedding of [database.py] (classes [Column], [Table] and the
    condition evaluator inside [Table]) together with the properties the
    specification states about it.

    Conventions of the embedding:
    - a Python [str] is a [string]; a character is an [ascii], read as a code
      point below 256;
    - a Python [dict] keyed by strings is an association list with distinct
      keys, in insertion order ([dict_set] overwrites in place or appends);
    - an operation that may raise returns a [result]; an operation that
      mutates the table returns the result together with the table as the
      call leaves it, also when the call raises;
    - Python floats are kept abstract behind the class [PyFloat]. *)

From Stdlib Require Import ZArith List Bool Lia Ascii String DecimalString DecimalPos Sorted.
Import ListNotations.

Local Open Scope string_scope.
Local Open Scope list_scope.
Local Open Scope Z_scope.

Set Implicit Arguments.

(** ** Python string primitives *)

Module PyStr.

Definition char_in (lo hi : nat) (c : ascii) : bool :=
  let n := nat_of_ascii c in (Nat.leb lo n && Nat.leb n hi)%bool.

(** [str.isspace] on one character, restricted to code points below 256. *)
Definition is_space (c : ascii) : bool :=
  (char_in 9 13 c || char_in 28 32 c || char_in 133 133 c || char_in 160 160 c)%bool.

(** The blanks [int()] tolerates around a literal: the file, group, record
    and unit separators (28 to 31) are stripped by [str.strip] but refused
    by [int()]. *)
Definition is_int_space (c : ascii) : bool :=
  (char_in 9 13 c || char_in 32 32 c || char_in 133 133 c || char_in 160 160 c)%bool.

Definition is_quote (c : ascii) : bool :=
  (Ascii.eqb c "'" || Ascii.eqb c "034")%bool.

Fixpoint lstrip_by (p : ascii -> bool) (s : string) : string :=
  match s with
  | EmptyString => EmptyString
  | String c s' => if p c then lstrip_by p s' else s
  end.

Fixpoint rstrip_by (p : ascii -> bool) (s : string) : string :=
  match s with
  | EmptyString => EmptyString
  | String c s' =>
      match rstrip_by p s' with
      | EmptyString => if p c then EmptyString else String c EmptyString
      | r => String c r
      end
  end.

Definition strip_by (p : ascii -> bool) (s : string) : string :=
  rstrip_by p (lstrip_by p s).

(** [s.strip()] *)
Definition strip (s : string) : string := strip_by is_space s.

(** [s.strip(q)] where [q] holds the single and the double quote *)
Definition strip_quotes (s : string) : string := strip_by is_quote s.

(** [s.startswith(p)] *)
Fixpoint startswith (s p : string) {struct p} : bool :=
  match p with
  | EmptyString => true
  | String a p' =>
      match s with
      | EmptyString => false
      | String b s' => (Ascii.eqb a b && startswith s' p')%bool
      end
  end.

(** [sub in s] *)
Fixpoint contains (sub s : string) : bool :=
  (startswith s sub
   || match s with
      | EmptyString => false
      | String _ s' => contains sub s'
      end)%bool.

(** [s.split(sep)] for a non-empty separator: leftmost occurrences, never
    overlapping.  [skip] counts the characters of a separator that has just
    been recognised and is still to be passed over. *)
Fixpoint split_go (sep : string) (skip : nat) (s : string) : list string :=
  match s with
  | EmptyString => [EmptyString]
  | String c s' =>
      match skip with
      | S k => split_go sep k s'
      | O =>
          if startswith s sep
          then EmptyString :: split_go sep (Nat.pred (String.length sep)) s'
          else match split_go sep O s' with
               | piece :: more => String c piece :: more
               | [] => [String c EmptyString]
               end
      end
  end.

Definition split (sep s : string) : list string := split_go sep O s.

(** [s.replace(old, new)] when [old] is a single character. *)
Fixpoint replace_char (old : ascii) (new s : string) : string :=
  match s with
  | EmptyString => EmptyString
  | String c s' =>
      if Ascii.eqb c old then new ++ replace_char old new s'
      else String c (replace_char old new s')
  end.

Fixpoint all_chars (p : ascii -> bool) (s : string) : bool :=
  match s with
  | EmptyString => true
  | String c s' => (p c && all_chars p s')%bool
  end.

(** [str.upper] on ASCII letters, which is [str.upper] itself on strings
    whose code points are all below 128. Of the other code points below 256
    Python maps none onto an ASCII letter but the sharp s, which becomes SS;
    no type name holds that pair, so the test of [Column.__init__] on
    [data_type.upper()] comes out the same. *)
Definition upper_char (c : ascii) : ascii :=
  if char_in 97 122 c then ascii_of_nat (nat_of_ascii c - 32) else c.

Fixpoint upper (s : string) : string :=
  match s with
  | EmptyString => EmptyString
  | String c s' => String (upper_char c) (upper s')
  end.

(** *** [int(s)] and [str(n)] *)

Definition digit_val (c : ascii) : option Z :=
  if char_in 48 57 c then Some (Z.of_nat (nat_of_ascii c - 48)) else None.

(** Digits after a first one, single underscores allowed between digits;
    returns the number read and how many digits it has. *)
Fixpoint digits_go (acc : Z) (n : nat) (s : string) : option (Z * nat) :=
  match s with
  | EmptyString => Some (acc, n)
  | String c s' =>
      match digit_val c with
      | Some d => digits_go (10 * acc + d) (S n) s'
      | None =>
          if Ascii.eqb c "_" then
            match s' with
            | EmptyString => None
            | String c' s'' =>
                match digit_val c' with
                | Some d => digits_go (10 * acc + d) (S n) s''
                | None => None
                end
            end
          else None
      end
  end.

(** Default of [sys.get_int_max_str_digits()]. *)
Definition int_max_str_digits : nat := 4300.

Definition unsigned_of_str (s : string) : option Z :=
  match s with
  | EmptyString => None
  | String c s' =>
      match digit_val c with
      | None => None
      | Some d =>
          match digits_go d 1 s' with
          | Some (v, n) => if Nat.ltb int_max_str_digits n then None else Some v
          | None => None
          end
      end
  end.

(** [int(s)] in base ten; [None] stands for [ValueError]. *)
Definition int_of_str (s : string) : option Z :=
  match strip_by is_int_space s with
  | String "-" body => option_map Z.opp (unsigned_of_str body)
  | String "+" body => unsigned_of_str body
  | body => unsigned_of_str body
  end.

(** [str(n)] for an [int]. *)
Definition str_of_int (z : Z) : string :=
  NilZero.string_of_int (Z.to_int z).

End PyStr.

Import PyStr.

(** ** Exceptions and results *)

Inductive dtype := INTEGER | TEXT | REAL.

(** The texts of the [ValueError]s the engine raises, with the data they
    interpolate. *)
Inductive message :=
| UnsupportedDataType (given : string)
| PrimaryKeyNotFound (pk : string)
| TableAlreadyExists (table : string)
| PrimaryKeyViolation (pk shown : string)
| ColumnDoesNotExist (col : string)
| ColumnExpects (col : string) (expected : dtype) (got : string)
| InvalidLikeCondition (condition : string)
| InvalidCondition (condition : string).

(** [PatternError] is [re.error]. [OutsideRegexModel] is no Python exception:
    it marks a pattern that uses regular-expression syntax this development
    does not interpret (see [re_special]). *)
Inductive exn :=
| ValueError (m : message)
| TypeError
| KeyError (key : string)
| IndexError
| PatternError
| OutsideRegexModel.

(** The error kinds of the specification, as the engine signals them. *)
Definition SchemaError (given : string) : exn := ValueError (UnsupportedDataType given).
Definition DuplicateTableError (table : string) : exn := ValueError (TableAlreadyExists table).
Definition UnknownColumnError (col : string) : exn := ValueError (ColumnDoesNotExist col).
Definition TypeMismatchError (col : string) (expected : dtype) (got : string) : exn :=
  ValueError (ColumnExpects col expected got).
Definition UniqueConstraintError (pk shown : string) : exn :=
  ValueError (PrimaryKeyViolation pk shown).
Definition MalformedPredicateError (m : message) : Prop :=
  exists c, m = InvalidLikeCondition c \/ m = InvalidCondition c.

Inductive result (A : Type) :=
| Ok (a : A)
| Raise (e : exn).

Arguments Ok {A} a.
Arguments Raise {A} e.

Definition bind {A B : Type} (c : result A) (k : A -> result B) : result B :=
  match c with
  | Ok a => k a
  | Raise e => Raise e
  end.

Notation "x <- c ;; k" := (bind c (fun x => k))
  (at level 61, c at next level, right associativity).

(** ** Dictionaries in insertion order *)

Definition dict (V : Type) := list (string * V).

Fixpoint dict_get {V : Type} (d : dict V) (k : string) : option V :=
  match d with
  | [] => None
  | (k', v) :: d' => if String.eqb k' k then Some v else dict_get d' k
  end.

(** [k in d] *)
Definition dict_mem {V : Type} (d : dict V) (k : string) : bool :=
  match dict_get d k with
  | Some _ => true
  | None => false
  end.

(** [d[k] = v]: an existing key keeps its place, a new one goes last. *)
Fixpoint dict_set {V : Type} (d : dict V) (k : string) (v : V) : dict V :=
  match d with
  | [] => [(k, v)]
  | (k', v') :: d' =>
      if String.eqb k' k then (k', v) :: d' else (k', v') :: dict_set d' k v
  end.

Definition dict_keys {V : Type} (d : dict V) : list string := map fst d.

(** [d.update(other)] *)
Definition dict_update {V : Type} (d other : dict V) : dict V :=
  fold_left (fun acc kv => dict_set acc (fst kv) (snd kv)) other d.

(** Keys of a dict filled by assigning to [ks] from left to right. *)
Definition keys_step (acc : list string) (k : string) : list string :=
  if existsb (String.eqb k) acc then acc else acc ++ [k].

Definition keys_in_order (ks : list string) : list string :=
  fold_left keys_step ks [].

(** ** The fragment of [re] that LIKE patterns are run through *)

Inductive re_atom :=
| ReChar (c : ascii)
| ReDot.

Inductive re_item :=
| ReOne (a : re_atom)
| ReStar (a : re_atom).

(** Metacharacters left uninterpreted. *)
Definition re_special (c : ascii) : bool :=
  existsb (Ascii.eqb c) (list_ascii_of_string "\^$+?{}[]()|").

Definition re_atom_of (c : ascii) : re_atom :=
  if Ascii.eqb c "." then ReDot else ReChar c.

(** [None] is [re.error]: a star with nothing to repeat, or a repeated star. *)
Fixpoint re_parse (s : string) : option (list re_item) :=
  match s with
  | EmptyString => Some []
  | String c s' =>
      if Ascii.eqb c "*" then None
      else
        match s' with
        | EmptyString => Some [ReOne (re_atom_of c)]
        | String c' s'' =>
            if Ascii.eqb c' "*"
            then option_map (cons (ReStar (re_atom_of c))) (re_parse s'')
            else option_map (cons (ReOne (re_atom_of c))) (re_parse s')
        end
  end.

(** A dot matches anything but a newline. *)
Definition re_atom_matches (a : re_atom) (c : ascii) : bool :=
  match a with
  | ReChar x => Ascii.eqb x c
  | ReDot => negb (Ascii.eqb c "010")
  end.

(** The dollar: the end of the subject, or just before its final newline. *)
Definition re_at_end (s : string) : bool :=
  match s with
  | EmptyString => true
  | String c EmptyString => Ascii.eqb c "010"
  | _ => false
  end.

Fixpoint re_run (items : list re_item) (s : string) : bool :=
  match items with
  | [] => re_at_end s
  | ReOne a :: rest =>
      match s with
      | EmptyString => false
      | String c s' => (re_atom_matches a c && re_run rest s')%bool
      end
  | ReStar a :: rest =>
      (fix star (s : string) : bool :=
         (re_run rest s
          || match s with
             | EmptyString => false
             | String c s' => (re_atom_matches a c && star s')%bool
             end)%bool) s
  end.

(** [pattern.replace('%', '.*').replace('_', '.')] *)
Definition like_regex (pattern : string) : string :=
  replace_char "_" "." (replace_char "%" ".*" pattern).

(** [bool(re.match("^" + body + "$", subject))] *)
Definition re_match_anchored (body subject : string) : result bool :=
  if negb (all_chars (fun c => negb (re_special c)) body) then Raise OutsideRegexModel
  else
    match re_parse body with
    | None => Raise PatternError
    | Some items => Ok (re_run items subject)
    end.

(** ** Python floats, abstractly *)

(** [float_of_str] is [float(s)], [None] standing for [ValueError];
    [str_of_float] is [str(x)]; the two comparisons return [None] when the
    operands are unordered (a NaN is involved). [float_compare_int x n]
    compares the float [x] with the integer [n] exactly. *)
Class PyFloat (F : Type) := {
  float_of_str : string -> option F;
  str_of_float : F -> string;
  float_compare : F -> F -> option comparison;
  float_compare_int : F -> Z -> option comparison
}.

(** ** Values, columns and tables *)

Section Engine.

Context {F : Type} {PF : PyFloat F}.

(** The scalars a row may hold: [None], [bool], [int], [float] and [str]. *)
Inductive value :=
| VNone
| VBool (b : bool)
| VInt (z : Z)
| VFloat (x : F)
| VStr (s : string).

Definition row := dict value.

(** [type(v).__name__] *)
Definition type_name (v : value) : string :=
  match v with
  | VNone => "NoneType"
  | VBool _ => "bool"
  | VInt _ => "int"
  | VFloat _ => "float"
  | VStr _ => "str"
  end.

(** The integer behind an instance of [int]; [bool] is a subclass of [int]. *)
Definition int_value (v : value) : option Z :=
  match v with
  | VInt z => Some z
  | VBool b => Some (if b then 1 else 0)
  | _ => None
  end.

(** [isinstance(v, int)] *)
Definition isinstance_int (v : value) : bool :=
  match int_value v with
  | Some _ => true
  | None => false
  end.

(** [isinstance(v, float)] *)
Definition isinstance_float (v : value) : bool :=
  match v with
  | VFloat _ => true
  | _ => false
  end.

(** [isinstance(v, str)] *)
Definition isinstance_str (v : value) : bool :=
  match v with
  | VStr _ => true
  | _ => false
  end.

(** [str(v)] *)
Definition py_str (v : value) : string :=
  match v with
  | VNone => "None"
  | VBool true => "True"
  | VBool false => "False"
  | VInt z => str_of_int z
  | VFloat x => str_of_float x
  | VStr s => s
  end.

Definition is_eq (c : option comparison) : bool :=
  match c with
  | Some Eq => true
  | _ => false
  end.

(** [a == b]; it never raises. *)
Definition py_eq (a b : value) : bool :=
  match a, b with
  | VNone, VNone => true
  | VStr s, VStr t => String.eqb s t
  | VFloat x, VFloat y => is_eq (float_compare x y)
  | VFloat x, _ =>
      match int_value b with
      | Some n => is_eq (float_compare_int x n)
      | None => false
      end
  | _, VFloat y =>
      match int_value a with
      | Some m => is_eq (float_compare_int y m)
      | None => false
      end
  | _, _ =>
      match int_value a, int_value b with
      | Some m, Some n => Z.eqb m n
      | _, _ => false
      end
  end.

(** How [a] stands to [b] under the ordering operators: [Ok None] when the
    operands are numbers that are unordered, [TypeError] when their types
    cannot be ordered against each other. *)
Definition py_order (a b : value) : result (option comparison) :=
  match a, b with
  | VStr s, VStr t => Ok (Some (String.compare s t))
  | VFloat x, VFloat y => Ok (float_compare x y)
  | VFloat x, _ =>
      match int_value b with
      | Some n => Ok (float_compare_int x n)
      | None => Raise TypeError
      end
  | _, VFloat y =>
      match int_value a with
      | Some m => Ok (option_map CompOpp (float_compare_int y m))
      | None => Raise TypeError
      end
  | _, _ =>
      match int_value a, int_value b with
      | Some m, Some n => Ok (Some (Z.compare m n))
      | _, _ => Raise TypeError
      end
  end.

Definition py_lt (a b : value) : result bool :=
  c <- py_order a b ;; Ok (match c with Some Lt => true | _ => false end).
Definition py_gt (a b : value) : result bool :=
  c <- py_order a b ;; Ok (match c with Some Gt => true | _ => false end).
Definition py_le (a b : value) : result bool :=
  c <- py_order a b ;; Ok (match c with Some Lt | Some Eq => true | _ => false end).
Definition py_ge (a b : value) : result bool :=
  c <- py_order a b ;; Ok (match c with Some Gt | Some Eq => true | _ => false end).

(** *** class Column *)

Record Column := {
  name : string;
  data_type : dtype;
  is_primary_key : bool
}.

Definition dtype_of_str (s : string) : option dtype :=
  if String.eqb s "INTEGER" then Some INTEGER
  else if String.eqb s "TEXT" then Some TEXT
  else if String.eqb s "REAL" then Some REAL
  else None.

(** [Column(name, data_type, is_primary_key)] *)
Definition Column_init (nm data_type_str : string) (is_pk : bool) : result Column :=
  match dtype_of_str (upper data_type_str) with
  | Some ty => Ok {| name := nm; data_type := ty; is_primary_key := is_pk |}
  | None => Raise (ValueError (UnsupportedDataType data_type_str))
  end.

(** *** class Table *)

Record Table := {
  table_name : string;
  columns : list Column;
  primary_key : string;
  rows : list row;
  next_id : Z
}.

(** [{col.name: col for col in columns}] *)
Definition column_map_of (cols : list Column) : dict Column :=
  fold_left (fun m col => dict_set m (name col) col) cols [].

Definition column_map (t : Table) : dict Column := column_map_of (columns t).

(** [Table(name, columns, primary_key)] *)
Definition Table_init (nm : string) (cols : list Column) (pk : string) : result Table :=
  if dict_mem (column_map_of cols) pk
  then Ok {| table_name := nm; columns := cols; primary_key := pk;
             rows := []; next_id := 1 |}
  else Raise (ValueError (PrimaryKeyNotFound pk)).

Definition set_rows (t : Table) (rs : list row) : Table :=
  {| table_name := table_name t; columns := columns t;
     primary_key := primary_key t; rows := rs; next_id := next_id t |}.

(** [Table._validate_types]: one (column, value) pair. *)
Definition validate_item (t : Table) (col_name : string) (v : value) : result unit :=
  match v with
  | VNone => Ok tt
  | _ =>
      match dict_get (column_map t) col_name with
      | None => Ok tt
      | Some col =>
          match data_type col with
          | INTEGER =>
              if negb (isinstance_int v)
              then Raise (ValueError (ColumnExpects col_name INTEGER (type_name v)))
              else Ok tt
          | TEXT =>
              if negb (isinstance_str v)
              then Raise (ValueError (ColumnExpects col_name TEXT (type_name v)))
              else Ok tt
          | REAL =>
              if negb (isinstance_int v || isinstance_float v)
              then Raise (ValueError (ColumnExpects col_name REAL (type_name v)))
              else Ok tt
          end
      end
  end.

(** [Table._validate_types] *)
Fixpoint _validate_types (t : Table) (r : row) : result unit :=
  match r with
  | [] => Ok tt
  | (col_name, v) :: rest =>
      _ <- validate_item t col_name v ;; _validate_types t rest
  end.

(** The first loop of [Table.insert]: the row a call materialises. *)
Definition materialise (t : Table) (values : dict value) : row :=
  fold_left
    (fun r col =>
       if is_primary_key col then
         match dict_get values (name col) with
         | None => dict_set r (name col) (VInt (next_id t))
         | Some v => dict_set r (name col) v
         end
       else
         match dict_get values (name col) with
         | None => dict_set r (name col) VNone
         | Some v => dict_set r (name col) v
         end)
    (columns t) [].

(** The uniqueness scan of [Table.insert]. *)
Fixpoint check_unique (pk : string) (pk_val : value) (existing : list row) : result unit :=
  match existing with
  | [] => Ok tt
  | existing_row :: rest =>
      match dict_get existing_row pk with
      | None => Raise (KeyError pk)
      | Some v =>
          if py_eq v pk_val
          then Raise (ValueError (PrimaryKeyViolation pk (py_str pk_val)))
          else check_unique pk pk_val rest
      end
  end.

(** [Table.insert]: the result and the table the call leaves. *)
Definition insert (t : Table) (values : dict value) : result value * Table :=
  let r := materialise t values in
  match _validate_types t r with
  | Raise e => (Raise e, t)
  | Ok _ =>
      match dict_get r (primary_key t) with
      | None => (Raise (KeyError (primary_key t)), t)
      | Some pk_val =>
          match check_unique (primary_key t) pk_val (rows t) with
          | Raise e => (Raise e, t)
          | Ok _ =>
              (Ok pk_val,
               {| table_name := table_name t; columns := columns t;
                  primary_key := primary_key t;
                  rows := rows t ++ [r]; next_id := next_id t + 1 |})
          end
      end
  end.

(** *** The condition evaluator *)

Inductive cmp_op := OpGe | OpLe | OpNe | OpEq | OpGt | OpLt.

Definition op_text (op : cmp_op) : string :=
  match op with
  | OpGe => ">="
  | OpLe => "<="
  | OpNe => "<>"
  | OpEq => "="
  | OpGt => ">"
  | OpLt => "<"
  end.

(** The operators in the order [_evaluate_condition] looks for them. *)
Definition comparison_ops : list cmp_op := [OpGe; OpLe; OpNe; OpEq; OpGt; OpLt].

(** The operator surrounded by single spaces. *)
Definition spaced (word : string) : string := " " ++ word ++ " ".

(** The literal of a comparison, read after the kind of the row's value. *)
Definition parse_literal (row_value : value) (value_str : string) : value :=
  if isinstance_int row_value then
    match int_of_str value_str with
    | Some n => VInt n
    | None => VStr value_str
    end
  else if isinstance_float row_value then
    match float_of_str value_str with
    | Some x => VFloat x
    | None => VStr value_str
    end
  else VStr value_str.

Definition apply_op (op : cmp_op) (row_value compare_value : value) : result bool :=
  match op with
  | OpEq => Ok (py_eq row_value compare_value)
  | OpGt => py_gt row_value compare_value
  | OpLt => py_lt row_value compare_value
  | OpGe => py_ge row_value compare_value
  | OpLe => py_le row_value compare_value
  | OpNe => Ok (negb (py_eq row_value compare_value))
  end.

(** The LIKE branch of [_evaluate_condition]. *)
Definition evaluate_like (r : row) (condition : string) : result bool :=
  match split " LIKE " condition with
  | [lhs; rhs] =>
      let col_name := strip lhs in
      let pattern := strip_quotes (strip rhs) in
      match dict_get r col_name with
      | None => Raise (ValueError (ColumnDoesNotExist col_name))
      | Some v =>
          let regex_pattern := like_regex pattern in
          re_match_anchored regex_pattern (py_str v)
      end
  | _ => Raise (ValueError (InvalidLikeCondition condition))
  end.

(** The body of the operator loop of [_evaluate_condition], once [op] has
    been found in the condition. *)
Definition evaluate_comparison (r : row) (condition : string) (op : cmp_op) : result bool :=
  match split (spaced (op_text op)) condition with
  | [lhs; rhs] =>
      let col_name := strip lhs in
      let value_str := strip_quotes (strip rhs) in
      match dict_get r col_name with
      | None => Raise (ValueError (ColumnDoesNotExist col_name))
      | Some row_value => apply_op op row_value (parse_literal row_value value_str)
      end
  | _ => Raise (ValueError (InvalidCondition condition))
  end.

Fixpoint evaluate_ops (r : row) (condition : string) (ops : list cmp_op) : result bool :=
  match ops with
  | [] => Raise (ValueError (InvalidCondition condition))
  | op :: later =>
      if contains (spaced (op_text op)) condition
      then evaluate_comparison r condition op
      else evaluate_ops r condition later
  end.

(** [Table._evaluate_condition] *)
Definition _evaluate_condition (r : row) (condition : string) : result bool :=
  let condition := strip condition in
  if contains " LIKE " condition then evaluate_like r condition
  else evaluate_ops r condition comparison_ops.

Fixpoint evaluate_all (r : row) (conditions : list string) : result bool :=
  match conditions with
  | [] => Ok true
  | condition :: later =>
      b <- _evaluate_condition r condition ;;
      if negb b then Ok false else evaluate_all r later
  end.

(** [Table._evaluate_where] *)
Definition _evaluate_where (r : row) (where_clause : string) : result bool :=
  evaluate_all r (map strip (split " AND " where_clause)).

(** *** select, update, delete *)

(** [[row for row in rows if test(row)]] with a test that may raise;
    [keep] says which outcome of the test keeps the row. *)
Fixpoint filter_rows (keep : bool) (where_clause : string) (rs : list row)
  : result (list row) :=
  match rs with
  | [] => Ok []
  | r :: rest =>
      b <- _evaluate_where r where_clause ;;
      kept <- filter_rows keep where_clause rest ;;
      Ok (if Bool.eqb b keep then r :: kept else kept)
  end.

Fixpoint check_columns (t : Table) (cols : list string) : result unit :=
  match cols with
  | [] => Ok tt
  | col :: rest =>
      if negb (dict_mem (column_map t) col)
      then Raise (ValueError (ColumnDoesNotExist col))
      else check_columns t rest
  end.

(** [{col: row[col] for col in columns}], continued from [acc]. *)
Fixpoint project_from (acc : row) (r : row) (cols : list string) : result row :=
  match cols with
  | [] => Ok acc
  | col :: rest =>
      match dict_get r col with
      | None => Raise (KeyError col)
      | Some v => project_from (dict_set acc col v) r rest
      end
  end.

Definition project (r : row) (cols : list string) : result row :=
  project_from [] r cols.

Fixpoint project_all (cols : list string) (rs : list row) : result (list row) :=
  match rs with
  | [] => Ok []
  | r :: rest =>
      p <- project r cols ;;
      ps <- project_all cols rest ;;
      Ok (p :: ps)
  end.

(** Truth value of a string. *)
Definition truthy (s : string) : bool :=
  match s with
  | EmptyString => false
  | _ => true
  end.

(** [Table.select] *)
Definition select (t : Table) (cols : option (list string)) (where_clause : option string)
  : result (list row) :=
  let cols :=
    match cols with
    | None => map name (columns t)
    | Some cs => cs
    end in
  _ <- check_columns t cols ;;
  filtered_rows <-
    match where_clause with
    | Some w => if truthy w then filter_rows true w (rows t) else Ok (rows t)
    | None => Ok (rows t)
    end ;;
  project_all cols filtered_rows.

(** The loop of [Table.update] over the rows: the outcome, and the rows as
    the loop leaves them. A row is merged in place as soon as it matches, so
    an error raised further down keeps the merges done before it. *)
Fixpoint update_rows (values : dict value) (where_clause : option string)
    (updated_count : Z) (rs : list row) : result Z * list row :=
  match rs with
  | [] => (Ok updated_count, [])
  | r :: rest =>
      match
        match where_clause with
        | None => Ok true
        | Some w => _evaluate_where r w
        end
      with
      | Raise e => (Raise e, r :: rest)
      | Ok true =>
          let (res, rest') := update_rows values where_clause (updated_count + 1) rest in
          (res, dict_update r values :: rest')
      | Ok false =>
          let (res, rest') := update_rows values where_clause updated_count rest in
          (res, r :: rest')
      end
  end.

(** The two validations [Table.update] runs before its loop. *)
Definition validate_update (t : Table) (values : dict value) : result unit :=
  _ <- check_columns t (dict_keys values) ;; _validate_types t values.

(** [Table.update] *)
Definition update (t : Table) (values : dict value) (where_clause : option string)
  : result Z * Table :=
  match validate_update t values with
  | Raise e => (Raise e, t)
  | Ok _ =>
      let (res, rs) := update_rows values where_clause 0 (rows t) in
      (res, set_rows t rs)
  end.

(** [Table.delete] *)
Definition delete (t : Table) (where_clause : option string) : result Z * Table :=
  match where_clause with
  | None => (Ok (Z.of_nat (List.length (rows t))), set_rows t [])
  | Some w =>
      match filter_rows false w (rows t) with
      | Raise e => (Raise e, t)
      | Ok new_rows =>
          (Ok (Z.of_nat (List.length (rows t)) - Z.of_nat (List.length new_rows)),
           set_rows t new_rows)
      end
  end.

(** *** class Database *)

Definition Database := dict Table.

Fixpoint make_columns (first : bool) (specs : list (string * string)) : result (list Column) :=
  match specs with
  | [] => Ok []
  | (col_name, col_type) :: rest =>
      col <- Column_init col_name col_type first ;;
      cols <- make_columns false rest ;;
      Ok (col :: cols)
  end.

(** [Database.create_table]: the first column is the primary key. *)
Definition create_table (db : Database) (nm : string) (specs : list (string * string))
  : result Table * Database :=
  if dict_mem db nm then (Raise (ValueError (TableAlreadyExists nm)), db)
  else
    match make_columns true specs with
    | Raise e => (Raise e, db)
    | Ok [] => (Raise IndexError, db)
    | Ok (first :: others) =>
        match Table_init nm (first :: others) (name first) with
        | Raise e => (Raise e, db)
        | Ok t => (Ok t, dict_set db nm t)
        end
    end.

(** *** Tables the engine can reach *)

(** A table made by the constructor, then driven through any calls of
    [insert], [update] and [delete], whether they return or raise. *)
Inductive reachable : Table -> Prop :=
| reach_init nm cols pk t :
    Table_init nm cols pk = Ok t -> reachable t
| reach_insert t values :
    reachable t -> reachable (snd (insert t values))
| reach_update t values w :
    reachable t -> reachable (snd (update t values w))
| reach_delete t w :
    reachable t -> reachable (snd (delete t w)).

(** The table after a run of [insert] calls, failed ones included. *)
Definition insert_all (t : Table) (calls : list (dict value)) : Table :=
  fold_left (fun t values => snd (insert t values)) calls t.

End Engine.

Arguments value F : clear implicits.
Arguments row F : clear implicits.
Arguments Table F : clear implicits.

(** ** Reference readings of the specification *)

(** Whether a comparison outcome satisfies an operator. *)
Definition holds (op : cmp_op) (c : option comparison) : bool :=
  match op, c with
  | OpEq, Some Eq => true
  | OpNe, Some Eq => false
  | OpNe, _ => true
  | OpLt, Some Lt => true
  | OpGt, Some Gt => true
  | OpLe, Some Lt | OpLe, Some Eq => true
  | OpGe, Some Gt | OpGe, Some Eq => true
  | _, _ => false
  end.

Definition is_ordering (op : cmp_op) : bool :=
  match op with
  | OpGe | OpLe | OpGt | OpLt => true
  | OpNe | OpEq => false
  end.

(** LIKE as the specification words it: [%] stands for any run of
    characters, [_] for exactly one, any other character for itself, and the
    whole subject has to be matched. *)
Fixpoint like_spec (pattern subject : string) : bool :=
  match pattern with
  | EmptyString =>
      match subject with
      | EmptyString => true
      | _ => false
      end
  | String p pattern' =>
      if Ascii.eqb p "%" then
        (fix any_run (s : string) : bool :=
           (like_spec pattern' s
            || match s with
               | EmptyString => false
               | String _ s' => any_run s'
               end)%bool) subject
      else
        match subject with
        | EmptyString => false
        | String c subject' =>
            ((Ascii.eqb p "_" || Ascii.eqb p c) && like_spec pattern' subject')%bool
        end
  end.

(** Pattern characters the translation into a regular expression leaves
    with their LIKE meaning: everything but the metacharacters of [re]. *)
Definition like_plain (c : ascii) : bool :=
  (negb (re_special c) && negb (Ascii.eqb c ".") && negb (Ascii.eqb c "*"))%bool.

Definition not_newline (c : ascii) : bool := negb (Ascii.eqb c "010").

(** The items a LIKE pattern stands for, one per character. *)
Fixpoint like_items (pattern : string) : list re_item :=
  match pattern with
  | EmptyString => []
  | String c pattern' =>
      (if Ascii.eqb c "%" then ReStar ReDot
       else if Ascii.eqb c "_" then ReOne ReDot
       else ReOne (ReChar c)) :: like_items pattern'
  end.

(** A comparison as the specification words it: the literal read after the
    kind of the row's value, and both sides taken as text when that fails or
    the row's value is no number. *)
Definition spec_compare {F : Type} {PF : PyFloat F}
    (op : cmp_op) (row_value : value F) (value_str : string) : bool :=
  let as_text := holds op (Some (String.compare (py_str row_value) value_str)) in
  match row_value with
  | VFloat x =>
      match float_of_str value_str with
      | Some y => holds op (float_compare x y)
      | None => as_text
      end
  | _ =>
      match int_value row_value, int_of_str value_str with
      | Some m, Some n => holds op (Some (Z.compare m n))
      | _, _ => as_text
      end
  end.

(** What a declared type admits, as the specification words it. *)
Definition type_accepts {F : Type} (ty : dtype) (v : value F) : bool :=
  match v with
  | VNone => true
  | VBool _ | VInt _ =>
      match ty with
      | INTEGER | REAL => true
      | TEXT => false
      end
  | VFloat _ =>
      match ty with
      | REAL => true
      | _ => false
      end
  | VStr _ =>
      match ty with
      | TEXT => true
      | _ => false
      end
  end.

(** A non-empty string without blanks: a column name or a literal that the
    evaluator reads as one token. *)
Definition not_space (c : ascii) : bool := negb (is_space c).

Definition is_word (s : string) : bool :=
  (truthy s && all_chars not_space s)%bool.

(** Order-preserving sub-sequences. *)
Inductive subseq {A : Type} : list A -> list A -> Prop :=
| subseq_nil : subseq [] []
| subseq_skip x l1 l2 : subseq l1 l2 -> subseq l1 (x :: l2)
| subseq_keep x l1 l2 : subseq l1 l2 -> subseq (x :: l1) (x :: l2).

(** Primary keys pairwise different under [==], older row against newer. *)
Definition pk_distinct {F : Type} {PF : PyFloat F} (pk : string) (rs : list (row F)) : Prop :=
  forall i j ri rj, (i < j)%nat ->
    nth_error rs i = Some ri -> nth_error rs j = Some rj ->
    exists vi vj, dict_get ri pk = Some vi /\ dict_get rj pk = Some vj /\ py_eq vi vj = false.

(** The value [insert] stores under a column: the supplied one, else the
    next id for a primary-key column and null for any other. *)
Definition cell {F : Type} (t : Table F) (values : dict (value F)) (col : Column)
  : value F :=
  match dict_get values (name col) with
  | Some v => v
  | None => if is_primary_key col then VInt (next_id t) else VNone
  end.

(** The shape the engine keeps its tables in: the primary key names a
    column, and every stored row has exactly the columns' names as keys, in
    the order of their declaration. *)
Definition well_shaped {F : Type} (t : Table F) : Prop :=
  In (primary_key t) (map name (columns t))
  /\ Forall (fun r => dict_keys r = keys_in_order (map name (columns t))) (rows t).

(** Whether the WHERE clause evaluates to true on a row. *)
Definition where_true {F : Type} {PF : PyFloat F} (w : string) (r : row F) : bool :=
  match _evaluate_where r w with
  | Ok true => true
  | _ => false
  end.

(** Dropping a conjunct keeps every selected row, read literally: a row
    that [select] returns for [c1 AND c2] is returned for [c1] alone and for
    [c2] alone. *)
Definition conjunction_monotone {F : Type} {PF : PyFloat F}
    (t : Table F) (cols : option (list string)) (c1 c2 : string) : Prop :=
  forall selected r,
    select t cols (Some (c1 ++ " AND " ++ c2)%string) = Ok selected -> In r selected ->
    (exists s1, select t cols (Some c1) = Ok s1 /\ In r s1)
    /\ (exists s2, select t cols (Some c2) = Ok s2 /\ In r s2).

(** ** A concrete table *)

(** Examples below hold no float; the instance over the empty type says so. *)
#[global] Instance NoFloat : PyFloat Empty_set := {
  float_of_str := fun _ => None;
  str_of_float := fun x => match x with end;
  float_compare := fun x _ => match x with end;
  float_compare_int := fun x _ => match x with end
}.

Definition students_columns : list Column :=
  [ {| name := "id"; data_type := INTEGER; is_primary_key := true |};
    {| name := "name"; data_type := TEXT; is_primary_key := false |};
    {| name := "age"; data_type := INTEGER; is_primary_key := false |} ].

(** [create_table("students", [("id","INTEGER"),("name","TEXT"),("age","INTEGER")])] *)
Definition students : Table Empty_set :=
  {| table_name := "students"; columns := students_columns; primary_key := "id";
     rows := []; next_id := 1 |}.

Definition alice : dict (value Empty_set) := [("name", VStr "Alice"); ("age", VInt 20)].
Definition bob : dict (value Empty_set) := [("name", VStr "Bob"); ("age", VInt 17)].
Definition carol : dict (value Empty_set) := [("name", VStr "Carol")].

(** Alice aged 20, Bob aged 17. *)
Definition two_students : Table Empty_set := insert_all students [alice; bob].

(** Alice aged 20, then Carol whose age is null. *)
Definition alice_carol : Table Empty_set := insert_all students [alice; carol].

(** Carol whose age is null, then Alice aged 20. *)
Definition carol_alice : Table Empty_set := insert_all students [carol; alice].

(** ** The rest of the engine: the registry of tables *)

(** [del d[k]] for a key that is there; without the key the dict is left. *)
Fixpoint dict_remove {V : Type} (d : dict V) (k : string) : dict V :=
  match d with
  | [] => []
  | (k', v) :: d' => if String.eqb k' k then d' else (k', v) :: dict_remove d' k
  end.

(** [sep.join(pieces)] *)
Fixpoint join (sep : string) (pieces : list string) : string :=
  match pieces with
  | [] => EmptyString
  | [piece] => piece
  | piece :: more => (piece ++ sep ++ join sep more)%string
  end.

(** The text a column's [data_type] attribute holds. *)
Definition dtype_text (ty : dtype) : string :=
  match ty with
  | INTEGER => "INTEGER"
  | TEXT => "TEXT"
  | REAL => "REAL"
  end.

Section Registry.

Context {F : Type} {PF : PyFloat F}.

(** [Column.__repr__] *)
Definition Column_repr (col : Column) : string :=
  ("Column(" ++ name col ++ ", " ++ dtype_text (data_type col) ++ ")")%string.

(** [Database.get_table] *)
Definition get_table (db : Database (F:=F)) (nm : string) : option (Table F) :=
  dict_get db nm.

(** [Database.drop_table] *)
Definition drop_table (db : Database (F:=F)) (nm : string) : bool * Database (F:=F) :=
  if dict_mem db nm then (true, dict_remove db nm) else (false, db).

(** [Database.list_tables] *)
Definition list_tables (db : Database (F:=F)) : list string := dict_keys db.

(** One line of [Database.get_table_schema] for a column. *)
Definition schema_line (col : Column) : string :=
  let pk_marker := if is_primary_key col then " (PRIMARY KEY)" else "" in
  ("  " ++ name col ++ ": " ++ dtype_text (data_type col) ++ pk_marker)%string.

(** [Database.get_table_schema] *)
Definition get_table_schema (db : Database (F:=F)) (nm : string) : string :=
  match get_table db nm with
  | None => ("Table '" ++ nm ++ "' does not exist")%string
  | Some t =>
      let lines := ("Table: " ++ nm)%string :: map schema_line (columns t) in
      join (String "010" "") lines
  end.

(** *** Runs of calls on one table *)

Inductive call :=
| CallInsert (values : dict (value F))
| CallUpdate (values : dict (value F)) (where_clause : option string)
| CallDelete (where_clause : option string).

(** The table a call leaves, whether it returns or raises. *)
Definition after_call (t : Table F) (c : call) : Table F :=
  match c with
  | CallInsert values => snd (insert t values)
  | CallUpdate values w => snd (update t values w)
  | CallDelete w => snd (delete t w)
  end.

Definition after_calls (t : Table F) (calls : list call) : Table F :=
  fold_left after_call calls t.

(** A call that supplies no value for the key [k]. *)
Definition leaves_key (k : string) (c : call) : bool :=
  match c with
  | CallInsert values | CallUpdate values _ => negb (dict_mem values k)
  | CallDelete _ => true
  end.

(** The key of a row, when it is a plain integer. *)
Definition int_key (pk : string) (r : row F) : option Z :=
  match dict_get r pk with
  | Some (VInt k) => Some k
  | _ => None
  end.

(** A row whose key is an integer from 1 up to, not including, [bound]. *)
Definition key_below (pk : string) (bound : Z) (r : row F) : Prop :=
  exists k, int_key pk r = Some k /\ 1 <= k < bound.

(** Two rows with integer keys, the first one's the smaller. *)
Definition key_before (pk : string) (r1 r2 : row F) : Prop :=
  exists k1 k2, int_key pk r1 = Some k1 /\ int_key pk r2 = Some k2 /\ k1 < k2.

(** The keys of a table that were all generated: integers from 1 up, below
    [next_id], growing along the rows. *)
Definition auto_keyed (t : Table F) : Prop :=
  1 <= next_id t
  /\ Forall (key_below (primary_key t) (next_id t)) (rows t)
  /\ StronglySorted (key_before (primary_key t)) (rows t).

(** A schema as [create_table] makes it from distinct names: the column
    the primary key names is the one flagged so. *)
Definition key_flagged (cols : list Column) (pk : string) : Prop :=
  NoDup (map name cols)
  /\ exists col, In col cols /\ name col = pk /\ is_primary_key col = true.

(** Every stored value is admitted by the declared type of its column. *)
Definition rows_typed (t : Table F) : Prop :=
  forall r k v col,
    In r (rows t) -> In (k, v) r -> dict_get (column_map t) k = Some col ->
    type_accepts (data_type col) v = true.

End Registry.

(** ** The command-line front end: reading values *)

Definition is_digit (c : ascii) : bool := char_in 48 57 c.

(** [s.endswith(p)] *)
Fixpoint endswith (s p : string) : bool :=
  (String.eqb s p
   || match s with
      | EmptyString => false
      | String _ s' => endswith s' p
      end)%bool.

Fixpoint drop_last (s : string) : string :=
  match s with
  | EmptyString => EmptyString
  | String c EmptyString => EmptyString
  | String c s' => String c (drop_last s')
  end.

(** [s[1:-1]] *)
Definition inner (s : string) : string :=
  match s with
  | EmptyString => EmptyString
  | String _ s' => drop_last s'
  end.

(** The double and the single quote, as one-character strings. *)
Definition dquote : string := String "034" EmptyString.
Definition squote : string := String "'" EmptyString.

(** A value between two quotes [q]. *)
Definition quoted (q : ascii) (s : string) : string :=
  String q (s ++ String q EmptyString).

Section Repl.

Context {F : Type} {PF : PyFloat F}.

(** [DatabaseREPL._parse_single_value] *)
Definition _parse_single_value (value_str : string) : value F :=
  let value_str := strip value_str in
  if ((startswith value_str dquote && endswith value_str dquote)
      || (startswith value_str squote && endswith value_str squote))%bool
  then VStr (inner value_str)
  else if contains "." value_str then
    match float_of_str value_str with
    | Some x => VFloat x
    | None => VStr value_str
    end
  else
    match int_of_str value_str with
    | Some n => VInt n
    | None => VStr value_str
    end.

(** The loop of [DatabaseREPL._parse_values] over the characters, with its
    four variables; it returns the values gathered and the text pending. *)
Fixpoint parse_values_loop (chars : string) (values : list (value F)) (current : string)
    (in_quotes : bool) (quote_char : option ascii) : list (value F) * string :=
  match chars with
  | EmptyString => (values, current)
  | String char rest =>
      if (is_quote char && negb in_quotes)%bool then
        parse_values_loop rest values (current ++ String char EmptyString) true (Some char)
      else if (match quote_char with
               | Some q => Ascii.eqb char q
               | None => false
               end && in_quotes)%bool then
        parse_values_loop rest values (current ++ String char EmptyString) false quote_char
      else if (Ascii.eqb char "," && negb in_quotes)%bool then
        parse_values_loop rest (values ++ [_parse_single_value (strip current)])
          EmptyString in_quotes quote_char
      else
        parse_values_loop rest values (current ++ String char EmptyString)
          in_quotes quote_char
  end.

(** [DatabaseREPL._parse_values] *)
Definition _parse_values (values_str : string) : list (value F) :=
  let (values, current) := parse_values_loop values_str [] EmptyString false None in
  if truthy (strip current)
  then values ++ [_parse_single_value (strip current)]
  else values.

(** An item of a value list that the reader takes whole: free of quotes and
    commas, or put between two quotes of a kind it does not contain, or
    several of these one after the other. *)
Inductive item : string -> Prop :=
| item_plain s :
    all_chars (fun c => negb (is_quote c || Ascii.eqb c ",")) s = true -> item s
| item_quoted q s :
    is_quote q = true -> all_chars (fun c => negb (Ascii.eqb c q)) s = true ->
    item (quoted q s)
| item_app a b : item a -> item b -> item (a ++ b).

End Repl.

(** ** The front end's table printer *)

(** [c * n] for a one-character string [c] *)
Fixpoint repeat_char (c : ascii) (n : nat) : string :=
  match n with
  | O => EmptyString
  | S n' => String c (repeat_char c n')
  end.

(** [s.ljust(width)] *)
Definition ljust (s : string) (width : nat) : string :=
  (s ++ repeat_char " " (width - String.length s))%string.

(** [d[k]] *)
Definition subscript {V : Type} (d : dict V) (k : string) : result V :=
  match dict_get d k with
  | Some v => Ok v
  | None => Raise (KeyError k)
  end.

(** The last thing printed: a line feed, then the count between brackets. *)
Definition count_line (n : nat) : string :=
  String "010" ("(" ++ str_of_int (Z.of_nat n) ++ " row(s))")%string.

Section Printing.

Context {F : Type} {PF : PyFloat F}.

(** [{col: len(str(col)) for col in columns}] *)
Definition initial_widths (columns : list string) : dict nat :=
  fold_left (fun col_widths col => dict_set col_widths col (String.length col)) columns [].

(** [col_widths[col] = max(col_widths[col], len(str(row[col])))] *)
Definition widen (r : row F) (acc : result (dict nat)) (col : string) : result (dict nat) :=
  col_widths <- acc ;;
  old <- subscript col_widths col ;;
  v <- subscript r col ;;
  Ok (dict_set col_widths col (Nat.max old (String.length (py_str v)))).

Definition column_widths (columns : list string) (rs : list (row F)) : result (dict nat) :=
  fold_left (fun acc r => fold_left (widen r) columns acc) rs (Ok (initial_widths columns)).

(** [text(col).ljust(col_widths[col]) for col in columns], the pieces that
    [join] puts in a line. *)
Fixpoint cells (text : string -> result string) (col_widths : dict nat)
    (columns : list string) : result (list string) :=
  match columns with
  | [] => Ok []
  | col :: rest =>
      s <- text col ;;
      w <- subscript col_widths col ;;
      more <- cells text col_widths rest ;;
      Ok (ljust s w :: more)
  end.

Definition cell_text (r : row F) (col : string) : result string :=
  v <- subscript r col ;; Ok (py_str v).

(** The loop that prints the rows; [out] is what has been printed so far. *)
Fixpoint print_rows (col_widths : dict nat) (columns : list string) (rs : list (row F))
    (out : list string) : list string * result unit :=
  match rs with
  | [] => (out, Ok tt)
  | r :: rest =>
      match cells (cell_text r) col_widths columns with
      | Ok pieces => print_rows col_widths columns rest (out ++ [join " | " pieces])
      | Raise e => (out, Raise e)
      end
  end.

(** [DatabaseREPL._print_table]: the arguments of its calls of [print], in
    order, and how it ends. *)
Definition _print_table (rs : list (row F)) : list string * result unit :=
  match rs with
  | [] => ([], Ok tt)
  | first :: _ =>
      let columns := dict_keys first in
      match column_widths columns rs with
      | Raise e => ([], Raise e)
      | Ok col_widths =>
          match cells (fun col => Ok col) col_widths columns with
          | Raise e => ([], Raise e)
          | Ok pieces =>
              let header := join " | " pieces in
              match print_rows col_widths columns rs
                      [header; repeat_char "-" (String.length header)] with
              | (out, Ok _) => (out ++ [count_line (List.length rs)], Ok tt)
              | (out, Raise e) => (out, Raise e)
              end
          end
      end
  end.

End Printing.

(** * Properties *)

Unset Implicit Arguments.

(** ** Strings: tokens separated by single spaces *)

Section Tokens.

Local Open Scope string_scope.

Lemma not_space_blank (c : ascii) : not_space c = true -> Ascii.eqb " " c = false.
Proof.
  intros H. destruct (Ascii.eqb_spec " " c) as [<- | _]; [discriminate H | reflexivity].
Qed.

Lemma startswith_refl (s rest : string) : startswith (s ++ rest) s = true.
Proof.
  induction s as [| c s IH]; simpl; [reflexivity |].
  now rewrite Ascii.eqb_refl, IH.
Qed.

(** A string without blanks cannot begin with a pattern that has one. *)
Lemma startswith_needs_blank (s p : string) :
  all_chars not_space s = true -> all_chars not_space p = false -> startswith s p = false.
Proof.
  revert s. induction p as [| a p IH]; intros s Hs Hp; simpl in *; [discriminate |].
  destruct s as [| b s]; [reflexivity |].
  simpl in Hs. apply andb_true_iff in Hs as [Hb Hs].
  destruct (Ascii.eqb_spec a b) as [-> | _]; simpl; [| reflexivity].
  rewrite Hb in Hp. simpl in Hp. now apply IH.
Qed.

Lemma contains_blank_free (sep s : string) :
  all_chars not_space s = true -> all_chars not_space sep = false -> contains sep s = false.
Proof.
  intros Hs Hsep. induction s as [| c s IH].
  - simpl. rewrite (startswith_needs_blank "" sep); auto.
  - simpl. rewrite (startswith_needs_blank (String c s) sep Hs Hsep). simpl.
    simpl in Hs. apply andb_true_iff in Hs as [_ Hs]. auto.
Qed.

(** Skipping a blank-free prefix when the separator begins with a space. *)
Lemma contains_skip_word (body w rest : string) :
  all_chars not_space w = true ->
  contains (String " " body) (w ++ rest) = contains (String " " body) rest.
Proof.
  intros Hw. induction w as [| c w IH]; [reflexivity |].
  simpl in Hw. apply andb_true_iff in Hw as [Hc Hw].
  change (contains (String " " body) (String c w ++ rest))
    with ((startswith (String c (w ++ rest)) (String " " body)
           || contains (String " " body) (w ++ rest))%bool).
  cbn [startswith]. rewrite (not_space_blank _ Hc). simpl. auto.
Qed.

(** Two blank-free tokens, each followed by a space, begin alike exactly
    when they are the same token. *)
Lemma startswith_token (w1 w2 rest : string) :
  all_chars not_space w1 = true -> all_chars not_space w2 = true ->
  startswith (w2 ++ String " " rest) (w1 ++ " ") = String.eqb w1 w2.
Proof.
  revert w2. induction w1 as [| a w1 IH]; intros w2 H1 H2.
  - destruct w2 as [| b w2]; cbn [startswith append String.eqb].
    + reflexivity.
    + cbn [all_chars] in H2. apply andb_true_iff in H2 as [Hb _].
      now rewrite (not_space_blank _ Hb).
  - cbn [all_chars] in H1. apply andb_true_iff in H1 as [Ha H1].
    destruct w2 as [| b w2]; cbn [startswith append String.eqb].
    + rewrite Ascii.eqb_sym. now rewrite (not_space_blank _ Ha).
    + cbn [all_chars] in H2. apply andb_true_iff in H2 as [_ H2].
      rewrite (IH w2 H1 H2). reflexivity.
Qed.

Lemma all_chars_app (p : ascii -> bool) (s t : string) :
  all_chars p (s ++ t) = (all_chars p s && all_chars p t)%bool.
Proof.
  induction s as [| c s IH]; simpl; [reflexivity |].
  now rewrite IH, andb_assoc.
Qed.

Lemma spaced_app (w rest : string) :
  spaced w ++ rest = String " " (w ++ String " " rest).
Proof.
  unfold spaced. cbn [append]. f_equal.
  induction w as [| c w IH]; cbn [append]; [reflexivity | now rewrite IH].
Qed.

Lemma spaced_head (w : string) : spaced w = String " " (w ++ " ").
Proof. reflexivity. Qed.

(** In [col op lit] the only spaced token is the operator. *)
Lemma contains_spaced (w1 w2 col lit : string) :
  all_chars not_space w1 = true -> all_chars not_space w2 = true ->
  all_chars not_space col = true -> all_chars not_space lit = true ->
  contains (spaced w1) (col ++ spaced w2 ++ lit) = String.eqb w1 w2.
Proof.
  intros H1 H2 Hc Hl. rewrite spaced_app, spaced_head.
  rewrite (contains_skip_word _ col _ Hc).
  change (contains (String " " (w1 ++ " ")) (String " " (w2 ++ String " " lit)))
    with ((startswith (String " " (w2 ++ String " " lit)) (String " " (w1 ++ " "))
           || contains (String " " (w1 ++ " ")) (w2 ++ String " " lit))%bool).
  cbn [startswith]. rewrite Ascii.eqb_refl. cbn [andb].
  rewrite (startswith_token w1 w2 lit H1 H2).
  rewrite (contains_skip_word _ w2 _ H2).
  change (contains (String " " (w1 ++ " ")) (String " " lit))
    with ((startswith (String " " lit) (String " " (w1 ++ " "))
           || contains (String " " (w1 ++ " ")) lit)%bool).
  cbn [startswith]. rewrite Ascii.eqb_refl. cbn [andb].
  assert (Hsep : all_chars not_space (w1 ++ " ") = false).
  { rewrite all_chars_app, H1. reflexivity. }
  rewrite (startswith_needs_blank _ _ Hl Hsep).
  rewrite (contains_blank_free (String " " (w1 ++ " ")) lit Hl) by reflexivity.
  now rewrite !orb_false_r.
Qed.

Lemma append_empty_r (s : string) : s ++ "" = s.
Proof. induction s as [| c s IH]; cbn [append]; [reflexivity | now rewrite IH]. Qed.

Lemma append_assoc (a b c : string) : (a ++ b) ++ c = a ++ (b ++ c).
Proof. induction a as [| x a IH]; cbn [append]; [reflexivity | now rewrite IH]. Qed.

Lemma split_go_skip (sep x y : string) :
  split_go sep (String.length x) (x ++ y) = split_go sep 0 y.
Proof.
  induction x as [| c x IH]; [reflexivity |].
  cbn [String.length append split_go]. exact IH.
Qed.

(** Without an occurrence of the separator the string is the one piece. *)
Lemma split_none (sep s : string) : contains sep s = false -> split sep s = [s].
Proof.
  unfold split. induction s as [| c s IH]; intros H; [reflexivity |].
  cbn [contains] in H. apply orb_false_iff in H as [Hs Hc].
  cbn [split_go]. rewrite Hs, (IH Hc). reflexivity.
Qed.

Lemma split_skip_word (body w rest : string) :
  all_chars not_space w = true ->
  split_go (String " " body) 0 (w ++ rest) =
  match split_go (String " " body) 0 rest with
  | piece :: more => (w ++ piece) :: more
  | [] => [w]
  end.
Proof.
  intros Hw. induction w as [| c w IH].
  - cbn [append]. destruct (split_go (String " " body) 0 rest) as [| piece more] eqn:E;
      [| reflexivity].
    destruct rest as [| a rest]; cbn [split_go] in E; [discriminate |].
    destruct (startswith (String a rest) (String " " body)); [discriminate |].
    destruct (split_go (String " " body) 0 rest); discriminate.
  - cbn [all_chars] in Hw. apply andb_true_iff in Hw as [Hc Hw].
    cbn [append split_go startswith]. rewrite (not_space_blank _ Hc). cbn [andb].
    rewrite (IH Hw). destruct (split_go (String " " body) 0 rest); reflexivity.
Qed.

(** [col op lit] splits at its operator into the column and the literal. *)
Lemma split_spaced (w col lit : string) :
  all_chars not_space w = true ->
  all_chars not_space col = true -> all_chars not_space lit = true ->
  split (spaced w) (col ++ spaced w ++ lit) = [col; lit].
Proof.
  intros Hw Hc Hl. unfold split. rewrite spaced_app, spaced_head.
  rewrite (split_skip_word _ col _ Hc).
  cbn [split_go startswith]. rewrite Ascii.eqb_refl. cbn [andb].
  rewrite (startswith_token w w lit Hw Hw), String.eqb_refl.
  cbn [String.length Nat.pred].
  replace (w ++ String " " lit) with ((w ++ " ") ++ lit)
    by (rewrite append_assoc; reflexivity).
  rewrite split_go_skip.
  assert (Hn : contains (String " " (w ++ " ")) lit = false)
    by (apply contains_blank_free; [exact Hl | reflexivity]).
  apply split_none in Hn. unfold split in Hn. rewrite Hn.
  now rewrite append_empty_r.
Qed.

Lemma rstrip_blank_free (s : string) :
  all_chars not_space s = true -> rstrip_by is_space s = s.
Proof.
  induction s as [| c s IH]; intros H; [reflexivity |].
  cbn [all_chars] in H. apply andb_true_iff in H as [Hc Hs].
  cbn [rstrip_by]. rewrite (IH Hs).
  unfold not_space in Hc. apply negb_true_iff in Hc. rewrite Hc.
  destruct s; reflexivity.
Qed.

Lemma rstrip_app (p : ascii -> bool) (a b : string) :
  rstrip_by p b <> "" -> rstrip_by p (a ++ b) = a ++ rstrip_by p b.
Proof.
  intros Hb. induction a as [| c a IH]; [reflexivity |].
  cbn [append rstrip_by]. rewrite IH.
  destruct (a ++ rstrip_by p b) as [| x y] eqn:E; [| reflexivity].
  destruct a; cbn [append] in E; [contradiction | discriminate].
Qed.

Lemma is_word_spec (s : string) :
  is_word s = true -> s <> "" /\ all_chars not_space s = true.
Proof.
  unfold is_word. intros H. apply andb_true_iff in H as [Ht Ha].
  split; [| exact Ha]. intros ->. discriminate.
Qed.

Lemma strip_word (s : string) : is_word s = true -> strip s = s.
Proof.
  intros H. apply is_word_spec in H as [Hne Ha].
  unfold strip, strip_by. destruct s as [| c s]; [contradiction |].
  pose proof Ha as Ha'. cbn [all_chars] in Ha'. apply andb_true_iff in Ha' as [Hc _].
  unfold not_space in Hc. apply negb_true_iff in Hc.
  cbn [lstrip_by]. rewrite Hc. now apply rstrip_blank_free.
Qed.

(** Stripping leaves [col op lit] as it is. *)
Lemma strip_condition (w col lit : string) :
  is_word col = true -> is_word lit = true ->
  strip (col ++ spaced w ++ lit) = col ++ spaced w ++ lit.
Proof.
  intros Hc Hl. apply is_word_spec in Hc as [Hcne Hca]. apply is_word_spec in Hl as [Hlne Hla].
  unfold strip, strip_by. destruct col as [| c col]; [contradiction |].
  cbn [all_chars] in Hca. apply andb_true_iff in Hca as [Hc _].
  unfold not_space in Hc. apply negb_true_iff in Hc.
  cbn [append lstrip_by]. rewrite Hc.
  change (String c (col ++ spaced w ++ lit)) with (String c col ++ spaced w ++ lit).
  rewrite <- append_assoc. rewrite rstrip_app; rewrite (rstrip_blank_free lit Hla); auto.
Qed.

End Tokens.

(** ** The condition evaluator on [col op literal] *)

Section ConditionProps.

Context {F : Type} {PF : PyFloat F}.

Local Open Scope string_scope.

Lemma op_text_word (op : cmp_op) : all_chars not_space (op_text op) = true.
Proof. destruct op; reflexivity. Qed.

(** The operator loop stops at the operator the condition is written with. *)
Lemma evaluate_ops_word (r : row F) (col lit : string) (op : cmp_op) :
  all_chars not_space col = true -> all_chars not_space lit = true ->
  evaluate_ops r (col ++ spaced (op_text op) ++ lit) comparison_ops =
  evaluate_comparison r (col ++ spaced (op_text op) ++ lit) op.
Proof.
  intros Hc Hl. unfold comparison_ops. cbn [evaluate_ops].
  rewrite !(fun w => contains_spaced (op_text w) (op_text op) col lit
                       (op_text_word w) (op_text_word op) Hc Hl).
  destruct op; reflexivity.
Qed.

(** Reading a condition written as column, operator, literal. *)
Lemma evaluate_condition_word (r : row F) (col lit : string) (op : cmp_op) :
  is_word col = true -> is_word lit = true ->
  _evaluate_condition r (col ++ spaced (op_text op) ++ lit) =
  match dict_get r col with
  | None => Raise (UnknownColumnError col)
  | Some v => apply_op op v (parse_literal v (strip_quotes lit))
  end.
Proof.
  intros Hc Hl. unfold _evaluate_condition.
  rewrite (strip_condition (op_text op) col lit Hc Hl).
  destruct (is_word_spec col Hc) as [_ Hca]. destruct (is_word_spec lit Hl) as [_ Hla].
  change (contains " LIKE ") with (contains (spaced "LIKE")).
  rewrite (contains_spaced "LIKE" (op_text op) col lit eq_refl (op_text_word op) Hca Hla).
  replace (String.eqb "LIKE" (op_text op)) with false by (destruct op; reflexivity).
  rewrite (evaluate_ops_word r col lit op Hca Hla).
  unfold evaluate_comparison.
  rewrite (split_spaced (op_text op) col lit (op_text_word op) Hca Hla).
  rewrite (strip_word col Hc), (strip_word lit Hl). reflexivity.
Qed.

(** *** Errors of the WHERE clause reach the caller *)

Lemma filter_rows_raises (keep : bool) (w : string) (pre post : list (row F))
    (r : row F) (e : exn) :
  (forall r', In r' pre -> exists b, _evaluate_where r' w = Ok b) ->
  _evaluate_where r w = Raise e ->
  filter_rows keep w (pre ++ r :: post)%list = Raise e.
Proof.
  intros Hpre Hr. induction pre as [| r0 pre IH]; cbn [app filter_rows].
  - rewrite Hr. reflexivity.
  - destruct (Hpre r0 (or_introl eq_refl)) as [b Hb]. rewrite Hb. cbn [bind].
    rewrite IH; [reflexivity |]. intros r' Hin. apply Hpre. now right.
Qed.

Lemma update_rows_raises (values : dict (value F)) (w : string) (pre post : list (row F))
    (r : row F) (e : exn) (n : Z) :
  (forall r', In r' pre -> exists b, _evaluate_where r' w = Ok b) ->
  _evaluate_where r w = Raise e ->
  fst (update_rows values (Some w) n (pre ++ r :: post)%list) = Raise e.
Proof.
  intros Hpre Hr. revert n. induction pre as [| r0 pre IH]; intros n; cbn [app update_rows].
  - rewrite Hr. reflexivity.
  - destruct (Hpre r0 (or_introl eq_refl)) as [b Hb]. rewrite Hb.
    assert (Hpre' : forall r', In r' pre -> exists b, _evaluate_where r' w = Ok b)
      by (intros r' Hin; apply Hpre; now right).
    destruct b.
    + specialize (IH Hpre' (n + 1)%Z).
      destruct (update_rows values (Some w) (n + 1) (pre ++ r :: post)%list). exact IH.
    + specialize (IH Hpre' n).
      destruct (update_rows values (Some w) n (pre ++ r :: post)%list). exact IH.
Qed.

Lemma evaluate_all_reaches (r : row F) (before after : list string)
    (condition : string) (e : exn) :
  (forall a, In a before -> _evaluate_condition r (strip a) = Ok true) ->
  _evaluate_condition r (strip condition) = Raise e ->
  evaluate_all r (map strip (before ++ condition :: after)%list) = Raise e.
Proof.
  intros Hbefore Hcond. induction before as [| a before IH]; cbn [app map evaluate_all].
  - rewrite Hcond. reflexivity.
  - rewrite (Hbefore a (or_introl eq_refl)). cbn [bind negb].
    apply IH. intros a' Ha'. apply Hbefore. now right.
Qed.

(** C10. In a row whose value for the referenced column is null, an
    ordering comparison ([>], [<], [>=], [<=]) written as column, operator,
    literal does not evaluate to a boolean: it raises [TypeError], which is
    none of the engine's own error kinds. So does every WHERE clause that
    gets to this comparison on the row, its earlier conjuncts being true
    there; and on a table holding the row after rows on which the clause
    evaluates, [select], [delete] and [update] with that clause raise
    [TypeError]. *)
Theorem null_ordering_comparison_raises
    (r : row F) (col lit : string) (op : cmp_op) :
  is_word col = true -> is_word lit = true -> is_ordering op = true ->
  dict_get r col = Some VNone ->
  let condition := col ++ spaced (op_text op) ++ lit in
  _evaluate_condition r condition = Raise TypeError
  /\ (forall m, TypeError <> ValueError m)
  /\ forall (w : string) (before after : list string),
       split " AND " w = (before ++ condition :: after)%list ->
       (forall a, In a before -> _evaluate_condition r (strip a) = Ok true) ->
       _evaluate_where r w = Raise TypeError
       /\ forall (t : Table F) (pre post : list (row F)),
            rows t = (pre ++ r :: post)%list ->
            (forall r', In r' pre -> exists b, _evaluate_where r' w = Ok b) ->
            (forall cols,
                check_columns t
                  (match cols with None => map name (columns t) | Some cs => cs end)
                  = Ok tt ->
                select t cols (Some w) = Raise TypeError)
            /\ delete t (Some w) = (Raise TypeError, t)
            /\ (forall values, validate_update t values = Ok tt ->
                  fst (update t values (Some w)) = Raise TypeError).
Proof.
  intros Hc Hl Hop Hnull condition.
  assert (Hcond : _evaluate_condition r condition = Raise TypeError).
  { unfold condition. rewrite (evaluate_condition_word r col lit op Hc Hl), Hnull.
    destruct op; try discriminate Hop; reflexivity. }
  split; [exact Hcond |]. split; [discriminate |].
  intros w before after Hsplit Hbefore.
  assert (Hwhere : _evaluate_where r w = Raise TypeError).
  { unfold _evaluate_where. rewrite Hsplit. apply evaluate_all_reaches; [exact Hbefore |].
    unfold condition. rewrite (strip_condition (op_text op) col lit Hc Hl). exact Hcond. }
  assert (Htruthy : truthy w = true).
  { destruct w; [| reflexivity]. exfalso. cbn in Hsplit.
    apply is_word_spec in Hc as [Hne _].
    destruct before as [| a [| a' before]]; cbn [app] in Hsplit.
    - injection Hsplit as Hsplit _. unfold condition in Hsplit.
      destruct col; [now apply Hne | discriminate Hsplit].
    - discriminate Hsplit.
    - discriminate Hsplit. }
  split; [exact Hwhere |].
  intros t pre post Hrows Hpre. split; [| split].
  - intros cols Hcols. unfold select. rewrite Hcols. cbn [bind]. rewrite Htruthy.
    rewrite Hrows, (filter_rows_raises true w pre post r TypeError Hpre Hwhere).
    reflexivity.
  - unfold delete.
    rewrite Hrows, (filter_rows_raises false w pre post r TypeError Hpre Hwhere).
    reflexivity.
  - intros values Hval. unfold update. rewrite Hval.
    pose proof (update_rows_raises values w pre post r TypeError 0 Hpre Hwhere) as H.
    rewrite Hrows. destruct (update_rows values (Some w) 0 (pre ++ r :: post)%list).
    exact H.
Qed.

End ConditionProps.

(** ** Comparisons *)

Section ComparisonProps.

Context {F : Type} {PF : PyFloat F}.

Local Open Scope string_scope.

Lemma Z_eqb_holds (m n : Z) : Z.eqb m n = holds OpEq (Some (Z.compare m n)).
Proof.
  cbn [holds]. destruct (Z.compare_spec m n) as [-> | H | H].
  - apply Z.eqb_refl.
  - apply Z.eqb_neq. lia.
  - apply Z.eqb_neq. lia.
Qed.

Lemma string_eqb_holds (s t : string) :
  String.eqb s t = holds OpEq (Some (String.compare s t)).
Proof.
  cbn [holds]. destruct (String.eqb_spec s t) as [-> | Hne].
  - pose proof (String.compare_antisym t t) as H.
    destruct (String.compare t t); cbn in H; try discriminate H; reflexivity.
  - destruct (String.compare s t) eqn:E; try reflexivity.
    apply String.compare_eq_iff in E. contradiction.
Qed.

Lemma holds_ne (c : option comparison) : holds OpNe c = negb (holds OpEq c).
Proof. destruct c as [[| |] |]; reflexivity. Qed.

(** Applying an operator once both operands are ordered against each other. *)
Lemma apply_op_ordered (op : cmp_op) (a b : value F) (c : option comparison) :
  py_order a b = Ok c -> py_eq a b = holds OpEq c ->
  apply_op op a b = Ok (holds op c).
Proof.
  intros Ho He. destruct op; cbn [apply_op]; unfold py_ge, py_le, py_gt, py_lt;
    rewrite ?Ho, ?He, ?holds_ne; cbn [bind]; try reflexivity;
    destruct c as [[| |] |]; reflexivity.
Qed.

Lemma int_value_instance (v : value F) (m : Z) :
  int_value v = Some m -> isinstance_int v = true.
Proof. unfold isinstance_int. now intros ->. Qed.

(** The operator loop stops at the first operator of its list that stands
    in the condition between two spaces. *)
Lemma evaluate_ops_first (r : row F) (c : string) (earlier later : list cmp_op)
    (op : cmp_op) :
  Forall (fun o => contains (spaced (op_text o)) c = false) earlier ->
  contains (spaced (op_text op)) c = true ->
  evaluate_ops r c (earlier ++ op :: later)%list = evaluate_comparison r c op.
Proof.
  intros Hearlier Hop. induction Hearlier as [| o earlier Ho _ IH]; cbn [app evaluate_ops].
  - now rewrite Hop.
  - now rewrite Ho.
Qed.

Lemma fallback_literal (v : value F) (literal : string) :
  v = VNone
  \/ (isinstance_int v = true /\ int_of_str literal = None)
  \/ (isinstance_float v = true /\ float_of_str literal = None) ->
  parse_literal v literal = VStr literal
  /\ py_eq v (VStr literal) = false
  /\ py_order v (VStr literal) = Raise TypeError.
Proof.
  intros [-> | [[Hi Hn] | [Hf Hn]]].
  - repeat split; reflexivity.
  - unfold parse_literal. rewrite Hi, Hn.
    destruct v; try discriminate Hi; repeat split; reflexivity.
  - destruct v; try discriminate Hf. unfold parse_literal.
    cbn [isinstance_int int_value isinstance_float]. rewrite Hn.
    repeat split; reflexivity.
Qed.

(** C4, as the engine has it. In a condition without [LIKE], the operators
    are looked for in the order [>=], [<=], [<>], [=], [>], [<], each between
    two spaces, and the first one found is the one the condition is split
    at, whatever stands on its two sides: a later operator of the list that
    also occurs is part of the column or of the literal. When the split does
    not give two parts the condition is invalid; when the row lacks the
    column, the column is unknown. Otherwise: when the row's value is an
    integer the literal is read as an integer and the two are compared as
    numbers; when it is a float the literal is read as a float and compared
    so; when it is text the literal stays text and the order is the
    lexicographic one. When the literal cannot be read as the row's kind of
    number, or the row's value is null, the literal stays text and is
    compared with the row's value as it is stored, not with its text: [=] is
    false, [<>] is true and an ordering raises [TypeError]. *)
Theorem comparison_by_row_kind
    (r : row F) (condition : string) (earlier later : list cmp_op) (op : cmp_op) :
  let c := strip condition in
  let outcome := _evaluate_condition r condition in
  contains " LIKE " c = false ->
  [OpGe; OpLe; OpNe; OpEq; OpGt; OpLt] = (earlier ++ op :: later)%list ->
  Forall (fun o => contains (spaced (op_text o)) c = false) earlier ->
  contains (spaced (op_text op)) c = true ->
  (forall parts, split (spaced (op_text op)) c = parts -> List.length parts <> 2%nat ->
     outcome = Raise (ValueError (InvalidCondition c)))
  /\ forall lhs rhs, split (spaced (op_text op)) c = [lhs; rhs] ->
       let col := strip lhs in
       let literal := strip_quotes (strip rhs) in
       (dict_get r col = None -> outcome = Raise (UnknownColumnError col))
       /\ forall v, dict_get r col = Some v ->
            (forall m n, int_value v = Some m -> int_of_str literal = Some n ->
               outcome = Ok (holds op (Some (Z.compare m n))))
            /\ (forall x y, v = VFloat x -> float_of_str literal = Some y ->
                  outcome = Ok (holds op (float_compare x y)))
            /\ (forall s, v = VStr s ->
                  outcome = Ok (holds op (Some (String.compare s literal))))
            /\ (v = VNone
                \/ (isinstance_int v = true /\ int_of_str literal = None)
                \/ (isinstance_float v = true /\ float_of_str literal = None) ->
                (op = OpEq -> outcome = Ok false)
                /\ (op = OpNe -> outcome = Ok true)
                /\ (is_ordering op = true -> outcome = Raise TypeError)).
Proof.
  intros c outcome Hlike Hlist Hearlier Hop.
  assert (Hout : outcome = evaluate_comparison r c op).
  { unfold outcome, _evaluate_condition. fold c. rewrite Hlike.
    unfold comparison_ops. rewrite Hlist. now apply evaluate_ops_first. }
  split.
  - intros parts Hparts Hlen. rewrite Hout. unfold evaluate_comparison. rewrite Hparts.
    destruct parts as [| p1 [| p2 [| p3 parts]]]; try reflexivity.
    now contradiction Hlen.
  - intros lhs rhs Hsplit col literal.
    assert (Hcmp : evaluate_comparison r c op
                   = match dict_get r col with
                     | None => Raise (UnknownColumnError col)
                     | Some v => apply_op op v (parse_literal v literal)
                     end).
    { unfold evaluate_comparison. now rewrite Hsplit. }
    rewrite Hcmp in Hout. split; [intros Hnone; now rewrite Hout, Hnone |].
    intros v Hv. rewrite Hv in Hout.
    split; [| split; [| split]].
    + intros m n Hm Hn. rewrite Hout. unfold parse_literal.
      rewrite (int_value_instance v m Hm), Hn.
      apply apply_op_ordered.
      * destruct v; try discriminate Hm; cbn in Hm |- *; injection Hm as <-; reflexivity.
      * rewrite <- Z_eqb_holds.
        destruct v; try discriminate Hm; cbn in Hm |- *; injection Hm as <-; reflexivity.
    + intros x y -> Hy. rewrite Hout. unfold parse_literal. cbn [isinstance_int int_value
        isinstance_float]. rewrite Hy.
      apply apply_op_ordered; [reflexivity |].
      cbn [py_eq]. destruct (float_compare x y) as [[| |] |]; reflexivity.
    + intros s ->. rewrite Hout. unfold parse_literal. cbn [isinstance_int int_value
        isinstance_float].
      apply apply_op_ordered; [reflexivity |]. cbn [py_eq]. apply string_eqb_holds.
    + intros Hcase. rewrite Hout.
      destruct (fallback_literal v literal Hcase) as [-> [Hne Hord]].
      split; [| split].
      * intros ->. cbn [apply_op]. now rewrite Hne.
      * intros ->. cbn [apply_op]. now rewrite Hne.
      * intros Hordering.
        destruct op; try discriminate Hordering; cbn [apply_op];
          unfold py_ge, py_le, py_gt, py_lt; now rewrite Hord.
Qed.

End ComparisonProps.

(** A row whose age is the integer 5, asked whether [age < abc]: read as
    the claim has it, both sides are text and the test is true; the engine
    raises [TypeError]. A row whose age is null, asked whether [age = None]:
    as text against text the test is true; the engine answers false. *)
Lemma comparison_not_as_raw_text :
  _evaluate_condition (F:=Empty_set) [("age", VInt 5)] "age < abc" = Raise TypeError
  /\ spec_compare (F:=Empty_set) OpLt (VInt 5) "abc" = true
  /\ _evaluate_condition (F:=Empty_set) [("age", VNone)] "age = None" = Ok false
  /\ spec_compare (F:=Empty_set) OpEq VNone "None" = true.
Proof. repeat split; vm_compute; reflexivity. Qed.

(** In [a = b > c] two operators stand between spaces; [=] comes first in
    the order and the rest is its literal. The other two are conditions with
    one operator. *)
Lemma comparison_by_row_kind_witness :
  _evaluate_condition (F:=Empty_set) [("a", VStr "b > c")] "a = b > c" = Ok true
  /\ _evaluate_condition (F:=Empty_set) [("age", VInt 20)] " age >= '18' " = Ok true
  /\ _evaluate_condition (F:=Empty_set) [("age", VInt 5)] "age = abc" = Ok false
  /\ _evaluate_condition (F:=Empty_set) [("age", VInt 5)] "age < abc" = Raise TypeError.
Proof.
  split; [| split; [| split]].
  - refine (proj1 (proj2 (proj2 (proj2 (proj2
             (comparison_by_row_kind (F:=Empty_set) [("a", VStr "b > c")] "a = b > c"
                [OpGe; OpLe; OpNe] [OpGt; OpLt] OpEq eq_refl eq_refl _ eq_refl)
             "a" "b > c" eq_refl) (VStr "b > c") eq_refl))) "b > c" eq_refl).
    repeat constructor.
  - refine (proj1 (proj2 (proj2
             (comparison_by_row_kind (F:=Empty_set) [("age", VInt 20)] " age >= '18' "
                [] [OpLe; OpNe; OpEq; OpGt; OpLt] OpGe eq_refl eq_refl _ eq_refl)
             "age" "'18'" eq_refl) (VInt 20) eq_refl) 20 18 eq_refl eq_refl).
    constructor.
  - refine (proj1 (proj2 (proj2 (proj2 (proj2 (proj2
             (comparison_by_row_kind (F:=Empty_set) [("age", VInt 5)] "age = abc"
                [OpGe; OpLe; OpNe] [OpGt; OpLt] OpEq eq_refl eq_refl _ eq_refl)
             "age" "abc" eq_refl) (VInt 5) eq_refl)))
             (or_intror (or_introl (conj eq_refl eq_refl)))) eq_refl).
    repeat constructor.
  - refine (proj2 (proj2 (proj2 (proj2 (proj2 (proj2 (proj2
             (comparison_by_row_kind (F:=Empty_set) [("age", VInt 5)] "age < abc"
                [OpGe; OpLe; OpNe; OpEq; OpGt] [] OpLt eq_refl eq_refl _ eq_refl)
             "age" "abc" eq_refl) (VInt 5) eq_refl)))
             (or_intror (or_introl (conj eq_refl eq_refl))))) eq_refl).
    repeat constructor.
Defined.

(** ** Dictionaries *)

Section DictProps.

Variable V : Type.

Implicit Types (d : dict V) (k : string) (v : V).

Lemma existsb_eqb_In (k : string) (l : list string) :
  existsb (String.eqb k) l = true <-> In k l.
Proof.
  rewrite existsb_exists. split.
  - intros [x [Hin Heq]]. apply String.eqb_eq in Heq. now subst.
  - intros Hin. exists k. split; [exact Hin | apply String.eqb_refl].
Qed.

Lemma existsb_eqb_not_In (k : string) (l : list string) :
  existsb (String.eqb k) l = false <-> ~ In k l.
Proof.
  rewrite <- existsb_eqb_In. destruct (existsb (String.eqb k) l); split; congruence.
Qed.

Lemma dict_get_set_same d k v : dict_get (dict_set d k v) k = Some v.
Proof.
  induction d as [| [k' v'] d IH]; cbn [dict_set dict_get].
  - now rewrite String.eqb_refl.
  - destruct (String.eqb k' k) eqn:E; cbn [dict_get]; rewrite E; [reflexivity | exact IH].
Qed.

Lemma dict_get_set_other d k k' v :
  k <> k' -> dict_get (dict_set d k v) k' = dict_get d k'.
Proof.
  intros Hne. induction d as [| [k0 v0] d IH]; cbn [dict_set dict_get].
  - apply String.eqb_neq in Hne. now rewrite Hne.
  - destruct (String.eqb k0 k) eqn:E; cbn [dict_get].
    + apply String.eqb_eq in E. subst k0.
      apply String.eqb_neq in Hne. now rewrite Hne.
    + now rewrite IH.
Qed.

Lemma dict_keys_set d k v : dict_keys (dict_set d k v) = keys_step (dict_keys d) k.
Proof.
  unfold keys_step. induction d as [| [k0 v0] d IH]; [reflexivity |].
  cbn [dict_set dict_keys map fst existsb]. rewrite (String.eqb_sym k k0).
  destruct (String.eqb k0 k); cbn [orb map fst]; [reflexivity |].
  fold (dict_keys d). fold (dict_keys (dict_set d k v)). rewrite IH.
  destruct (existsb (String.eqb k) (dict_keys d)); reflexivity.
Qed.

Lemma dict_get_none d k : dict_get d k = None <-> ~ In k (dict_keys d).
Proof.
  induction d as [| [k0 v0] d IH]; cbn [dict_get dict_keys map fst In].
  - tauto.
  - fold (dict_keys d). destruct (String.eqb_spec k0 k) as [-> | Hne].
    + split; [discriminate | tauto].
    + rewrite IH. tauto.
Qed.

Lemma dict_mem_In d k : dict_mem d k = true <-> In k (dict_keys d).
Proof.
  unfold dict_mem. pose proof (dict_get_none d k) as H.
  destruct (dict_get d k).
  - split; [| reflexivity]. intros _.
    destruct (in_dec string_dec k (dict_keys d)) as [Hin | Hnin]; [exact Hin |].
    apply H in Hnin. discriminate.
  - split; [discriminate |]. intros Hin. exfalso. now apply (proj1 H eq_refl).
Qed.

Lemma dict_get_In d k v : dict_get d k = Some v -> In (k, v) d.
Proof.
  induction d as [| [k0 v0] d IH]; cbn [dict_get]; [discriminate |].
  destruct (String.eqb_spec k0 k) as [-> | _].
  - intros [= ->]. now left.
  - intros H. right. now apply IH.
Qed.

Lemma fold_keys_In (ks acc : list string) (k : string) :
  In k (fold_left keys_step ks acc) <-> In k acc \/ In k ks.
Proof.
  revert acc. induction ks as [| k0 ks IH]; intros acc; cbn [fold_left In].
  - tauto.
  - rewrite IH. unfold keys_step.
    destruct (existsb (String.eqb k0) acc) eqn:E.
    + apply existsb_eqb_In in E. split; [tauto |]. intros [H | [<- | H]]; tauto.
    + rewrite in_app_iff. cbn [In]. tauto.
Qed.

Lemma fold_keys_NoDup (ks acc : list string) :
  NoDup acc -> NoDup (fold_left keys_step ks acc).
Proof.
  revert acc. induction ks as [| k0 ks IH]; intros acc Hacc; cbn [fold_left]; [exact Hacc |].
  apply IH. unfold keys_step. destruct (existsb (String.eqb k0) acc) eqn:E; [exact Hacc |].
  apply existsb_eqb_not_In in E. apply NoDup_app; repeat split; try exact Hacc.
  - constructor; [intros [] | constructor].
  - intros x Hx [<- | []]. contradiction.
Qed.

Lemma fold_keys_distinct (ks acc : list string) :
  NoDup (acc ++ ks) -> fold_left keys_step ks acc = acc ++ ks.
Proof.
  revert acc. induction ks as [| k0 ks IH]; intros acc Hnd; cbn [fold_left].
  - now rewrite app_nil_r.
  - unfold keys_step.
    assert (Hfresh : ~ In k0 acc).
    { intros Hin. apply NoDup_remove_2 in Hnd. apply Hnd. apply in_or_app. now left. }
    apply existsb_eqb_not_In in Hfresh. rewrite Hfresh.
    rewrite IH; rewrite <- app_assoc; [reflexivity | exact Hnd].
Qed.

Lemma keys_in_order_In (ks : list string) (k : string) :
  In k (keys_in_order ks) <-> In k ks.
Proof.
  unfold keys_in_order. rewrite fold_keys_In. cbn [In]. tauto.
Qed.

Lemma keys_in_order_NoDup (ks : list string) : NoDup (keys_in_order ks).
Proof. apply (fold_keys_NoDup ks []). constructor. Qed.

(** Distinct names keep their places. *)
Lemma keys_in_order_distinct (ks : list string) : NoDup ks -> keys_in_order ks = ks.
Proof. intros H. apply (fold_keys_distinct ks [] H). Qed.

(** Filling a dict from a list, one key per element. *)
Lemma dict_keys_fold (X : Type) (f : dict V -> X -> dict V) (key : X -> string)
    (xs : list X) d :
  (forall d x, dict_keys (f d x) = keys_step (dict_keys d) (key x)) ->
  dict_keys (fold_left f xs d) = fold_left keys_step (map key xs) (dict_keys d).
Proof.
  intros Hf. revert d. induction xs as [| x xs IH]; intros d; cbn [fold_left map];
    [reflexivity |].
  now rewrite IH, Hf.
Qed.

(** Two dicts with the same keys in the same order and the same bindings. *)
Lemma dict_ext d1 d2 :
  dict_keys d1 = dict_keys d2 -> NoDup (dict_keys d1) ->
  (forall k, dict_get d1 k = dict_get d2 k) -> d1 = d2.
Proof.
  revert d2. induction d1 as [| [k1 v1] d1 IH]; intros [| [k2 v2] d2] Hk Hnd Hget;
    try discriminate Hk; [reflexivity |].
  cbn [dict_keys map fst] in Hk, Hnd. injection Hk as <- Hk.
  fold (dict_keys d1) in Hnd, Hk. fold (dict_keys d2) in Hk.
  inversion Hnd as [| ? ? Hfresh Hnd']; subst.
  pose proof (Hget k1) as H1. cbn [dict_get] in H1. rewrite String.eqb_refl in H1.
  injection H1 as <-. f_equal. apply IH; [exact Hk | exact Hnd' |].
  intros k. destruct (String.eqb_spec k1 k) as [<- | Hne].
  - pose proof (proj2 (dict_get_none d1 k1) Hfresh) as ->.
    rewrite Hk in Hfresh. now pose proof (proj2 (dict_get_none d2 k1) Hfresh) as ->.
  - pose proof (Hget k) as H. cbn [dict_get] in H.
    apply String.eqb_neq in Hne. now rewrite Hne in H.
Qed.

(** Merging keys a dict already has keeps its keys. *)
Lemma dict_update_keys d (other : dict V) :
  (forall k, In k (dict_keys other) -> In k (dict_keys d)) ->
  dict_keys (dict_update d other) = dict_keys d.
Proof.
  unfold dict_update. revert d. induction other as [| [k v] other IH]; intros d Hin;
    cbn [fold_left fst snd]; [reflexivity |].
  assert (Hk : dict_keys (dict_set d k v) = dict_keys d).
  { rewrite dict_keys_set. unfold keys_step.
    assert (Hex : existsb (String.eqb k) (dict_keys d) = true)
      by (apply existsb_eqb_In; apply Hin; now left).
    now rewrite Hex. }
  rewrite IH; [exact Hk |]. intros k' Hk'. rewrite Hk. apply Hin. now right.
Qed.

End DictProps.

(** ** Rows as [insert] builds them, and type validation *)

Section RowProps.

Context {F : Type} {PF : PyFloat F}.

Implicit Types (t : Table F) (values r : dict (value F)) (v : value F) (col : Column).

Lemma fold_left_pointwise (A B : Type) (f g : A -> B -> A) (l : list B) (a : A) :
  (forall a b, f a b = g a b) -> fold_left f l a = fold_left g l a.
Proof.
  intros H. revert a. induction l as [| b l IH]; intros a; cbn [fold_left]; [reflexivity |].
  now rewrite H, IH.
Qed.

Lemma materialise_cells t values :
  materialise t values =
  fold_left (fun r col => dict_set r (name col) (cell t values col)) (columns t) [].
Proof.
  unfold materialise. apply fold_left_pointwise. intros r col. unfold cell.
  destruct (is_primary_key col), (dict_get values (name col)); reflexivity.
Qed.

Lemma materialise_keys t values :
  dict_keys (materialise t values) = keys_in_order (map name (columns t)).
Proof.
  rewrite materialise_cells.
  rewrite (dict_keys_fold _ _ (fun r col => dict_set r (name col) (cell t values col)) name).
  - reflexivity.
  - intros d x. apply dict_keys_set.
Qed.

Lemma fold_cells_absent t values (cols : list Column) r (k : string) :
  ~ In k (map name cols) ->
  dict_get (fold_left (fun r col => dict_set r (name col) (cell t values col)) cols r) k
  = dict_get r k.
Proof.
  revert r. induction cols as [| c cols IH]; intros r Hk; cbn [fold_left]; [reflexivity |].
  cbn [map In] in Hk. rewrite IH by tauto. apply dict_get_set_other. tauto.
Qed.

Lemma fold_cells_get t values (cols : list Column) r col :
  NoDup (map name cols) -> In col cols ->
  dict_get (fold_left (fun r col => dict_set r (name col) (cell t values col)) cols r)
    (name col) = Some (cell t values col).
Proof.
  revert r. induction cols as [| c cols IH]; intros r Hnd Hin; [contradiction |].
  cbn [map] in Hnd. inversion Hnd as [| ? ? Hfresh Hnd']; subst.
  cbn [fold_left]. destruct Hin as [-> | Hin].
  - rewrite fold_cells_absent by exact Hfresh. apply dict_get_set_same.
  - now apply IH.
Qed.

(** A supplied value for a declared column is the one stored. *)
Lemma fold_cells_supplied t values (cols : list Column) r (k : string) v :
  dict_get values k = Some v ->
  In k (map name cols) \/ dict_get r k = Some v ->
  dict_get (fold_left (fun r col => dict_set r (name col) (cell t values col)) cols r) k
  = Some v.
Proof.
  intros Hv. revert r. induction cols as [| c cols IH]; intros r H; cbn [fold_left].
  - destruct H as [[] | H]; exact H.
  - apply IH. destruct (string_dec (name c) k) as [E | Hne].
    + right. unfold cell. rewrite E, Hv. apply dict_get_set_same.
    + destruct H as [[E | Hin] | Hr]; [contradiction | now left |].
      right. rewrite dict_get_set_other by exact Hne. exact Hr.
Qed.

Lemma materialise_supplied t values (k : string) v :
  dict_get values k = Some v -> In k (map name (columns t)) ->
  dict_get (materialise t values) k = Some v.
Proof.
  intros Hv Hk. rewrite materialise_cells. apply fold_cells_supplied; auto.
Qed.

Lemma column_map_keys (cols : list Column) :
  dict_keys (column_map_of cols) = keys_in_order (map name cols).
Proof.
  unfold column_map_of.
  rewrite (dict_keys_fold _ _ (fun m col => dict_set m (name col) col) name).
  - reflexivity.
  - intros d x. apply dict_keys_set.
Qed.

Lemma column_map_mem t (k : string) :
  dict_mem (column_map t) k = true <-> In k (map name (columns t)).
Proof.
  rewrite dict_mem_In. unfold column_map. rewrite column_map_keys.
  apply keys_in_order_In.
Qed.

Lemma column_map_some t (k : string) col :
  dict_get (column_map t) k = Some col -> In k (map name (columns t)).
Proof.
  intros H. apply column_map_mem. unfold dict_mem. now rewrite H.
Qed.

Lemma check_columns_ok t (cols : list string) :
  check_columns t cols = Ok tt <-> forall k, In k cols -> In k (map name (columns t)).
Proof.
  induction cols as [| c cols IH]; cbn [check_columns In].
  - split; [intros _ k [] | reflexivity].
  - destruct (dict_mem (column_map t) c) eqn:E; cbn [negb].
    + apply column_map_mem in E. rewrite IH. split.
      * intros H k [<- | Hk]; auto.
      * intros H k Hk. apply H. now right.
    + split; [discriminate |]. intros H.
      assert (Hc : dict_mem (column_map t) c = true) by (apply column_map_mem; auto).
      congruence.
Qed.

Lemma check_columns_raises t (cols : list string) (e : exn) :
  check_columns t cols = Raise e ->
  exists c, In c cols /\ dict_mem (column_map t) c = false /\ e = UnknownColumnError c.
Proof.
  induction cols as [| c cols IH]; cbn [check_columns]; [discriminate |].
  destruct (dict_mem (column_map t) c) eqn:E; cbn [negb].
  - intros H. destruct (IH H) as [c' [Hin Hc']]. exists c'. split; [now right | exact Hc'].
  - intros [= <-]. exists c. repeat split; auto. now left.
Qed.

(** One pair against the declared type of its column. *)
Lemma validate_item_accepts t (k : string) v col :
  dict_get (column_map t) k = Some col ->
  validate_item t k v =
  if type_accepts (data_type col) v then Ok tt
  else Raise (TypeMismatchError k (data_type col) (type_name v)).
Proof.
  intros Hcol. unfold validate_item. rewrite Hcol.
  destruct v as [| b | z | x | s], (data_type col); reflexivity.
Qed.

Lemma validate_item_undeclared t (k : string) v :
  dict_get (column_map t) k = None -> validate_item t k v = Ok tt.
Proof. intros H. unfold validate_item. rewrite H. now destruct v. Qed.

Lemma validate_types_ok t r :
  _validate_types t r = Ok tt <->
  forall k v, In (k, v) r -> validate_item t k v = Ok tt.
Proof.
  induction r as [| [k0 v0] r IH]; cbn [_validate_types In].
  - split; [intros _ k v [] | reflexivity].
  - destruct (validate_item t k0 v0) as [[] | e] eqn:E; cbn [bind].
    + rewrite IH. split.
      * intros H k v [[= <- <-] | Hin]; auto.
      * intros H k v Hin. apply H. now right.
    + split; [discriminate |]. intros H.
      specialize (H k0 v0 (or_introl eq_refl)). congruence.
Qed.

(** A failed validation names a pair that is in the row and is refused. *)
Lemma validate_types_raises t r (e : exn) :
  _validate_types t r = Raise e ->
  exists k v col, In (k, v) r /\ dict_get (column_map t) k = Some col
    /\ type_accepts (data_type col) v = false
    /\ e = TypeMismatchError k (data_type col) (type_name v).
Proof.
  induction r as [| [k0 v0] r IH]; cbn [_validate_types]; [discriminate |].
  destruct (validate_item t k0 v0) as [[] | e0] eqn:E; cbn [bind].
  - intros H. destruct (IH H) as [k [v [col [Hin Hrest]]]].
    exists k, v, col. split; [now right | exact Hrest].
  - intros [= <-]. destruct (dict_get (column_map t) k0) as [col |] eqn:Hcol.
    + rewrite (validate_item_accepts t k0 v0 col Hcol) in E.
      destruct (type_accepts (data_type col) v0) eqn:Ha; [discriminate |].
      injection E as <-. exists k0, v0, col. repeat split; auto. now left.
    + rewrite (validate_item_undeclared t k0 v0 Hcol) in E. discriminate.
Qed.

Lemma validate_types_refused t r (k : string) v col :
  In (k, v) r -> dict_get (column_map t) k = Some col ->
  type_accepts (data_type col) v = false ->
  exists e, _validate_types t r = Raise e.
Proof.
  intros Hin Hcol Hrej. destruct (_validate_types t r) as [[] | e] eqn:E; [| now exists e].
  pose proof (proj1 (validate_types_ok t r) E k v Hin) as H.
  rewrite (validate_item_accepts t k v col Hcol), Hrej in H. discriminate.
Qed.

End RowProps.

(** ** Type validation (C5) and the stored row (C6) *)

Section InsertProps.

Context {F : Type} {PF : PyFloat F}.

Implicit Types (t : Table F) (values r : dict (value F)) (v : value F) (col : Column).

Lemma validate_update_ok t values :
  validate_update t values = Ok tt <->
  check_columns t (dict_keys values) = Ok tt /\ _validate_types t values = Ok tt.
Proof.
  unfold validate_update. destruct (check_columns t (dict_keys values)) as [[] | e];
    cbn [bind].
  - intuition.
  - split; [discriminate | intros [H _]; discriminate].
Qed.

Lemma update_validated t values (w : option string) (n : Z) :
  fst (update t values w) = Ok n -> validate_update t values = Ok tt.
Proof.
  unfold update. destruct (validate_update t values) as [[] | e]; [reflexivity |].
  discriminate.
Qed.

(** C5. Type validation, over each pair of a column and a value that is not
    null, admits in an INTEGER column only whole numbers (instances of
    [int]), in a REAL column whole or fractional numbers (instances of [int]
    or [float]), in a TEXT column only strings; null is admitted whatever the
    declared type. [insert] and [update] run it over the supplied values: a
    refused pair makes the call raise [TypeMismatchError] naming a column
    whose value is refused and leaves the table as it was, and a call that
    gets past validation had every supplied pair admitted. *)
Theorem type_validation_by_declared_type t values :
  (forall k v col, dict_get (column_map t) k = Some col ->
     validate_item t k v =
     if type_accepts (data_type col) v then Ok tt
     else Raise (TypeMismatchError k (data_type col) (type_name v)))
  /\ (forall ty, type_accepts ty (@VNone F) = true)
  /\ (forall v, v <> VNone ->
        type_accepts INTEGER v = isinstance_int v
        /\ type_accepts REAL v = (isinstance_int v || isinstance_float v)%bool
        /\ type_accepts TEXT v = isinstance_str v)
  /\ (forall k v col,
        dict_get values k = Some v -> dict_get (column_map t) k = Some col ->
        type_accepts (data_type col) v = false ->
        exists k' v' col',
          In (k', v') (materialise t values)
          /\ dict_get (column_map t) k' = Some col'
          /\ type_accepts (data_type col') v' = false
          /\ insert t values =
             (Raise (TypeMismatchError k' (data_type col') (type_name v')), t))
  /\ (forall pk, fst (insert t values) = Ok pk ->
        forall k v col,
          dict_get values k = Some v -> dict_get (column_map t) k = Some col ->
          type_accepts (data_type col) v = true)
  /\ (forall w k v col,
        check_columns t (dict_keys values) = Ok tt ->
        In (k, v) values -> dict_get (column_map t) k = Some col ->
        type_accepts (data_type col) v = false ->
        exists k' v' col',
          In (k', v') values /\ dict_get (column_map t) k' = Some col'
          /\ type_accepts (data_type col') v' = false
          /\ update t values w =
             (Raise (TypeMismatchError k' (data_type col') (type_name v')), t))
  /\ (forall w n, fst (update t values w) = Ok n ->
        forall k v, In (k, v) values ->
          exists col, dict_get (column_map t) k = Some col
                      /\ type_accepts (data_type col) v = true).
Proof.
  split; [intros k v col; apply validate_item_accepts |].
  split; [intros []; reflexivity |].
  split.
  { intros v Hv. destruct v; [now contradiction Hv | ..]; now repeat split. }
  split; [| split; [| split]].
  - intros k v col Hv Hcol Hrej.
    assert (Hin : In (k, v) (materialise t values)).
    { apply dict_get_In, materialise_supplied; [exact Hv |].
      now apply (column_map_some t k col). }
    destruct (validate_types_refused t _ k v col Hin Hcol Hrej) as [e He].
    destruct (validate_types_raises t _ e He) as [k' [v' [col' [Hin' [Hc' [Hr' ->]]]]]].
    exists k', v', col'. repeat split; auto. unfold insert. now rewrite He.
  - intros pk Hok k v col Hv Hcol.
    assert (Hval : _validate_types t (materialise t values) = Ok tt).
    { unfold insert in Hok.
      destruct (_validate_types t (materialise t values)) as [[] | e]; [reflexivity |].
      discriminate. }
    assert (Hin : In (k, v) (materialise t values)).
    { apply dict_get_In, materialise_supplied; [exact Hv |].
      now apply (column_map_some t k col). }
    pose proof (proj1 (validate_types_ok t _) Hval k v Hin) as H.
    rewrite (validate_item_accepts t k v col Hcol) in H.
    destruct (type_accepts (data_type col) v); [reflexivity | discriminate].
  - intros w k v col Hcheck Hin Hcol Hrej.
    destruct (validate_types_refused t _ k v col Hin Hcol Hrej) as [e He].
    destruct (validate_types_raises t _ e He) as [k' [v' [col' [Hin' [Hc' [Hr' ->]]]]]].
    exists k', v', col'. repeat split; auto.
    unfold update, validate_update. rewrite Hcheck. cbn [bind]. now rewrite He.
  - intros w n Hok k v Hin.
    apply update_validated, validate_update_ok in Hok as [Hcheck Hval].
    assert (Hk : In k (map name (columns t))).
    { apply (proj1 (check_columns_ok t _) Hcheck). unfold dict_keys.
      change k with (fst (k, v)). now apply in_map. }
    apply column_map_mem in Hk. unfold dict_mem in Hk.
    destruct (dict_get (column_map t) k) as [col |] eqn:Hcol; [| discriminate].
    exists col. split; [reflexivity |].
    pose proof (proj1 (validate_types_ok t _) Hval k v Hin) as H.
    rewrite (validate_item_accepts t k v col Hcol) in H.
    destruct (type_accepts (data_type col) v); [reflexivity | discriminate].
Qed.

(** C6. On a table whose columns have distinct names, a call of [insert]
    that returns has appended one row after the rows already stored and
    returns the value that row holds for the primary key; the row has the
    declared columns as keys, in their order; under each column it holds the
    supplied value when there is one, else the current [next_id] when the
    column is flagged primary key and null when it is not; and [next_id] has
    gone up by one, whether or not the primary key was supplied. *)
Theorem insert_stores_row t values v (t' : Table F) :
  NoDup (map name (columns t)) ->
  insert t values = (Ok v, t') ->
  exists r,
    rows t' = rows t ++ [r]
    /\ dict_keys r = map name (columns t)
    /\ (forall col x, In col (columns t) ->
          dict_get values (name col) = Some x -> dict_get r (name col) = Some x)
    /\ (forall col, In col (columns t) -> dict_get values (name col) = None ->
          is_primary_key col = true -> dict_get r (name col) = Some (VInt (next_id t)))
    /\ (forall col, In col (columns t) -> dict_get values (name col) = None ->
          is_primary_key col = false -> dict_get r (name col) = Some VNone)
    /\ next_id t' = next_id t + 1
    /\ dict_get r (primary_key t) = Some v
    /\ columns t' = columns t /\ primary_key t' = primary_key t
    /\ table_name t' = table_name t.
Proof.
  intros Hnd Hins. unfold insert in Hins.
  destruct (_validate_types t (materialise t values)) as [[] | e]; [| discriminate].
  destruct (dict_get (materialise t values) (primary_key t)) as [pk_val |] eqn:Hpk;
    [| discriminate].
  destruct (check_unique (primary_key t) pk_val (rows t)) as [[] | e]; [| discriminate].
  injection Hins as <- <-. exists (materialise t values). cbn.
  assert (Hcell : forall col, In col (columns t) ->
            dict_get (materialise t values) (name col) = Some (cell t values col)).
  { intros col Hin. rewrite materialise_cells. now apply fold_cells_get. }
  repeat split.
  - rewrite materialise_keys. now apply keys_in_order_distinct.
  - intros col x Hin Hx. rewrite (Hcell col Hin). unfold cell. now rewrite Hx.
  - intros col Hin Hx Hflag. rewrite (Hcell col Hin). unfold cell. now rewrite Hx, Hflag.
  - intros col Hin Hx Hflag. rewrite (Hcell col Hin). unfold cell. now rewrite Hx, Hflag.
  - exact Hpk.
Qed.

End InsertProps.

Lemma type_validation_by_declared_type_witness :
  exists k ty got,
    insert students [("name", VInt 7)] = (Raise (TypeMismatchError k ty got), students).
Proof.
  destruct (proj1 (proj2 (proj2 (proj2 (type_validation_by_declared_type
              students [("name", VInt 7)])))) "name" (VInt 7)
              {| name := "name"; data_type := TEXT; is_primary_key := false |}
              eq_refl eq_refl eq_refl) as [k [v [col [_ [_ [_ H]]]]]].
  exists k, (data_type col), (type_name v). exact H.
Defined.

Lemma insert_stores_row_witness :
  exists r, rows (snd (insert students alice)) = rows students ++ [r]
            /\ dict_get r "id" = Some (VInt 1)
            /\ next_id (snd (insert students alice)) = 2.
Proof.
  destruct (insert_stores_row students alice (VInt 1) (snd (insert students alice)))
    as [r [Hrows [_ [_ [_ [_ [Hnext [Hpk _]]]]]]]].
  - repeat constructor; cbn; intuition discriminate.
  - vm_compute. reflexivity.
  - exists r. split; [exact Hrows | split; [exact Hpk | exact Hnext]].
Defined.

(** ** Filtering and projecting rows *)

Section SubseqProps.

Variable A : Type.

Lemma subseq_refl (l : list A) : subseq l l.
Proof. induction l; [apply subseq_nil | now apply subseq_keep]. Qed.

Lemma subseq_In (l1 l2 : list A) (x : A) : subseq l1 l2 -> In x l1 -> In x l2.
Proof.
  induction 1 as [| y l1 l2 _ IH | y l1 l2 _ IH]; cbn [In]; intros Hin; auto.
  destruct Hin; auto.
Qed.

Lemma subseq_Forall (P : A -> Prop) (l1 l2 : list A) :
  subseq l1 l2 -> Forall P l2 -> Forall P l1.
Proof.
  induction 1 as [| y l1 l2 _ IH | y l1 l2 _ IH]; intros H; auto.
  - inversion H; subst; auto.
  - inversion H; subst. constructor; auto.
Qed.

Lemma filter_subseq (p : A -> bool) (l : list A) : subseq (filter p l) l.
Proof.
  induction l as [| x l IH]; cbn [filter]; [constructor |].
  destruct (p x); [apply subseq_keep | apply subseq_skip]; exact IH.
Qed.

(** A weaker test keeps at least the same elements, in the same order. *)
Lemma filter_subseq_weaker (p q : A -> bool) (l : list A) :
  (forall x, In x l -> p x = true -> q x = true) ->
  subseq (filter p l) (filter q l).
Proof.
  induction l as [| x l IH]; intros H; cbn [filter]; [constructor |].
  assert (IH' : subseq (filter p l) (filter q l))
    by (apply IH; intros y Hy; apply H; now right).
  destruct (p x) eqn:Hp.
  - rewrite (H x (or_introl eq_refl) Hp). now apply subseq_keep.
  - destruct (q x); [now apply subseq_skip | exact IH'].
Qed.


End SubseqProps.

Section FilterProps.

Context {F : Type} {PF : PyFloat F}.

Implicit Types (t : Table F) (r : row F) (rs : list (row F)).

(** The comprehension returns exactly when the clause evaluates on every
    row, and then it is the filter by the clause's truth. *)
Lemma filter_rows_ok (keep : bool) (w : string) rs (kept : list (row F)) :
  filter_rows keep w rs = Ok kept ->
  Forall (fun r => exists b, _evaluate_where r w = Ok b) rs
  /\ kept = filter (fun r => Bool.eqb (where_true w r) keep) rs.
Proof.
  revert kept. induction rs as [| r rs IH]; intros kept; cbn [filter_rows filter].
  - intros [= <-]. split; constructor.
  - unfold where_true at 1. destruct (_evaluate_where r w) as [b | e] eqn:E; cbn [bind];
      [| discriminate].
    destruct (filter_rows keep w rs) as [kept' | e]; cbn [bind]; [| discriminate].
    intros [= <-]. destruct (IH kept' eq_refl) as [Hall ->].
    split; [constructor; [now exists b | exact Hall] |].
    now destruct b.
Qed.

Lemma filter_rows_total (keep : bool) (w : string) rs :
  Forall (fun r => exists b, _evaluate_where r w = Ok b) rs ->
  filter_rows keep w rs = Ok (filter (fun r => Bool.eqb (where_true w r) keep) rs).
Proof.
  induction 1 as [| r rs [b Hb] _ IH]; cbn [filter_rows filter]; [reflexivity |].
  unfold where_true at 1. rewrite Hb, IH. cbn [bind]. now destruct b.
Qed.

Lemma filter_rows_subseq (keep : bool) (w : string) rs (kept : list (row F)) :
  filter_rows keep w rs = Ok kept -> subseq kept rs.
Proof.
  intros H. apply filter_rows_ok in H as [_ ->]. apply filter_subseq.
Qed.

(** *** Projection *)

Lemma project_from_spec (acc : row F) r (cols : list string) :
  (forall c, In c cols -> dict_get r c <> None) ->
  exists p,
    project_from acc r cols = Ok p
    /\ dict_keys p = fold_left keys_step cols (dict_keys acc)
    /\ (forall k, In k cols -> dict_get p k = dict_get r k)
    /\ (forall k, ~ In k cols -> dict_get p k = dict_get acc k).
Proof.
  revert acc. induction cols as [| c cols IH]; intros acc Hr; cbn [project_from fold_left].
  - exists acc. repeat split; auto. intros k [].
  - destruct (dict_get r c) as [v |] eqn:Hc;
      [| exfalso; now apply (Hr c (or_introl eq_refl))].
    destruct (IH (dict_set acc c v) (fun k Hk => Hr k (or_intror Hk)))
      as [p [Hp [Hkeys [Hin Hout]]]].
    exists p. split; [exact Hp |]. split; [now rewrite Hkeys, dict_keys_set |]. split.
    + intros k [<- | Hk]; [| now apply Hin].
      destruct (in_dec string_dec c cols) as [Hc' | Hc']; [now apply Hin |].
      rewrite (Hout c Hc'), Hc. apply dict_get_set_same.
    + intros k Hk. cbn [In] in Hk. rewrite Hout by tauto.
      apply dict_get_set_other. tauto.
Qed.

(** Projecting a row on its own keys gives the row back. *)
Lemma project_same r (names : list string) :
  dict_keys r = keys_in_order names -> project r names = Ok r.
Proof.
  intros Hkeys.
  assert (Hhas : forall c, In c names -> dict_get r c <> None).
  { intros c Hc Hnone. apply dict_get_none in Hnone. apply Hnone.
    rewrite Hkeys. now apply keys_in_order_In. }
  destruct (project_from_spec [] r names Hhas) as [p [Hp [Hk [Hin Hout]]]].
  unfold project. rewrite Hp. f_equal. apply dict_ext.
  - rewrite Hk, Hkeys. reflexivity.
  - rewrite Hk. apply keys_in_order_NoDup.
  - intros k. destruct (in_dec string_dec k names) as [Hk' | Hk']; [now apply Hin |].
    rewrite (Hout k Hk'). symmetry. apply dict_get_none.
    rewrite Hkeys, keys_in_order_In. exact Hk'.
Qed.

Lemma project_all_total (cols : list string) rs :
  Forall (fun r => forall c, In c cols -> dict_get r c <> None) rs ->
  exists ps, project_all cols rs = Ok ps.
Proof.
  induction 1 as [| r rs Hr _ [ps IH]]; cbn [project_all]; [now exists [] |].
  destruct (project_from_spec [] r cols Hr) as [p [Hp _]].
  unfold project. rewrite Hp, IH. cbn [bind]. now exists (p :: ps).
Qed.

Lemma project_all_subseq (cols : list string) (rs1 rs2 ps1 ps2 : list (row F)) :
  subseq rs1 rs2 ->
  project_all cols rs1 = Ok ps1 -> project_all cols rs2 = Ok ps2 -> subseq ps1 ps2.
Proof.
  intros Hsub. revert ps1 ps2.
  induction Hsub as [| r rs1 rs2 _ IH | r rs1 rs2 _ IH]; intros ps1 ps2; cbn [project_all].
  - intros [= <-] [= <-]. constructor.
  - intros H1. destruct (project r cols) as [p |]; cbn [bind]; [| discriminate].
    destruct (project_all cols rs2) as [ps |]; cbn [bind]; [| discriminate].
    intros [= <-]. apply subseq_skip. now apply IH.
  - destruct (project r cols) as [p |]; cbn [bind]; [| discriminate].
    destruct (project_all cols rs1) as [qs1 |]; cbn [bind]; [| discriminate].
    destruct (project_all cols rs2) as [qs2 |]; cbn [bind]; [| intros; discriminate].
    intros [= <-] [= <-]. apply subseq_keep. now apply IH.
Qed.

Lemma project_all_same (names : list string) rs :
  Forall (fun r => dict_keys r = keys_in_order names) rs ->
  project_all names rs = Ok rs.
Proof.
  induction 1 as [| r rs Hr _ IH]; cbn [project_all]; [reflexivity |].
  now rewrite (project_same r names Hr), IH.
Qed.

End FilterProps.

(** ** The shape of reachable tables; select without arguments (C9); delete (C7) *)

Section ShapeProps.

Context {F : Type} {PF : PyFloat F}.

Implicit Types (t : Table F) (values r : dict (value F)) (rs : list (row F)).

Lemma insert_schema t values :
  columns (snd (insert t values)) = columns t
  /\ primary_key (snd (insert t values)) = primary_key t.
Proof.
  unfold insert. destruct (_validate_types t (materialise t values)); [| now split].
  destruct (dict_get (materialise t values) (primary_key t)); [| now split].
  destruct (check_unique (primary_key t) _ (rows t)); now split.
Qed.

(** What a call of [insert] leaves: the table as it was, or one more row. *)
Lemma insert_rows t values :
  snd (insert t values) = t
  \/ (exists v, fst (insert t values) = Ok v)
     /\ rows (snd (insert t values)) = rows t ++ [materialise t values].
Proof.
  unfold insert. destruct (_validate_types t (materialise t values)); [| now left].
  destruct (dict_get (materialise t values) (primary_key t)) as [pk_val |]; [| now left].
  destruct (check_unique (primary_key t) pk_val (rows t)); [| now left].
  right. split; [now exists pk_val | reflexivity].
Qed.

Lemma update_rows_shape values (w : option string) (n : Z) rs (names : list string) :
  (forall k, In k (dict_keys values) -> In k names) ->
  Forall (fun r => dict_keys r = keys_in_order names) rs ->
  Forall (fun r => dict_keys r = keys_in_order names) (snd (update_rows values w n rs)).
Proof.
  intros Hvals Hrs. revert n. induction Hrs as [| r rs Hr Hrs IH]; intros n;
    cbn [update_rows]; [constructor |].
  destruct (match w with None => Ok true | Some w0 => _evaluate_where r w0 end)
    as [[|] | e].
  - specialize (IH (n + 1)). destruct (update_rows values w (n + 1) rs) as [res rs'].
    cbn [snd] in *. constructor; [| exact IH].
    rewrite dict_update_keys; [exact Hr |].
    intros k Hk. rewrite Hr. apply keys_in_order_In. now apply Hvals.
  - specialize (IH n). destruct (update_rows values w n rs) as [res rs'].
    cbn [snd] in *. now constructor.
  - cbn [snd]. now constructor.
Qed.

Lemma well_shaped_init (nm : string) (cols : list Column) (pk : string) t :
  Table_init nm cols pk = Ok t -> well_shaped t.
Proof.
  unfold Table_init. destruct (dict_mem (column_map_of cols) pk) eqn:E; [| discriminate].
  intros [= <-]. split; cbn; [| constructor].
  apply dict_mem_In in E. rewrite column_map_keys in E. now apply keys_in_order_In.
Qed.

Lemma well_shaped_insert t values : well_shaped t -> well_shaped (snd (insert t values)).
Proof.
  intros [Hpk Hrows]. destruct (insert_schema t values) as [Hc Hp].
  destruct (insert_rows t values) as [-> | [_ Hr]]; [now split |].
  split; rewrite Hc; [now rewrite Hp |]. rewrite Hr.
  apply Forall_app. split; [exact Hrows |]. constructor; [| constructor].
  apply materialise_keys.
Qed.

Lemma well_shaped_update t values (w : option string) :
  well_shaped t -> well_shaped (snd (update t values w)).
Proof.
  intros [Hpk Hrows]. unfold update.
  destruct (validate_update t values) as [[] | e] eqn:E; [| now split].
  apply validate_update_ok in E as [Hcheck _].
  pose proof (update_rows_shape values w 0 (rows t) (map name (columns t))
                (proj1 (check_columns_ok t _) Hcheck) Hrows) as H.
  destruct (update_rows values w 0 (rows t)) as [res rs]. cbn [snd] in *.
  split; [exact Hpk | exact H].
Qed.

Lemma well_shaped_delete t (w : option string) :
  well_shaped t -> well_shaped (snd (delete t w)).
Proof.
  intros [Hpk Hrows]. unfold delete. destruct w as [w |].
  - destruct (filter_rows false w (rows t)) as [new_rows | e] eqn:E; [| now split].
    split; [exact Hpk |]. cbn.
    apply (subseq_Forall _ _ new_rows (rows t)); [| exact Hrows].
    now apply (filter_rows_subseq false w).
  - split; [exact Hpk | constructor].
Qed.

(** Every table the engine can reach is well shaped. *)
Lemma reachable_well_shaped t : reachable t -> well_shaped t.
Proof.
  induction 1 as [nm cols pk t Hinit | t values _ IH | t values w _ IH | t w _ IH].
  - now apply (well_shaped_init nm cols pk).
  - now apply well_shaped_insert.
  - now apply well_shaped_update.
  - now apply well_shaped_delete.
Qed.

Lemma well_shaped_has t r (c : string) :
  well_shaped t -> In r (rows t) -> In c (map name (columns t)) -> dict_get r c <> None.
Proof.
  intros [_ Hrows] Hr Hc Hnone. rewrite Forall_forall in Hrows.
  apply dict_get_none in Hnone. apply Hnone. rewrite (Hrows r Hr).
  now apply keys_in_order_In.
Qed.

(** C9. On every table the engine can reach, [select] with neither a column
    list nor a condition returns the stored rows themselves: all of them, in
    the order of insertion, each with a value under every declared column
    and with its keys in the order of declaration (which is the list of the
    column names itself when these are distinct). *)
Theorem select_all_returns_stored_rows t :
  reachable t ->
  select t None None = Ok (rows t)
  /\ Forall (fun r =>
       dict_keys r = keys_in_order (map name (columns t))
       /\ (forall col, In col (columns t) -> exists v, dict_get r (name col) = Some v)
       /\ (NoDup (map name (columns t)) -> dict_keys r = map name (columns t)))
     (rows t).
Proof.
  intros Hreach. pose proof (reachable_well_shaped t Hreach) as Hws.
  pose proof Hws as [_ Hrows]. split.
  - unfold select.
    assert (Hcheck : check_columns t (map name (columns t)) = Ok tt)
      by (apply check_columns_ok; auto).
    rewrite Hcheck. cbn [bind]. now apply project_all_same.
  - rewrite Forall_forall in *. intros r Hr. split; [now apply Hrows |]. split.
    + intros col Hcol.
      pose proof (well_shaped_has t r (name col) Hws Hr (in_map name _ _ Hcol)) as H.
      destruct (dict_get r (name col)) as [v |]; [now exists v | contradiction].
    + intros Hnd. rewrite (Hrows r Hr). now apply keys_in_order_distinct.
Qed.


End ShapeProps.

Lemma select_all_returns_stored_rows_witness :
  select two_students None None
  = Ok [ [("id", VInt 1); ("name", VStr "Alice"); ("age", VInt 20)];
         [("id", VInt 2); ("name", VStr "Bob"); ("age", VInt 17)] ].
Proof.
  refine (eq_trans (proj1 (select_all_returns_stored_rows two_students _)) _).
  - unfold two_students, insert_all. cbn [fold_left].
    apply reach_insert, reach_insert.
    apply (reach_init "students" students_columns "id"). reflexivity.
  - vm_compute. reflexivity.
Defined.


(** ** Primary keys (C1) and what a failed update leaves (C2) *)

Section KeyProps.

Context {F : Type} {PF : PyFloat F}.

Implicit Types (t : Table F) (values r : dict (value F)) (rs : list (row F)) (v : value F).

Lemma check_unique_ok (pk : string) v rs :
  check_unique pk v rs = Ok tt ->
  Forall (fun r => exists v', dict_get r pk = Some v' /\ py_eq v' v = false) rs.
Proof.
  induction rs as [| r rs IH]; cbn [check_unique]; [constructor |].
  destruct (dict_get r pk) as [v' |] eqn:E; [| discriminate].
  destruct (py_eq v' v) eqn:Heq; [discriminate |].
  intros H. constructor; [now exists v' | now apply IH].
Qed.

Lemma check_unique_collision (pk : string) v rs :
  (forall r, In r rs -> dict_get r pk <> None) ->
  (exists r v', In r rs /\ dict_get r pk = Some v' /\ py_eq v' v = true) ->
  check_unique pk v rs = Raise (UniqueConstraintError pk (py_str v)).
Proof.
  intros Hhas [r0 [v0 [Hin [Hget Heq]]]]. induction rs as [| r rs IH]; [contradiction |].
  cbn [check_unique]. destruct (dict_get r pk) as [v' |] eqn:E;
    [| exfalso; now apply (Hhas r (or_introl eq_refl))].
  destruct (py_eq v' v) eqn:Heq'; [reflexivity |].
  destruct Hin as [-> | Hin]; [congruence |].
  apply IH; [| exact Hin]. intros r' Hr'. apply Hhas. now right.
Qed.

Lemma insert_keeps_distinct t values :
  pk_distinct (primary_key t) (rows t) ->
  pk_distinct (primary_key t) (rows (snd (insert t values))).
Proof.
  intros Hd. unfold insert.
  destruct (_validate_types t (materialise t values)); [| exact Hd].
  destruct (dict_get (materialise t values) (primary_key t)) as [pk_val |] eqn:Hpk;
    [| exact Hd].
  destruct (check_unique (primary_key t) pk_val (rows t)) as [[] | e] eqn:Hu; [| exact Hd].
  apply check_unique_ok in Hu. rewrite Forall_forall in Hu. cbn [snd rows].
  intros i j ri rj Hij Hi Hj.
  assert (Hjlen : (j < List.length (rows t ++ [materialise t values]))%nat)
    by (apply nth_error_Some; congruence).
  rewrite length_app in Hjlen. cbn [List.length] in Hjlen.
  destruct (Nat.eq_dec j (List.length (rows t))) as [-> | Hne].
  - rewrite nth_error_app2, Nat.sub_diag in Hj by lia. injection Hj as <-.
    rewrite nth_error_app1 in Hi by lia.
    destruct (Hu ri (nth_error_In _ _ Hi)) as [vi [Hvi Hneq]].
    exists vi, pk_val. auto.
  - rewrite nth_error_app1 in Hj by lia. rewrite nth_error_app1 in Hi by lia.
    now apply (Hd i j).
Qed.

Lemma insert_all_schema t (calls : list (dict (value F))) :
  columns (insert_all t calls) = columns t
  /\ primary_key (insert_all t calls) = primary_key t.
Proof.
  revert t. induction calls as [| values calls IH]; intros t; [now split |].
  cbn [insert_all fold_left]. destruct (IH (snd (insert t values))) as [Hc Hp].
  destruct (insert_schema t values) as [Hc' Hp']. unfold insert_all in *.
  split; congruence.
Qed.

Lemma insert_all_distinct t (calls : list (dict (value F))) :
  pk_distinct (primary_key t) (rows t) ->
  pk_distinct (primary_key t) (rows (insert_all t calls)).
Proof.
  revert t. induction calls as [| values calls IH]; intros t Hd; [exact Hd |].
  cbn [insert_all fold_left]. destruct (insert_schema t values) as [_ Hp].
  rewrite <- Hp. apply IH. rewrite Hp. now apply insert_keeps_distinct.
Qed.

Lemma insert_all_reachable t (calls : list (dict (value F))) :
  reachable t -> reachable (insert_all t calls).
Proof.
  revert t. induction calls as [| values calls IH]; intros t Hr; [exact Hr |].
  cbn [insert_all fold_left]. apply IH. now apply reach_insert.
Qed.

Lemma insert_failure_keeps_table t values (e : exn) :
  fst (insert t values) = Raise e -> snd (insert t values) = t.
Proof.
  unfold insert. destruct (_validate_types t (materialise t values)); [| reflexivity].
  destruct (dict_get (materialise t values) (primary_key t)) as [pk_val |]; [| reflexivity].
  destruct (check_unique (primary_key t) pk_val (rows t)); [discriminate | reflexivity].
Qed.

(** C1, as the engine has it. After any run of [insert] calls on a new
    table, no two stored rows have primary-key values that compare equal. A
    call of [insert] that raises leaves the table exactly as it was. And a
    call whose materialised row passes type validation while its
    primary-key value, supplied or generated, equals that of a stored row
    raises [UniqueConstraintError]. *)
Theorem primary_key_unique (nm : string) (cols : list Column) (pk : string)
    (t0 : Table F) (calls : list (dict (value F))) :
  Table_init nm cols pk = Ok t0 ->
  let t := insert_all t0 calls in
  pk_distinct pk (rows t)
  /\ (forall values e, fst (insert t values) = Raise e -> snd (insert t values) = t)
  /\ (forall values pk_val,
        _validate_types t (materialise t values) = Ok tt ->
        dict_get (materialise t values) pk = Some pk_val ->
        (exists r v', In r (rows t) /\ dict_get r pk = Some v' /\ py_eq v' pk_val = true) ->
        insert t values = (Raise (UniqueConstraintError pk (py_str pk_val)), t)).
Proof.
  intros Hinit t.
  assert (Hpk0 : primary_key t0 = pk /\ rows t0 = []).
  { unfold Table_init in Hinit. destruct (dict_mem (column_map_of cols) pk);
      [| discriminate]. injection Hinit as <-. now split. }
  destruct Hpk0 as [Hpk0 Hrows0].
  assert (Hpk : primary_key t = pk)
    by (unfold t; rewrite (proj2 (insert_all_schema t0 calls)); exact Hpk0).
  split; [| split].
  - rewrite <- Hpk0. apply insert_all_distinct. rewrite Hrows0.
    intros i j ri rj _ Hi. destruct i; discriminate Hi.
  - intros values e. apply insert_failure_keeps_table.
  - intros values pk_val Hval Hget Hdup.
    assert (Hws : well_shaped t).
    { apply reachable_well_shaped, insert_all_reachable.
      now apply (reach_init nm cols pk). }
    unfold insert. rewrite Hval, Hpk, Hget.
    rewrite (check_unique_collision pk pk_val (rows t)); [reflexivity | | exact Hdup].
    intros r Hr. apply (well_shaped_has t r pk Hws Hr).
    destruct Hws as [Hin _]. now rewrite Hpk in Hin.
Qed.

(** *** update *)

Lemma update_rows_raised values (w : option string) (n : Z) rs (e : exn)
    (rs' : list (row F)) :
  update_rows values w n rs = (Raise e, rs') ->
  exists ws pre r post pre',
    w = Some ws /\ rs = pre ++ r :: post /\ rs' = pre' ++ r :: post
    /\ List.length pre' = List.length pre
    /\ (forall r', In r' pre -> exists b, _evaluate_where r' ws = Ok b)
    /\ _evaluate_where r ws = Raise e.
Proof.
  revert n rs'. induction rs as [| r rs IH]; intros n rs'; cbn [update_rows];
    [discriminate |].
  destruct w as [ws |].
  - destruct (_evaluate_where r ws) as [b | e0] eqn:E.
    + assert (Hstep : forall m head,
                (let (res, rest') := update_rows values (Some ws) m rs in
                 (res, head :: rest')) = (Raise e, rs') ->
                exists ws0 pre r0 post pre',
                  Some ws = Some ws0 /\ r :: rs = pre ++ r0 :: post
                  /\ rs' = pre' ++ r0 :: post
                  /\ List.length pre' = List.length pre
                  /\ (forall r', In r' pre -> exists b, _evaluate_where r' ws0 = Ok b)
                  /\ _evaluate_where r0 ws0 = Raise e).
      { intros m head H.
        destruct (update_rows values (Some ws) m rs) as [res rest'] eqn:Hu.
        injection H as -> <-.
        destruct (IH m rest' Hu) as [ws0 [pre [r0 [post [pre' [Hw [-> [-> [Hlen [Hpre Hr0]]]]]]]]]].
        injection Hw as <-.
        exists ws, (r :: pre), r0, post, (head :: pre'). repeat split; auto.
        - cbn [List.length]. now rewrite Hlen.
        - intros r' [<- | Hin]; [now exists b | now apply Hpre]. }
      destruct b; apply Hstep.
    + intros [= <- <-]. exists ws, [], r, rs, []. repeat split; auto. intros r' [].
  - intros H. exfalso.
    assert (Hnone : forall m l, fst (update_rows values None m l) <> Raise e).
    { intros m l. revert m. induction l as [| x l IHl]; intros m; cbn [update_rows];
        [discriminate |].
      specialize (IHl (m + 1)). destruct (update_rows values None (m + 1) l). exact IHl. }
    apply (Hnone n (r :: rs)). cbn [update_rows]. now rewrite H.
Qed.

End KeyProps.

(** Alice is stored under id 1. A second insert supplies id 1 again and a
    number where the name should be: it raises the type mismatch, not the
    uniqueness error. *)
Lemma duplicate_key_with_mistyped_value :
  let t := insert_all students [alice] in
  let values : dict (value Empty_set) := [("id", VInt 1); ("name", VInt 7)] in
  dict_get (materialise t values) "id" = Some (VInt 1)
  /\ (exists r, In r (rows t) /\ dict_get r "id" = Some (VInt 1)
                /\ py_eq (VInt 1) (VInt 1 : value Empty_set) = true)
  /\ insert t values = (Raise (TypeMismatchError "name" TEXT "int"), t)
  /\ forall pk shown, fst (insert t values) <> Raise (UniqueConstraintError pk shown).
Proof.
  cbv zeta. split; [vm_compute; reflexivity |]. split.
  - exists [("id", VInt 1); ("name", VStr "Alice"); ("age", VInt 20)].
    vm_compute. auto.
  - split; [vm_compute; reflexivity |]. intros pk shown. vm_compute. discriminate.
Qed.

Lemma primary_key_unique_witness :
  insert two_students [("id", VInt 2); ("name", VStr "Dan")]
  = (Raise (UniqueConstraintError "id" "2"), two_students).
Proof.
  refine (proj2 (proj2 (primary_key_unique "students" students_columns "id" students
                          [alice; bob] eq_refl))
            [("id", VInt 2); ("name", VStr "Dan")] (VInt 2) eq_refl eq_refl _).
  exists [("id", VInt 2); ("name", VStr "Bob"); ("age", VInt 17)], (VInt 2).
  vm_compute. auto.
Defined.


(** ** Conjunctions (C8) *)

Section ConjunctionProps.

Context {F : Type} {PF : PyFloat F}.

Implicit Types (t : Table F) (r : row F).

Local Open Scope string_scope.

Lemma evaluate_where_one r (c : string) :
  contains " AND " c = false ->
  _evaluate_where r c =
  (b <- _evaluate_condition r (strip c) ;; if negb b then Ok false else Ok true).
Proof.
  intros H. unfold _evaluate_where. rewrite (split_none " AND " c H). reflexivity.
Qed.

Lemma evaluate_where_two r (w c1 c2 : string) :
  split " AND " w = [c1; c2] ->
  _evaluate_where r w =
  (b1 <- _evaluate_condition r (strip c1) ;;
   if negb b1 then Ok false
   else b2 <- _evaluate_condition r (strip c2) ;; if negb b2 then Ok false else Ok true).
Proof. intros H. unfold _evaluate_where. rewrite H. reflexivity. Qed.

(** Where the conjunction evaluates, so does its first conjunct; where the
    conjunction is true, so is each conjunct on its own. *)
Lemma conjunction_conjuncts r (w c1 c2 : string) :
  split " AND " w = [c1; c2] ->
  contains " AND " c1 = false -> contains " AND " c2 = false ->
  ((exists b, _evaluate_where r w = Ok b) -> exists b1, _evaluate_where r c1 = Ok b1)
  /\ (where_true w r = true -> where_true c1 r = true /\ where_true c2 r = true).
Proof.
  intros Hw H1 H2. unfold where_true.
  rewrite (evaluate_where_two r w c1 c2 Hw), (evaluate_where_one r c1 H1),
    (evaluate_where_one r c2 H2).
  destruct (_evaluate_condition r (strip c1)) as [[|] | e1]; cbn [bind negb].
  - split; [intros _; now exists true |].
    destruct (_evaluate_condition r (strip c2)) as [[|] | e2]; cbn [bind negb];
      intros H; try discriminate H; now split.
  - split; [intros _; now exists false | discriminate].
  - split; [intros [b Hb]; discriminate | discriminate].
Qed.

(** C8, as the engine has it. Let [c1] and [c2] be conditions without the
    separator, which the clause [c1 AND c2] splits into, on a table the
    engine can reach. When [select] returns for the conjunction, it returns
    for [c1] alone, and the rows of the conjunction are among the rows for
    [c1], in the same order. The same holds for [c2] alone whenever
    [select] returns for it. *)
Theorem conjunction_narrows_selection t (cols : option (list string))
    (c1 c2 : string) (selected : list (row F)) :
  reachable t ->
  split " AND " (c1 ++ " AND " ++ c2) = [c1; c2] ->
  contains " AND " c1 = false -> contains " AND " c2 = false ->
  select t cols (Some (c1 ++ " AND " ++ c2)) = Ok selected ->
  (exists s1, select t cols (Some c1) = Ok s1
              /\ subseq selected s1 /\ (forall r, In r selected -> In r s1))
  /\ (forall s2, select t cols (Some c2) = Ok s2 ->
        subseq selected s2 /\ (forall r, In r selected -> In r s2)).
Proof.
  intros Hreach Hw H1 H2 Hsel.
  pose proof (reachable_well_shaped t Hreach) as Hws.
  unfold select in *.
  set (cs := match cols with None => map name (columns t) | Some l => l end) in *.
  destruct (check_columns t cs) as [[] | e] eqn:Hcheck; cbn [bind] in *; [| discriminate].
  assert (Htruthy : truthy (c1 ++ " AND " ++ c2) = true) by (now destruct c1).
  rewrite Htruthy in Hsel.
  destruct (filter_rows true (c1 ++ " AND " ++ c2) (rows t)) as [kept | e] eqn:Hf;
    cbn [bind] in Hsel; [| discriminate].
  apply filter_rows_ok in Hf as [Hall ->].
  assert (Hproj : forall rs, subseq rs (rows t) -> exists ps, project_all cs rs = Ok ps).
  { intros rs Hsub. apply project_all_total.
    apply (subseq_Forall _ _ rs (rows t) Hsub). apply Forall_forall.
    intros r Hr c Hc. apply (well_shaped_has t r c Hws Hr).
    now apply (proj1 (check_columns_ok t cs) Hcheck). }
  assert (Hconj : forall r, In r (rows t) ->
            ((exists b, _evaluate_where r (c1 ++ " AND " ++ c2) = Ok b) ->
             exists b1, _evaluate_where r c1 = Ok b1)
            /\ (where_true (c1 ++ " AND " ++ c2) r = true ->
                where_true c1 r = true /\ where_true c2 r = true))
    by (intros r _; now apply conjunction_conjuncts).
  assert (Hwithin : forall (c : string) (kept' ps : list (row F)),
            (forall r, In r (rows t) ->
               where_true (c1 ++ " AND " ++ c2) r = true -> where_true c r = true) ->
            (if truthy c then filter_rows true c (rows t) else Ok (rows t)) = Ok kept' ->
            project_all cs kept' = Ok ps ->
            subseq selected ps /\ (forall r, In r selected -> In r ps)).
  { intros c kept' ps Himp Hkept Hps.
    assert (Hsub : subseq (filter (fun r : row F =>
                      Bool.eqb (where_true (c1 ++ " AND " ++ c2) r) true) (rows t)) kept').
    { destruct (truthy c).
      - apply filter_rows_ok in Hkept as [_ ->]. apply filter_subseq_weaker.
        intros r Hr Ht. destruct (where_true (c1 ++ " AND " ++ c2) r) eqn:E;
          [| discriminate Ht]. now rewrite (Himp r Hr E).
      - injection Hkept as <-. apply filter_subseq. }
    pose proof (project_all_subseq cs _ _ _ _ Hsub Hsel Hps) as Hss.
    split; [exact Hss |]. intros r. now apply subseq_In. }
  split.
  - assert (Hkept : exists kept', (if truthy c1 then filter_rows true c1 (rows t)
                                   else Ok (rows t)) = Ok kept' /\ subseq kept' (rows t)).
    { destruct (truthy c1).
      - eexists. split; [apply filter_rows_total | apply filter_subseq].
        rewrite Forall_forall in *. intros r Hr.
        now apply (proj1 (Hconj r Hr)), Hall.
      - exists (rows t). split; [reflexivity | apply subseq_refl]. }
    destruct Hkept as [kept' [Hkept Hsub]]. destruct (Hproj kept' Hsub) as [s1 Hs1].
    exists s1. rewrite Hkept. cbn [bind]. split; [exact Hs1 |].
    apply (Hwithin c1 kept' s1); auto.
    intros r Hr Ht. now apply (proj2 (Hconj r Hr)).
  - intros s2 Hs2.
    destruct (if truthy c2 then filter_rows true c2 (rows t) else Ok (rows t))
      as [kept' | e] eqn:Hkept; cbn [bind] in Hs2; [| discriminate].
    apply (Hwithin c2 kept' s2); auto.
    intros r Hr Ht. now apply (proj2 (Hconj r Hr)).
Qed.

End ConjunctionProps.

(** Carol, whose age is null, comes before Alice aged 20. For
    [name LIKE 'A%' AND age > 18] the name test fails on Carol and her age is
    never looked at, so Alice is returned; for [age > 18] alone the scan
    raises on Carol and nothing is returned. *)
Lemma conjunction_not_monotone :
  ~ conjunction_monotone carol_alice None "name LIKE 'A%'" "age > 18".
Proof.
  intros H.
  destruct (H [ [("id", VInt 2); ("name", VStr "Alice"); ("age", VInt 20)] ]
              [("id", VInt 2); ("name", VStr "Alice"); ("age", VInt 20)])
    as [_ [s2 [Hs2 _]]].
  - vm_compute. reflexivity.
  - now left.
  - vm_compute in Hs2. discriminate Hs2.
Qed.

Lemma conjunction_narrows_selection_witness :
  exists s1, select two_students None (Some "age >= 18"%string) = Ok s1
             /\ In [("id", VInt 1); ("name", VStr "Alice"); ("age", VInt 20)] s1.
Proof.
  destruct (conjunction_narrows_selection two_students None
              "age >= 18" "name LIKE 'A%'"
              [ [("id", VInt 1); ("name", VStr "Alice"); ("age", VInt 20)] ])
    as [[s1 [Hs1 [_ Hin]]] _].
  - unfold two_students, insert_all. cbn [fold_left].
    apply reach_insert, reach_insert.
    apply (reach_init "students" students_columns "id"). reflexivity.
  - vm_compute. reflexivity.
  - vm_compute. reflexivity.
  - vm_compute. reflexivity.
  - vm_compute. reflexivity.
  - exists s1. split; [exact Hs1 | apply Hin; now left].
Defined.

(** ** LIKE (C3) *)

Section LikeProps.

Local Open Scope string_scope.

Lemma re_run_star (a : re_atom) (rest : list re_item) (s : string) :
  re_run (ReStar a :: rest) s =
  (re_run rest s
   || match s with
      | EmptyString => false
      | String c s' => re_atom_matches a c && re_run (ReStar a :: rest) s'
      end)%bool.
Proof. destruct s; reflexivity. Qed.

Lemma like_spec_percent (pattern s : string) :
  like_spec (String "%" pattern) s =
  (like_spec pattern s
   || match s with
      | EmptyString => false
      | String _ s' => like_spec (String "%" pattern) s'
      end)%bool.
Proof. destruct s; reflexivity. Qed.

Lemma like_regex_cons (c : ascii) (p : string) :
  like_regex (String c p) =
  if Ascii.eqb c "%" then String "." (String "*" (like_regex p))
  else if Ascii.eqb c "_" then String "." (like_regex p)
  else String c (like_regex p).
Proof.
  unfold like_regex. cbn [replace_char].
  destruct (Ascii.eqb_spec c "%") as [-> | _]; [reflexivity |].
  cbn [replace_char]. destruct (Ascii.eqb c "_"); reflexivity.
Qed.

Lemma like_plain_not_star (c : ascii) : like_plain c = true -> Ascii.eqb c "*" = false.
Proof.
  unfold like_plain. intros H. apply andb_true_iff in H as [_ H].
  now apply negb_true_iff in H.
Qed.

Lemma like_plain_not_dot (c : ascii) : like_plain c = true -> Ascii.eqb c "." = false.
Proof.
  unfold like_plain. intros H. apply andb_true_iff in H as [H _].
  apply andb_true_iff in H as [_ H]. now apply negb_true_iff in H.
Qed.

Lemma like_plain_not_special (c : ascii) : like_plain c = true -> re_special c = false.
Proof.
  unfold like_plain. intros H. apply andb_true_iff in H as [H _].
  apply andb_true_iff in H as [H _]. now apply negb_true_iff in H.
Qed.

Lemma like_regex_head (p : string) :
  all_chars like_plain p = true -> startswith (like_regex p) "*" = false.
Proof.
  destruct p as [| c p]; [reflexivity |]. cbn [all_chars]. intros H.
  apply andb_true_iff in H as [Hc _]. rewrite like_regex_cons.
  destruct (Ascii.eqb c "%"); [reflexivity |]. destruct (Ascii.eqb c "_"); [reflexivity |].
  cbn [startswith]. rewrite Ascii.eqb_sym, (like_plain_not_star c Hc). reflexivity.
Qed.

Lemma re_parse_one (c : ascii) (rest : string) :
  Ascii.eqb c "*" = false -> startswith rest "*" = false ->
  re_parse (String c rest) = option_map (cons (ReOne (re_atom_of c))) (re_parse rest).
Proof.
  intros Hc Hrest. cbn [re_parse]. rewrite Hc. destruct rest as [| c' rest]; [reflexivity |].
  cbn [startswith] in Hrest. rewrite andb_true_r, Ascii.eqb_sym in Hrest.
  now rewrite Hrest.
Qed.

Lemma like_regex_parses (p : string) :
  all_chars like_plain p = true -> re_parse (like_regex p) = Some (like_items p).
Proof.
  induction p as [| c p IH]; [reflexivity |]. cbn [all_chars]. intros H.
  apply andb_true_iff in H as [Hc Hp]. rewrite like_regex_cons. cbn [like_items].
  destruct (Ascii.eqb_spec c "%") as [-> | _].
  - cbn [re_parse]. change (Ascii.eqb "." "*") with false. cbn iota.
    rewrite Ascii.eqb_refl, (IH Hp). reflexivity.
  - destruct (Ascii.eqb_spec c "_") as [-> | _].
    + rewrite re_parse_one, (IH Hp); [reflexivity | reflexivity | now apply like_regex_head].
    + rewrite re_parse_one, (IH Hp);
        [| now apply like_plain_not_star | now apply like_regex_head].
      unfold re_atom_of. now rewrite (like_plain_not_dot c Hc).
Qed.

Lemma like_regex_modelled (p : string) :
  all_chars like_plain p = true ->
  all_chars (fun c => negb (re_special c)) (like_regex p) = true.
Proof.
  induction p as [| c p IH]; [reflexivity |]. cbn [all_chars]. intros H.
  apply andb_true_iff in H as [Hc Hp]. rewrite like_regex_cons.
  destruct (Ascii.eqb c "%"); [cbn [all_chars]; now rewrite (IH Hp) |].
  destruct (Ascii.eqb c "_"); [cbn [all_chars]; now rewrite (IH Hp) |].
  cbn [all_chars]. now rewrite (like_plain_not_special c Hc), (IH Hp).
Qed.

Lemma re_run_like (p s : string) :
  all_chars not_newline s = true -> re_run (like_items p) s = like_spec p s.
Proof.
  revert s. induction p as [| c p IH]; intros s Hs.
  - destruct s as [| d [| d' s]]; try reflexivity.
    cbn [all_chars] in Hs. apply andb_true_iff in Hs as [Hd _].
    cbn. unfold not_newline in Hd. now apply negb_true_iff in Hd.
  - cbn [like_items]. destruct (Ascii.eqb_spec c "%") as [-> | Hpct].
    + induction s as [| d s IHs].
      * rewrite re_run_star, like_spec_percent, (IH "" eq_refl). reflexivity.
      * rewrite re_run_star, like_spec_percent, (IH _ Hs).
        cbn [all_chars] in Hs. apply andb_true_iff in Hs as [Hd Hs'].
        rewrite (IHs Hs'). cbn [re_atom_matches]. unfold not_newline in Hd.
        now rewrite Hd.
    + apply Ascii.eqb_neq in Hpct. destruct s as [| d s].
      * cbn [like_spec]. rewrite Hpct. now destruct (Ascii.eqb c "_").
      * cbn [all_chars] in Hs. apply andb_true_iff in Hs as [Hd Hs'].
        cbn [like_spec]. rewrite Hpct.
        destruct (Ascii.eqb c "_"); cbn [re_run re_atom_matches orb];
          rewrite (IH s Hs'); [| reflexivity].
        unfold not_newline in Hd. now rewrite Hd.
Qed.

(** Where the pattern has none of the metacharacters of [re] and the
    subject has no newline, the engine's matching is LIKE as specified. *)
Lemma like_agrees_on_plain_patterns (pattern subject : string) :
  all_chars like_plain pattern = true -> all_chars not_newline subject = true ->
  re_match_anchored (like_regex pattern) subject = Ok (like_spec pattern subject).
Proof.
  intros Hp Hs. unfold re_match_anchored.
  rewrite (like_regex_modelled pattern Hp). cbn [negb].
  now rewrite (like_regex_parses pattern Hp), (re_run_like pattern subject Hs).
Qed.

End LikeProps.

(** C3. LIKE is to match the stringified value against the whole pattern,
    [%] standing for any run, [_] for one character and every other
    character for itself. The engine turns the pattern into a regular
    expression without escaping it, so a dot in the pattern matches any
    character: [name LIKE 'a.c'] holds of the name [abc], which the pattern
    as specified does not match. A star repeats what precedes it
    ([ab*] matches [a]), and a final newline of the value is passed over. *)
Theorem like_pattern_not_escaped :
  _evaluate_condition (F:=Empty_set) [("name", VStr "abc")] "name LIKE 'a.c'" = Ok true
  /\ like_spec "a.c" "abc" = false
  /\ _evaluate_condition (F:=Empty_set) [("name", VStr "a")] "name LIKE 'ab*'" = Ok true
  /\ like_spec "ab*" "a" = false
  /\ _evaluate_condition (F:=Empty_set)
       [("name", VStr (String "a" (String "b" (String "c" (String "010" "")))))]
       "name LIKE 'abc'" = Ok true
  /\ like_spec "abc" (String "a" (String "b" (String "c" (String "010" "")))) = false.
Proof. repeat split; vm_compute; reflexivity. Qed.

Lemma null_ordering_comparison_raises_witness :
  select alice_carol None (Some "name <> 'Bob' AND age > 18"%string) = Raise TypeError.
Proof.
  pose proof (null_ordering_comparison_raises (F:=Empty_set)
                [("id", VInt 2); ("name", VStr "Carol"); ("age", VNone)]
                "age" "18" OpGt eq_refl eq_refl eq_refl eq_refl) as H.
  cbv zeta in H. destruct H as [_ [_ H]].
  destruct (H "name <> 'Bob' AND age > 18"%string ["name <> 'Bob'"%string] [] eq_refl)
    as [_ Htable].
  - intros a [<- | []]. vm_compute. reflexivity.
  - destruct (Htable alice_carol
                [ [("id", VInt 1); ("name", VStr "Alice"); ("age", VInt 20)] ] []
                eq_refl) as [Hselect _].
    + intros r' [<- | []]. exists true. vm_compute. reflexivity.
    + apply (Hselect None). vm_compute. reflexivity.
Defined.

(** ** The engine on concrete inputs *)

Example split_examples :
  split " AND " "a AND " = ["a"; ""]%string
  /\ split " AND " "x AND AND y" = ["x"; "AND y"]%string
  /\ split " AND " "" = [""]%string.
Proof. repeat split; reflexivity. Qed.

Example int_of_str_examples :
  int_of_str " 1_0 " = Some 10 /\ int_of_str "+5" = Some 5
  /\ int_of_str "-12" = Some (-12) /\ int_of_str "- 5" = None
  /\ int_of_str "1__0" = None /\ int_of_str "" = None /\ int_of_str "5.0" = None.
Proof. repeat split; reflexivity. Qed.

Example str_of_int_examples :
  str_of_int (-5) = "-5"%string /\ str_of_int 0 = "0"%string
  /\ str_of_int 120 = "120"%string.
Proof. repeat split; reflexivity. Qed.

Example create_table_students :
  fst (create_table (F:=Empty_set) [] "students"
         [("id", "INTEGER"); ("name", "text"); ("age", "Integer")]%string)
  = Ok students.
Proof. vm_compute. reflexivity. Qed.

(** The scenario of the specification: two inserts, a filtered select, an
    update, a projection, a delete, and the rows left. *)
Example specification_scenario :
  let t1 := insert students alice in
  let t2 := insert (snd t1) bob in
  let t3 := update (snd t2) [("age", VInt 21)] (Some "name = 'Alice'"%string) in
  let t4 := delete (snd t3) (Some "age < 18"%string) in
  fst t1 = Ok (VInt 1) /\ fst t2 = Ok (VInt 2)
  /\ select (snd t2) None (Some "age >= 18"%string)
     = Ok [ [("id", VInt 1); ("name", VStr "Alice"); ("age", VInt 20)] ]
  /\ fst t3 = Ok 1
  /\ select (snd t3) (Some ["age"%string]) (Some "id = 1"%string) = Ok [ [("age", VInt 21)] ]
  /\ fst t4 = Ok 1
  /\ select (snd t4) None None
     = Ok [ [("id", VInt 1); ("name", VStr "Alice"); ("age", VInt 21)] ].
Proof. cbv zeta. repeat split; vm_compute; reflexivity. Qed.

(** The operators are looked for in the order [>=], [<=], [<>], [=], [>],
    [<], wherever they stand: in [a = b > c] the equality is found first and
    the rest is its literal. *)
Example operator_priority :
  _evaluate_condition (F:=Empty_set) [("a", VStr "b > c")] "a = b > c" = Ok true
  /\ _evaluate_condition (F:=Empty_set) [("a", VStr "x")] "a > b = c"
     = Raise (UnknownColumnError "a > b")
  /\ _evaluate_condition (F:=Empty_set) [("a", VInt 3)] "a >= 3" = Ok true
  /\ _evaluate_condition (F:=Empty_set) [("a", VInt 3)] "a>=3"
     = Raise (ValueError (InvalidCondition "a>=3")).
Proof. repeat split; vm_compute; reflexivity. Qed.

(** * Further properties of the engine *)

(** ** More on dictionaries *)

Section DictMore.

Variable V : Type.

Implicit Types (d other : dict V) (k : string) (v : V).

Lemma dict_In_key d k v : In (k, v) d -> In k (dict_keys d).
Proof. intros H. unfold dict_keys. change k with (fst (k, v)). now apply in_map. Qed.

Lemma dict_set_In d k0 v0 k v :
  In (k, v) (dict_set d k0 v0) -> (k, v) = (k0, v0) \/ In (k, v) d.
Proof.
  induction d as [| [k1 v1] d IH]; cbn [dict_set In].
  - intros [H | []]. left. now symmetry.
  - destruct (String.eqb_spec k1 k0) as [-> | _]; cbn [In].
    + intros [H | H]; [left; now symmetry | right; now right].
    + intros [H | H]; [right; now left |]. destruct (IH H); [now left | right; now right].
Qed.

Lemma dict_update_In d other k v :
  In (k, v) (dict_update d other) -> In (k, v) d \/ In (k, v) other.
Proof.
  unfold dict_update. revert d. induction other as [| [k0 v0] other IH]; intros d;
    cbn [fold_left fst snd In]; [now left |].
  intros H. destruct (IH _ H) as [H' | H']; [| right; now right].
  destruct (dict_set_In d k0 v0 k v H') as [-> | Hd]; [right; now left | now left].
Qed.

Lemma dict_update_get_other d other k :
  ~ In k (dict_keys other) -> dict_get (dict_update d other) k = dict_get d k.
Proof.
  unfold dict_update. revert d. induction other as [| [k0 v0] other IH]; intros d Hk;
    cbn [fold_left fst snd]; [reflexivity |].
  cbn [dict_keys map fst In] in Hk. rewrite IH by tauto.
  apply dict_get_set_other. tauto.
Qed.

(** With distinct keys on the right, merging binds each of them to its
    new value. *)
Lemma dict_update_get d other k v :
  NoDup (dict_keys other) -> dict_get other k = Some v ->
  dict_get (dict_update d other) k = Some v.
Proof.
  unfold dict_update. revert d. induction other as [| [k0 v0] other IH]; intros d Hnd;
    cbn [fold_left fst snd dict_get]; [discriminate |].
  cbn [dict_keys map fst] in Hnd. inversion Hnd as [| ? ? Hfresh Hnd']; subst.
  destruct (String.eqb_spec k0 k) as [-> | Hne].
  - intros [= ->].
    pose proof (dict_update_get_other (dict_set d k v) other k Hfresh) as H.
    unfold dict_update in H. rewrite H. apply dict_get_set_same.
  - intros H. now apply IH.
Qed.

Lemma dict_remove_get_same d k : NoDup (dict_keys d) -> dict_get (dict_remove d k) k = None.
Proof.
  induction d as [| [k0 v0] d IH]; cbn [dict_remove dict_keys map fst]; [reflexivity |].
  intros Hnd. inversion Hnd as [| ? ? Hfresh Hnd']; subst.
  destruct (String.eqb_spec k0 k) as [-> | Hne].
  - now apply dict_get_none.
  - cbn [dict_get]. apply String.eqb_neq in Hne. rewrite Hne. now apply IH.
Qed.

Lemma dict_remove_get_other d k k' :
  k <> k' -> dict_get (dict_remove d k) k' = dict_get d k'.
Proof.
  intros Hne. induction d as [| [k0 v0] d IH]; cbn [dict_remove dict_get]; [reflexivity |].
  destruct (String.eqb_spec k0 k) as [-> | Hne0]; cbn [dict_get].
  - apply String.eqb_neq in Hne. now rewrite Hne.
  - now rewrite IH.
Qed.

Lemma dict_remove_keys_subseq d k : subseq (dict_keys (dict_remove d k)) (dict_keys d).
Proof.
  induction d as [| [k0 v0] d IH]; cbn [dict_remove dict_keys map fst]; [apply subseq_nil |].
  destruct (String.eqb k0 k); cbn [map fst].
  - apply subseq_skip, subseq_refl.
  - now apply subseq_keep.
Qed.

Lemma dict_remove_keys_In d k k' :
  NoDup (dict_keys d) ->
  In k' (dict_keys (dict_remove d k)) <-> In k' (dict_keys d) /\ k' <> k.
Proof.
  intros Hnd. destruct (string_dec k' k) as [-> | Hne].
  - split; [| tauto]. intros Hin. exfalso.
    apply (proj1 (dict_get_none V (dict_remove d k) k)); [| exact Hin].
    now apply dict_remove_get_same.
  - split.
    + intros Hin. split; [| exact Hne].
      apply (subseq_In _ _ _ k' (dict_remove_keys_subseq d k) Hin).
    + intros [Hin _].
      destruct (in_dec string_dec k' (dict_keys (dict_remove d k))) as [H | H]; [exact H |].
      apply dict_get_none in H. rewrite dict_remove_get_other in H by congruence.
      apply dict_get_none in H. contradiction.
Qed.

Lemma dict_set_NoDup d k v : NoDup (dict_keys d) -> NoDup (dict_keys (dict_set d k v)).
Proof.
  intros Hnd. rewrite dict_keys_set. unfold keys_step.
  destruct (existsb (String.eqb k) (dict_keys d)) eqn:E; [exact Hnd |].
  apply existsb_eqb_not_In in E. apply NoDup_app; repeat split; try exact Hnd.
  - constructor; [intros [] | constructor].
  - intros x Hx [<- | []]. contradiction.
Qed.

End DictMore.

(** ** update, when it raises *)

Section UpdateErrors.

Context {F : Type} {PF : PyFloat F}.

Implicit Types (t : Table F) (r : row F) (values : dict (value F)).



End UpdateErrors.


(** ** Stored values and the declared types *)

Section TypedProps.

Context {F : Type} {PF : PyFloat F}.

Implicit Types (t : Table F) (values r : dict (value F)) (rs : list (row F)) (v : value F).

Lemma column_map_same_columns t (t' : Table F) :
  columns t' = columns t -> column_map t' = column_map t.
Proof. unfold column_map. now intros ->. Qed.

Lemma update_rows_elements values (w : option string) (n : Z) rs (r' : row F) :
  In r' (snd (update_rows values w n rs)) ->
  In r' rs \/ exists r, In r rs /\ r' = dict_update r values.
Proof.
  revert n. induction rs as [| r rs IH]; intros n; cbn [update_rows]; [intros [] |].
  destruct (match w with None => Ok true | Some w0 => _evaluate_where r w0 end)
    as [[|] | e].
  - specialize (IH (n + 1)). destruct (update_rows values w (n + 1) rs) as [res rs'].
    cbn [snd In] in *. intros [<- | H].
    + right. exists r. split; [now left | reflexivity].
    + destruct (IH H) as [H' | [r0 [H0 ->]]]; [left; now right |].
      right. exists r0. split; [now right | reflexivity].
  - specialize (IH n). destruct (update_rows values w n rs) as [res rs'].
    cbn [snd In] in *. intros [<- | H]; [left; now left |].
    destruct (IH H) as [H' | [r0 [H0 ->]]]; [left; now right |].
    right. exists r0. split; [now right | reflexivity].
  - cbn [snd]. now left.
Qed.

Lemma validated_pairs_accepted t r (k : string) v (col : Column) :
  _validate_types t r = Ok tt -> In (k, v) r ->
  dict_get (column_map t) k = Some col -> type_accepts (data_type col) v = true.
Proof.
  intros Hval Hin Hcol.
  pose proof (proj1 (validate_types_ok t r) Hval k v Hin) as H.
  rewrite (validate_item_accepts t k v col Hcol) in H.
  destruct (type_accepts (data_type col) v); [reflexivity | discriminate].
Qed.

Lemma rows_typed_insert t values : rows_typed t -> rows_typed (snd (insert t values)).
Proof.
  intros Ht. unfold insert.
  destruct (_validate_types t (materialise t values)) as [[] | e] eqn:Hval; [| exact Ht].
  destruct (dict_get (materialise t values) (primary_key t)) as [pk_val |]; [| exact Ht].
  destruct (check_unique (primary_key t) pk_val (rows t)); [| exact Ht].
  intros r k v col Hr Hin Hcol. cbn [snd rows] in Hr.
  change (dict_get (column_map t) k = Some col) in Hcol.
  apply in_app_or in Hr as [Hr | [<- | []]].
  - now apply (Ht r k v col).
  - now apply (validated_pairs_accepted t (materialise t values) k v col).
Qed.

Lemma rows_typed_update t values (w : option string) :
  rows_typed t -> rows_typed (snd (update t values w)).
Proof.
  intros Ht. unfold update.
  destruct (validate_update t values) as [[] | e] eqn:E; [| exact Ht].
  apply validate_update_ok in E as [_ Hval].
  pose proof (update_rows_elements values w 0 (rows t)) as Hel.
  destruct (update_rows values w 0 (rows t)) as [res rs]. cbn [snd] in *.
  intros r k v col Hr Hin Hcol. cbn [rows set_rows] in Hr.
  change (dict_get (column_map t) k = Some col) in Hcol.
  destruct (Hel r Hr) as [Hold | [r0 [Hr0 ->]]]; [now apply (Ht r k v col) |].
  destruct (dict_update_In _ r0 values k v Hin) as [H | H].
  - now apply (Ht r0 k v col).
  - now apply (validated_pairs_accepted t values k v col).
Qed.

Lemma rows_typed_delete t (w : option string) :
  rows_typed t -> rows_typed (snd (delete t w)).
Proof.
  intros Ht. unfold delete. destruct w as [w |].
  - destruct (filter_rows false w (rows t)) as [new_rows | e] eqn:E; [| exact Ht].
    intros r k v col Hr Hin Hcol. cbn [snd rows set_rows] in Hr.
    change (dict_get (column_map t) k = Some col) in Hcol.
    apply (Ht r k v col); auto.
    apply (subseq_In _ new_rows (rows t) r); [| exact Hr].
    now apply (filter_rows_subseq false w).
  - intros r k v col [].
Qed.

Lemma reachable_typed t : reachable t -> rows_typed t.
Proof.
  induction 1 as [nm cols pk t Hinit | t values _ IH | t values w _ IH | t w _ IH].
  - unfold Table_init in Hinit. destruct (dict_mem (column_map_of cols) pk);
      [| discriminate]. injection Hinit as <-. intros r k v col [].
  - now apply rows_typed_insert.
  - now apply rows_typed_update.
  - now apply rows_typed_delete.
Qed.

(** X1. Whatever calls a table has been through, each value of each stored row
    sits under a declared column and is null or of the kind the column
    declares: an instance of [int] under INTEGER, of [int] or [float] under
    REAL, of [str] under TEXT. *)
Theorem stored_values_match_declared_types t r (k : string) v :
  reachable t -> In r (rows t) -> dict_get r k = Some v ->
  exists col,
    dict_get (column_map t) k = Some col
    /\ (v = VNone
        \/ match data_type col with
           | INTEGER => isinstance_int v = true
           | REAL => (isinstance_int v || isinstance_float v)%bool = true
           | TEXT => isinstance_str v = true
           end).
Proof.
  intros Hreach Hr Hget.
  destruct (reachable_well_shaped t Hreach) as [_ Hshape]. rewrite Forall_forall in Hshape.
  assert (Hk : In k (map name (columns t))).
  { apply keys_in_order_In. rewrite <- (Hshape r Hr).
    apply (dict_In_key _ r k v). now apply dict_get_In. }
  apply column_map_mem in Hk. unfold dict_mem in Hk.
  destruct (dict_get (column_map t) k) as [col |] eqn:Hcol; [| discriminate].
  exists col. split; [reflexivity |].
  pose proof (reachable_typed t Hreach r k v col Hr (dict_get_In _ r k v Hget) Hcol) as H.
  destruct v as [| b | z | x | s]; [now left | right ..];
    destruct (data_type col); try discriminate H; reflexivity.
Qed.

End TypedProps.

Lemma two_students_reachable : reachable two_students.
Proof.
  unfold two_students, insert_all. cbn [fold_left].
  apply reach_insert, reach_insert.
  apply (reach_init "students" students_columns "id"). reflexivity.
Qed.

Lemma stored_values_match_declared_types_witness :
  exists col, dict_get (column_map two_students) "age" = Some col
              /\ data_type col = INTEGER.
Proof.
  destruct (stored_values_match_declared_types two_students
              [("id", VInt 2); ("name", VStr "Bob"); ("age", VInt 17)] "age" (VInt 17)
              two_students_reachable) as [col [Hcol _]].
  - vm_compute. auto.
  - reflexivity.
  - exists col. split; [exact Hcol |].
    vm_compute in Hcol. injection Hcol as <-. reflexivity.
Defined.

(** ** select: projection and column checks *)

Section SelectProps.

Context {F : Type} {PF : PyFloat F}.

Implicit Types (t : Table F) (r p : row F) (rs : list (row F)).

Lemma project_from_has (acc : row F) r (cols : list string) p :
  project_from acc r cols = Ok p -> forall c, In c cols -> dict_get r c <> None.
Proof.
  revert acc. induction cols as [| c0 cols IH]; intros acc H c Hc; [contradiction |].
  cbn [project_from] in H. destruct (dict_get r c0) as [v |] eqn:E; [| discriminate].
  destruct Hc as [<- | Hc]; [congruence |]. now apply (IH _ H).
Qed.

(** What a projected row holds. *)
Lemma project_ok r (cols : list string) p :
  project r cols = Ok p ->
  dict_keys p = keys_in_order cols
  /\ forall c, In c cols -> dict_get p c = dict_get r c /\ dict_get r c <> None.
Proof.
  intros H. pose proof (project_from_has [] r cols p H) as Hhas.
  destruct (project_from_spec [] r cols Hhas) as [p' [Hp' [Hkeys [Hin _]]]].
  unfold project in H. rewrite H in Hp'. injection Hp' as <-.
  split; [exact Hkeys |]. intros c Hc. split; [now apply Hin | now apply Hhas].
Qed.

Lemma project_all_each (cols : list string) rs (ps : list (row F)) :
  project_all cols rs = Ok ps -> Forall2 (fun r p => project r cols = Ok p) rs ps.
Proof.
  revert ps. induction rs as [| r rs IH]; intros ps; cbn [project_all].
  - intros [= <-]. constructor.
  - destruct (project r cols) as [p | e] eqn:Hp; cbn [bind]; [| discriminate].
    destruct (project_all cols rs) as [ps' | e]; cbn [bind]; [| discriminate].
    intros [= <-]. constructor; [exact Hp | now apply IH].
Qed.

(** The rows [select] goes on to project. *)
Lemma select_ok t (cols : option (list string)) (w : option string) (res : list (row F)) :
  select t cols w = Ok res ->
  let cs := match cols with None => map name (columns t) | Some l => l end in
  let kept :=
    match w with
    | Some c => if truthy c then filter (where_true c) (rows t) else rows t
    | None => rows t
    end in
  check_columns t cs = Ok tt /\ project_all cs kept = Ok res.
Proof.
  intros H cs kept. unfold select in H. fold cs in H.
  destruct (check_columns t cs) as [[] | e]; cbn [bind] in H; [| discriminate].
  split; [reflexivity |].
  assert (Hf : match w with
               | Some c => if truthy c then filter_rows true c (rows t) else Ok (rows t)
               | None => Ok (rows t)
               end = Ok kept \/
               exists e, match w with
                         | Some c => if truthy c then filter_rows true c (rows t)
                                     else Ok (rows t)
                         | None => Ok (rows t)
                         end = Raise e).
  { unfold kept. destruct w as [c |]; [| now left]. destruct (truthy c); [| now left].
    destruct (filter_rows true c (rows t)) as [k | e] eqn:E; [| right; now exists e].
    left. apply filter_rows_ok in E as [_ ->]. f_equal. apply filter_ext.
    intros r. now destruct (where_true c r). }
  destruct Hf as [Hf | [e Hf]]; rewrite Hf in H; cbn [bind] in H; [exact H | discriminate].
Qed.

(** X2. [select] returns, for each row that satisfies the condition (for each
    stored row when there is none, or an empty one), in storage order, a
    row holding exactly the requested columns, in the order requested and
    each once, with the stored values. On a table the engine can reach it
    does return whenever the requested columns are declared and the
    condition evaluates on every row. *)
Theorem select_projects_matching_rows t (cols : option (list string))
    (w : option string) :
  let cs := match cols with None => map name (columns t) | Some l => l end in
  let kept :=
    match w with
    | Some c => if truthy c then filter (where_true c) (rows t) else rows t
    | None => rows t
    end in
  (forall res, select t cols w = Ok res ->
     Forall2 (fun r p =>
                dict_keys p = keys_in_order cs
                /\ forall c, In c cs -> dict_get p c = dict_get r c /\ dict_get r c <> None)
             kept res)
  /\ (reachable t -> (forall c, In c cs -> In c (map name (columns t))) ->
      (forall c r, w = Some c -> In r (rows t) -> exists b, _evaluate_where r c = Ok b) ->
      exists res, select t cols w = Ok res /\ List.length res = List.length kept).
Proof.
  intros cs kept. split.
  - intros res Hsel. destruct (select_ok t cols w res Hsel) as [_ Hproj].
    fold cs kept in Hproj. apply project_all_each in Hproj. clear Hsel.
    induction Hproj as [| r p rs ps Hp _ IH]; [constructor |].
    constructor; [now apply project_ok | exact IH].
  - intros Hreach Hcs Hw. pose proof (reachable_well_shaped t Hreach) as Hws.
    assert (Hsub : subseq kept (rows t)).
    { unfold kept. destruct w as [c |]; [| apply subseq_refl].
      destruct (truthy c); [apply filter_subseq | apply subseq_refl]. }
    destruct (project_all_total cs kept) as [res Hres].
    { apply (subseq_Forall _ _ kept (rows t) Hsub). apply Forall_forall.
      intros r Hr c Hc. apply (well_shaped_has t r c Hws Hr). now apply Hcs. }
    exists res. split.
    + unfold select. fold cs. rewrite (proj2 (check_columns_ok t cs) Hcs). cbn [bind].
      assert (Hf : match w with
                   | Some c => if truthy c then filter_rows true c (rows t)
                               else Ok (rows t)
                   | None => Ok (rows t)
                   end = Ok kept).
      { unfold kept. destruct w as [c |]; [| reflexivity].
        destruct (truthy c); [| reflexivity].
        rewrite (filter_rows_total true c (rows t)).
        - f_equal. apply filter_ext. intros r. now destruct (where_true c r).
        - apply Forall_forall. intros r Hr. now apply (Hw c r). }
      rewrite Hf. cbn [bind]. exact Hres.
    + apply project_all_each in Hres. symmetry. now apply (Forall2_length Hres).
Qed.

(** X3. When some requested column is not declared, [select] raises
    [UnknownColumnError] for the first of them in the order requested,
    whatever comes after it in the request, and before the condition is
    looked at: whatever the condition is, well formed or not, and whatever
    the rows hold. *)
Theorem select_checks_columns_first t (declared later : list string) (bad : string) :
  (forall c, In c declared -> In c (map name (columns t))) ->
  ~ In bad (map name (columns t)) ->
  forall w, select t (Some (declared ++ bad :: later)) w = Raise (UnknownColumnError bad).
Proof.
  intros Hdecl Hbad w.
  assert (E : check_columns t (declared ++ bad :: later) = Raise (UnknownColumnError bad)).
  { induction declared as [| c declared IH]; cbn [app check_columns].
    - destruct (dict_mem (column_map t) bad) eqn:Hmem; [| reflexivity].
      apply column_map_mem in Hmem. contradiction.
    - rewrite (proj2 (column_map_mem t c) (Hdecl c (or_introl eq_refl))). cbn [negb].
      apply IH. intros c' Hc'. apply Hdecl. now right. }
  unfold select. now rewrite E.
Qed.

End SelectProps.

Lemma select_projects_matching_rows_witness :
  exists res, select two_students (Some ["name"; "id"]%string) (Some "age >= 18"%string)
              = Ok res /\ List.length res = 1%nat.
Proof.
  destruct (proj2 (select_projects_matching_rows two_students
                     (Some ["name"; "id"]%string) (Some "age >= 18"%string))
              two_students_reachable) as [res [Hres Hlen]].
  - intros c [<- | [<- | []]]; vm_compute; auto.
  - intros c r [= <-] Hr. vm_compute in Hr.
    destruct Hr as [<- | [<- | []]]; eexists; vm_compute; reflexivity.
  - exists res. split; [exact Hres | exact Hlen].
Defined.

Lemma select_checks_columns_first_witness :
  select two_students (Some ["name"; "email"; "age"; "phone"]%string)
    (Some "no operator here"%string)
  = Raise (UnknownColumnError "email").
Proof.
  apply (select_checks_columns_first two_students ["name"]%string
           ["age"; "phone"]%string "email"%string).
  - intros c [<- | []]. vm_compute. auto.
  - vm_compute. intuition discriminate.
Defined.

(** ** update and delete, when they return *)

Section UpdateProps.

Context {F : Type} {PF : PyFloat F}.

Implicit Types (t : Table F) (values r : dict (value F)) (rs : list (row F)) (v : value F).

Lemma set_rows_same t : set_rows t (rows t) = t.
Proof. now destruct t. Qed.

Lemma update_rows_total values (w : option string) (test : row F -> bool) (n : Z) rs :
  (forall r, In r rs ->
     match w with None => Ok true | Some c => _evaluate_where r c end = Ok (test r)) ->
  update_rows values w n rs =
  (Ok (n + Z.of_nat (List.length (filter test rs))),
   map (fun r : row F => if test r then dict_update r values else r) rs).
Proof.
  revert n. induction rs as [| r rs IH]; intros n Htest; cbn [update_rows filter map].
  - cbn. now rewrite Z.add_0_r.
  - rewrite (Htest r (or_introl eq_refl)).
    assert (Hrest : forall r', In r' rs ->
              match w with None => Ok true | Some c => _evaluate_where r' c end
              = Ok (test r')) by (intros r' Hr'; apply Htest; now right).
    destruct (test r).
    + rewrite (IH (n + 1) Hrest). cbn [List.length]. f_equal. f_equal. lia.
    + rewrite (IH n Hrest). reflexivity.
Qed.


(** *** What the condition evaluator can raise *)

Lemma evaluate_condition_errors (r : row F) (c : string) (e : exn) :
  _evaluate_condition r c = Raise e ->
  forall pk shown, e <> UniqueConstraintError pk shown.
Proof.
  unfold _evaluate_condition, UniqueConstraintError. intros H pk shown ->.
  destruct (contains " LIKE " (strip c)).
  - unfold evaluate_like in H.
    destruct (split " LIKE " (strip c)) as [| lhs [| rhs [| x l]]]; try discriminate H.
    destruct (dict_get r (strip lhs)); [| discriminate H].
    unfold re_match_anchored in H.
    destruct (negb _); [discriminate H |]. destruct (re_parse _); discriminate H.
  - assert (Hops : forall ops, evaluate_ops r (strip c) ops
                     <> Raise (ValueError (PrimaryKeyViolation pk shown))).
    { induction ops as [| op ops IH]; cbn [evaluate_ops]; [discriminate |].
      destruct (contains (spaced (op_text op)) (strip c)); [| exact IH].
      unfold evaluate_comparison.
      destruct (split (spaced (op_text op)) (strip c)) as [| lhs [| rhs [| x l]]];
        try discriminate.
      destruct (dict_get r (strip lhs)) as [v |]; [| discriminate].
      unfold apply_op, py_gt, py_lt, py_ge, py_le.
      destruct op; try discriminate;
        destruct (py_order v _) as [o | e'] eqn:E; cbn [bind]; try discriminate;
        intros [= ->]; unfold py_order in E;
        repeat match type of E with
               | match ?x with _ => _ end = _ => destruct x; try discriminate E
               end. }
    now apply (Hops comparison_ops).
Qed.

Lemma evaluate_where_errors (r : row F) (w : string) (e : exn) :
  _evaluate_where r w = Raise e -> forall pk shown, e <> UniqueConstraintError pk shown.
Proof.
  unfold _evaluate_where. induction (map strip (split " AND " w)) as [| c cs IH];
    cbn [evaluate_all]; [discriminate |].
  destruct (_evaluate_condition r c) as [b | e0] eqn:E; cbn [bind].
  - destruct b; cbn [negb]; [exact IH | discriminate].
  - intros [= <-]. now apply (evaluate_condition_errors r c).
Qed.

(** X5. [update] does not look at the primary key: none of its errors is
    [UniqueConstraintError], and a call that sets the key column on two or
    more rows leaves rows that share their key. *)
Theorem update_skips_uniqueness t values (w : option string) :
  (forall e, fst (update t values w) = Raise e ->
     forall pk shown, e <> UniqueConstraintError pk shown)
  /\ (forall v r1 r2 (rs : list (row F)),
        rows t = r1 :: r2 :: rs ->
        validate_update t values = Ok tt -> NoDup (dict_keys values) ->
        dict_get values (primary_key t) = Some v -> py_eq v v = true ->
        fst (update t values None) = Ok (Z.of_nat (List.length (rows t)))
        /\ ~ pk_distinct (primary_key t) (rows (snd (update t values None)))).
Proof.
  split.
  - intros e He pk shown. unfold update in He.
    destruct (validate_update t values) as [[] | e0] eqn:Hv.
    + destruct (update_rows values w 0 (rows t)) as [res rs'] eqn:Hu.
      cbn [fst] in He. subst res.
      destruct (update_rows_raised values w 0 (rows t) e rs' Hu)
        as [ws [pre [r [post [pre' [_ [_ [_ [_ [_ Hr]]]]]]]]]].
      now apply (evaluate_where_errors r ws).
    + cbn [fst] in He. injection He as ->. unfold validate_update in Hv.
      destruct (check_columns t (dict_keys values)) as [[] | e1] eqn:Hc; cbn [bind] in Hv.
      * destruct (validate_types_raises t values e Hv) as [k [x [col [_ [_ [_ ->]]]]]].
        discriminate.
      * injection Hv as <-. destruct (check_columns_raises t _ e1 Hc) as [c [_ [_ ->]]].
        discriminate.
  - intros v r1 r2 rs Hrows Hval Hnd Hget Heq. unfold update. rewrite Hval.
    rewrite (update_rows_total values None (fun _ => true) 0 (rows t))
      by (intros; reflexivity).
    cbn [fst snd rows set_rows]. split.
    + f_equal. cbn [Z.add]. f_equal. f_equal. clear. induction (rows t) as [| r l IH];
        cbn [filter List.length]; [reflexivity | now rewrite IH].
    + rewrite Hrows. cbn [map]. intros Hd.
      destruct (Hd 0%nat 1%nat _ _ (Nat.lt_0_1) eq_refl eq_refl)
        as [v1 [v2 [H1 [H2 Hne]]]].
      rewrite (dict_update_get _ r1 values _ v Hnd Hget) in H1.
      rewrite (dict_update_get _ r2 values _ v Hnd Hget) in H2.
      injection H1 as <-. injection H2 as <-. congruence.
Qed.

(** *** insert and undeclared keys *)

Lemma fold_left_pointwise_in (A B : Type) (f g : A -> B -> A) (l : list B) (a : A) :
  (forall a b, In b l -> f a b = g a b) -> fold_left f l a = fold_left g l a.
Proof.
  revert a. induction l as [| b l IH]; intros a H; cbn [fold_left]; [reflexivity |].
  rewrite (H a b (or_introl eq_refl)). apply IH. intros a' b' Hb'. apply H. now right.
Qed.

(** X6. [insert] reads the supplied values through the declared columns only:
    two mappings that agree on every declared column give the same call, so
    a key that names no column is dropped without a word. [update], given
    such a key, raises [UnknownColumnError] and changes nothing. *)
Theorem insert_ignores_undeclared_keys t (values values' : dict (value F)) :
  (forall col, In col (columns t) ->
     dict_get values (name col) = dict_get values' (name col)) ->
  insert t values = insert t values'
  /\ (forall k w, In k (dict_keys values) -> ~ In k (map name (columns t)) ->
        exists c, ~ In c (map name (columns t))
                  /\ update t values w = (Raise (UnknownColumnError c), t)).
Proof.
  intros Hagree. split.
  - assert (Hm : materialise t values = materialise t values').
    { rewrite !materialise_cells. apply fold_left_pointwise_in.
      intros a col Hcol. unfold cell. now rewrite (Hagree col Hcol). }
    unfold insert. now rewrite Hm.
  - intros k w Hk Hbad.
    destruct (check_columns t (dict_keys values)) as [[] | e] eqn:E.
    + exfalso. apply Hbad. now apply (proj1 (check_columns_ok t _) E).
    + destruct (check_columns_raises t _ e E) as [c [_ [Hmem ->]]].
      exists c. split.
      * intros H. apply column_map_mem in H. congruence.
      * unfold update, validate_update. now rewrite E.
Qed.

(** *** delete, then the same condition again *)

Lemma filter_rows_none (keep : bool) (w : string) rs :
  Forall (fun r => _evaluate_where r w = Ok (negb keep)) rs ->
  filter_rows keep w rs = Ok [].
Proof.
  induction 1 as [| r rs Hr _ IH]; cbn [filter_rows]; [reflexivity |].
  rewrite Hr, IH. cbn [bind]. now destruct keep.
Qed.

Lemma filter_rows_all (keep : bool) (w : string) rs :
  Forall (fun r => _evaluate_where r w = Ok keep) rs ->
  filter_rows keep w rs = Ok rs.
Proof.
  induction 1 as [| r rs Hr _ IH]; cbn [filter_rows]; [reflexivity |].
  rewrite Hr, IH. cbn [bind]. now destruct keep.
Qed.

(** X7. After a [delete] that returned, no row is left on which its condition
    is true: [select] with the same condition returns nothing, and a second
    [delete] with it removes nothing and returns 0. *)
Theorem delete_leaves_no_match t (w : string) (n : Z) (t' : Table F) :
  delete t (Some w) = (Ok n, t') ->
  Forall (fun r => _evaluate_where r w = Ok false) (rows t')
  /\ select t' None (Some w) = Ok []
  /\ delete t' (Some w) = (Ok 0, t').
Proof.
  unfold delete at 1. destruct (filter_rows false w (rows t)) as [kept | e] eqn:E;
    [| discriminate].
  intros [= <- <-]. apply filter_rows_ok in E as [Hall ->].
  assert (Hleft : Forall (fun r => _evaluate_where r w = Ok false)
                    (filter (fun r : row F => Bool.eqb (where_true w r) false) (rows t))).
  { apply Forall_forall. intros r Hr. apply filter_In in Hr as [Hr Hf].
    rewrite Forall_forall in Hall. destruct (Hall r Hr) as [b Hb].
    unfold where_true in Hf. rewrite Hb in Hf. now destruct b. }
  cbn [rows set_rows]. split; [exact Hleft |]. split.
  - unfold select.
    assert (Hc : check_columns (set_rows t (filter (fun r : row F =>
                   Bool.eqb (where_true w r) false) (rows t)))
                   (map name (columns (set_rows t (filter (fun r : row F =>
                   Bool.eqb (where_true w r) false) (rows t))))) = Ok tt)
      by (apply check_columns_ok; auto).
    rewrite Hc. cbn [bind rows set_rows].
    destruct (truthy w) eqn:Ht.
    + rewrite (filter_rows_none true w _ Hleft). reflexivity.
    + destruct w; [| discriminate Ht].
      destruct (filter (fun r : row F => Bool.eqb (where_true "" r) false) (rows t))
        as [| r rs]; [reflexivity |].
      inversion Hleft as [| ? ? Hr _]; subst. vm_compute in Hr. discriminate Hr.
  - unfold delete. cbn [rows set_rows].
    rewrite (filter_rows_all false w _ Hleft). cbn. rewrite Z.sub_diag.
    now destruct t.
Qed.

(** X8. An empty condition string is no condition for [select], which returns
    every row, but a malformed one for [delete] and [update]: on a table
    with rows they raise [MalformedPredicateError] and change nothing. *)
Theorem empty_condition_string t (r : row F) (rs : list (row F)) :
  rows t = r :: rs ->
  (forall cols, select t cols (Some ""%string) = select t cols None)
  /\ delete t (Some ""%string) = (Raise (ValueError (InvalidCondition "")), t)
  /\ (forall values, validate_update t values = Ok tt ->
        update t values (Some ""%string) = (Raise (ValueError (InvalidCondition "")), t))
  /\ MalformedPredicateError (InvalidCondition "").
Proof.
  intros Hrows.
  assert (He : _evaluate_where r "" = Raise (ValueError (InvalidCondition ""))) by reflexivity.
  split; [reflexivity |]. split; [| split].
  - unfold delete. rewrite Hrows. cbn [filter_rows]. rewrite He. reflexivity.
  - intros values Hval. unfold update. rewrite Hval, Hrows. cbn [update_rows].
    rewrite He. rewrite <- Hrows. now rewrite set_rows_same.
  - exists ""%string. now right.
Qed.

End UpdateProps.


Lemma update_skips_uniqueness_witness :
  fst (update two_students [("id", VInt 7)] None) = Ok 2
  /\ ~ pk_distinct "id" (rows (snd (update two_students [("id", VInt 7)] None))).
Proof.
  exact (proj2 (update_skips_uniqueness two_students [("id", VInt 7)] None)
           (VInt 7) _ _ [] eq_refl eq_refl
           (NoDup_cons "id"%string (fun H : In "id"%string [] => H) (NoDup_nil string))
           eq_refl eq_refl).
Defined.

Lemma insert_ignores_undeclared_keys_witness :
  insert two_students [("name", VStr "Dan"); ("nickname", VStr "D")]
  = insert two_students [("name", VStr "Dan")].
Proof.
  refine (proj1 (insert_ignores_undeclared_keys two_students
                   [("name", VStr "Dan"); ("nickname", VStr "D")]
                   [("name", VStr "Dan")] _)).
  intros col Hcol. vm_compute in Hcol.
  destruct Hcol as [<- | [<- | [<- | []]]]; reflexivity.
Defined.

Lemma delete_leaves_no_match_witness :
  select (snd (delete two_students (Some "age < 18"%string))) None (Some "age < 18"%string)
  = Ok [].
Proof.
  exact (proj1 (proj2 (delete_leaves_no_match two_students "age < 18" 1
                         (snd (delete two_students (Some "age < 18"%string))) eq_refl))).
Defined.

Lemma empty_condition_string_witness :
  delete two_students (Some ""%string)
  = (Raise (ValueError (InvalidCondition "")), two_students).
Proof.
  exact (proj1 (proj2 (empty_condition_string two_students
                         [("id", VInt 1); ("name", VStr "Alice"); ("age", VInt 20)]
                         [ [("id", VInt 2); ("name", VStr "Bob"); ("age", VInt 17)] ]
                         eq_refl))).
Defined.

(** ** Generated keys *)

Section AutoKeyProps.

Context {F : Type} {PF : PyFloat F}.

Implicit Types (t : Table F) (values r : dict (value F)) (rs : list (row F)) (v : value F).

Lemma subseq_StronglySorted (A : Type) (R : A -> A -> Prop) (l1 l2 : list A) :
  subseq l1 l2 -> StronglySorted R l2 -> StronglySorted R l1.
Proof.
  induction 1 as [| x l1 l2 Hsub IH | x l1 l2 Hsub IH]; intros Hs; [exact Hs | |].
  - inversion Hs; subst. auto.
  - inversion Hs as [| ? ? Hs' Hall]; subst. constructor; [auto |].
    now apply (subseq_Forall _ _ l1 l2).
Qed.

Lemma StronglySorted_snoc (A : Type) (R : A -> A -> Prop) (l : list A) (x : A) :
  StronglySorted R l -> Forall (fun y => R y x) l -> StronglySorted R (l ++ [x]).
Proof.
  induction 1 as [| y l Hs IH Hall]; intros Hx; cbn [app].
  - constructor; constructor.
  - inversion Hx; subst. constructor; [auto |].
    apply Forall_app. split; [exact Hall | now constructor].
Qed.

Lemma dict_mem_false_keys (values : dict (value F)) (k : string) :
  dict_mem values k = false -> ~ In k (dict_keys values).
Proof.
  intros H Hin. apply dict_mem_In in Hin. congruence.
Qed.

(** Without the key among the supplied values, the materialised row has
    [next_id] for its key. *)
Lemma materialise_generates_key t values :
  key_flagged (columns t) (primary_key t) -> dict_mem values (primary_key t) = false ->
  dict_get (materialise t values) (primary_key t) = Some (VInt (next_id t)).
Proof.
  intros [Hnd [col [Hcol [Hname Hflag]]]] Hmem. rewrite materialise_cells, <- Hname.
  rewrite (fold_cells_get t values (columns t) [] col Hnd Hcol).
  unfold cell. unfold dict_mem in Hmem. rewrite Hname.
  destruct (dict_get values (primary_key t)); [discriminate |]. now rewrite Hflag.
Qed.

Lemma check_unique_fresh (pk : string) (k : Z) rs :
  Forall (key_below pk k) rs -> check_unique pk (VInt k) rs = Ok tt.
Proof.
  induction 1 as [| r rs [k0 [Hk0 Hlt]] _ IH]; cbn [check_unique]; [reflexivity |].
  unfold int_key in Hk0. destruct (dict_get r pk) as [[| | z | |] |]; try discriminate Hk0.
  injection Hk0 as ->. cbn [py_eq int_value].
  replace (Z.eqb k0 k) with false by (symmetry; apply Z.eqb_neq; lia). exact IH.
Qed.

Lemma auto_keyed_insert t values :
  key_flagged (columns t) (primary_key t) -> dict_mem values (primary_key t) = false ->
  auto_keyed t -> auto_keyed (snd (insert t values)).
Proof.
  intros Hflag Hmem [Hone [Hbelow Hsorted]]. unfold insert.
  destruct (_validate_types t (materialise t values)); [| now repeat split].
  rewrite (materialise_generates_key t values Hflag Hmem).
  rewrite (check_unique_fresh (primary_key t) (next_id t) (rows t) Hbelow).
  cbn [snd]. unfold auto_keyed. cbn [next_id primary_key rows].
  assert (Hnew : int_key (primary_key t) (materialise t values) = Some (next_id t)).
  { unfold int_key. now rewrite (materialise_generates_key t values Hflag Hmem). }
  split; [lia |]. split.
  - apply Forall_app. split.
    + apply (Forall_impl _ (P := key_below (primary_key t) (next_id t))); [| exact Hbelow].
      intros r [k [Hk Hlt]]. exists k. split; [exact Hk | lia].
    + constructor; [| constructor]. exists (next_id t). split; [exact Hnew | lia].
  - apply StronglySorted_snoc; [exact Hsorted |].
    apply (Forall_impl _ (P := key_below (primary_key t) (next_id t))); [| exact Hbelow].
    intros r [k [Hk Hlt]]. exists k, (next_id t). repeat split; auto. lia.
Qed.

Lemma update_rows_keys values (w : option string) (n : Z) rs (pk : string) :
  dict_mem values pk = false ->
  Forall2 (fun r r' => int_key pk r' = int_key pk r) rs (snd (update_rows values w n rs)).
Proof.
  intros Hmem. revert n. induction rs as [| r rs IH]; intros n; cbn [update_rows];
    [constructor |].
  assert (Hsame : forall x, Forall2 (fun r r' => int_key pk r' = int_key pk r) x x)
    by (induction x; constructor; auto).
  destruct (match w with None => Ok true | Some w0 => _evaluate_where r w0 end)
    as [[|] | e].
  - specialize (IH (n + 1)). destruct (update_rows values w (n + 1) rs) as [res rs'].
    cbn [snd] in *. constructor; [| exact IH]. unfold int_key.
    now rewrite (dict_update_get_other _ r values pk (dict_mem_false_keys values pk Hmem)).
  - specialize (IH n). destruct (update_rows values w n rs) as [res rs'].
    cbn [snd] in *. now constructor.
  - cbn [snd]. apply Hsame.
Qed.

Lemma Forall2_keys_Forall (pk : string) (bound : Z) (rs rs' : list (row F)) :
  Forall2 (fun r r' => int_key pk r' = int_key pk r) rs rs' ->
  Forall (key_below pk bound) rs -> Forall (key_below pk bound) rs'.
Proof.
  induction 1 as [| r r' rs rs' Hk _ IH]; intros H; [constructor |].
  inversion H as [| ? ? [k [Hr Hlt]] Hrest]; subst. constructor; [| auto].
  exists k. split; [congruence | exact Hlt].
Qed.

Lemma Forall2_keys_sorted (pk : string) (rs rs' : list (row F)) :
  Forall2 (fun r r' => int_key pk r' = int_key pk r) rs rs' ->
  StronglySorted (key_before pk) rs -> StronglySorted (key_before pk) rs'.
Proof.
  induction 1 as [| r r' rs rs' Hk Hrest IH]; intros H; [constructor |].
  inversion H as [| ? ? Hs Hall]; subst. constructor; [auto |].
  clear IH H Hs. induction Hrest as [| x x' l l' Hx _ IHl]; [constructor |].
  inversion Hall as [| ? ? [k1 [k2 [H1 [H2 Hlt]]]] Hall']; subst.
  constructor; [| auto]. exists k1, k2. repeat split; congruence.
Qed.

Lemma auto_keyed_update t values (w : option string) :
  dict_mem values (primary_key t) = false ->
  auto_keyed t -> auto_keyed (snd (update t values w)).
Proof.
  intros Hmem [Hone [Hbelow Hsorted]]. unfold update.
  destruct (validate_update t values); [| now repeat split].
  pose proof (update_rows_keys values w 0 (rows t) (primary_key t) Hmem) as Hk.
  destruct (update_rows values w 0 (rows t)) as [res rs']. cbn [snd] in *.
  unfold auto_keyed. cbn [next_id primary_key rows set_rows]. split; [exact Hone |]. split.
  - now apply (Forall2_keys_Forall _ _ (rows t)).
  - now apply (Forall2_keys_sorted _ (rows t)).
Qed.

Lemma auto_keyed_delete t (w : option string) :
  auto_keyed t -> auto_keyed (snd (delete t w)).
Proof.
  intros [Hone [Hbelow Hsorted]]. unfold delete. destruct w as [w |].
  - destruct (filter_rows false w (rows t)) as [kept | e] eqn:E; [| now repeat split].
    apply filter_rows_subseq in E. cbn [snd]. unfold auto_keyed.
    cbn [next_id primary_key rows set_rows]. split; [exact Hone |]. split.
    + now apply (subseq_Forall _ _ kept (rows t)).
    + now apply (subseq_StronglySorted _ _ kept (rows t)).
  - cbn [snd]. unfold auto_keyed. cbn [next_id primary_key rows set_rows].
    split; [exact Hone |]. split; constructor.
Qed.

Lemma after_call_schema t (c : call (F:=F)) :
  columns (after_call t c) = columns t /\ primary_key (after_call t c) = primary_key t.
Proof.
  destruct c as [values | values w | w]; cbn [after_call].
  - apply insert_schema.
  - unfold update. destruct (validate_update t values); [| now split].
    destruct (update_rows values w 0 (rows t)). now split.
  - unfold delete. destruct w as [w |]; [| now split].
    destruct (filter_rows false w (rows t)); now split.
Qed.

Lemma auto_keyed_calls t (calls : list (call (F:=F))) :
  key_flagged (columns t) (primary_key t) ->
  forallb (leaves_key (primary_key t)) calls = true ->
  auto_keyed t ->
  auto_keyed (after_calls t calls)
  /\ columns (after_calls t calls) = columns t
  /\ primary_key (after_calls t calls) = primary_key t.
Proof.
  revert t. induction calls as [| c calls IH]; intros t Hflag Hcalls Hauto;
    [split; [exact Hauto | split; reflexivity] |].
  cbn [forallb] in Hcalls. apply andb_true_iff in Hcalls as [Hc Hcalls].
  cbn [after_calls fold_left]. destruct (after_call_schema t c) as [Hcols Hpk].
  assert (Hstep : auto_keyed (after_call t c)).
  { destruct c as [values | values w | w]; cbn [after_call leaves_key] in *.
    - apply auto_keyed_insert; auto. now apply negb_true_iff.
    - apply auto_keyed_update; auto. now apply negb_true_iff.
    - now apply auto_keyed_delete. }
  destruct (IH (after_call t c)) as [H1 [H2 H3]]; auto.
  - now rewrite Hcols, Hpk.
  - now rewrite Hpk.
  - unfold after_calls in *. split; [exact H1 | split; congruence].
Qed.

(** X9. On a new table whose key column is the flagged one, as long as no call
    ever supplies a value for the key: the stored keys are integers from 1
    up, growing along the rows and all below [next_id], through inserts,
    updates and deletes alike; so an [insert] returns [next_id] as soon as
    its row passes type validation, and the only error it can raise is
    [TypeMismatchError], never [UniqueConstraintError]. *)
Theorem generated_keys_are_fresh (nm : string) (cols : list Column) (pk : string)
    (t0 : Table F) (calls : list (call (F:=F))) :
  Table_init nm cols pk = Ok t0 -> key_flagged cols pk ->
  forallb (leaves_key pk) calls = true ->
  let t := after_calls t0 calls in
  auto_keyed t
  /\ (forall values, dict_mem values pk = false ->
        _validate_types t (materialise t values) = Ok tt ->
        fst (insert t values) = Ok (VInt (next_id t)))
  /\ (forall values e, dict_mem values pk = false ->
        fst (insert t values) = Raise e ->
        exists k ty got, e = TypeMismatchError k ty got).
Proof.
  intros Hinit Hflag Hcalls t.
  assert (H0 : columns t0 = cols /\ primary_key t0 = pk /\ auto_keyed t0).
  { unfold Table_init in Hinit. destruct (dict_mem (column_map_of cols) pk);
      [| discriminate]. injection Hinit as <-. cbn [columns primary_key].
    split; [reflexivity | split; [reflexivity |]].
    unfold auto_keyed. cbn [next_id rows primary_key].
    split; [lia | split; constructor]. }
  destruct H0 as [Hc0 [Hp0 Ha0]].
  destruct (auto_keyed_calls t0 calls) as [Hauto [Hcols Hpk]];
    [now rewrite Hc0, Hp0 | now rewrite Hp0 | exact Ha0 |].
  fold t in Hauto, Hcols, Hpk.
  assert (Hflag' : key_flagged (columns t) (primary_key t)) by (now rewrite Hcols, Hpk, Hc0, Hp0).
  assert (Hpk' : primary_key t = pk) by congruence.
  assert (Hins : forall values, dict_mem values pk = false ->
            forall u, _validate_types t (materialise t values) = Ok u ->
            fst (insert t values) = Ok (VInt (next_id t))).
  { intros values Hmem u Hval. rewrite <- Hpk' in Hmem. unfold insert. rewrite Hval.
    rewrite (materialise_generates_key t values Hflag' Hmem).
    destruct Hauto as [_ [Hbelow _]].
    now rewrite (check_unique_fresh (primary_key t) (next_id t) (rows t) Hbelow). }
  split; [exact Hauto |]. split.
  - intros values Hmem Hval. now apply (Hins values Hmem tt).
  - intros values e Hmem He.
    destruct (_validate_types t (materialise t values)) as [u | e0] eqn:Hval.
    + rewrite (Hins values Hmem u Hval) in He. discriminate.
    + destruct (validate_types_raises t _ e0 Hval) as [k [v [col [_ [_ [_ ->]]]]]].
      unfold insert in He. rewrite Hval in He. cbn [fst] in He. injection He as <-.
      now exists k, (data_type col), (type_name v).
Qed.

(** X10. When a stored key equals [next_id] (it was supplied by a caller), an
    [insert] that leaves the key to be generated raises
    [UniqueConstraintError] once its row passes type validation; the table,
    [next_id] included, stays as it is, so the same call fails again however
    often it is repeated. *)
Theorem generated_key_collision_persists t values (n : nat) :
  well_shaped t -> key_flagged (columns t) (primary_key t) ->
  dict_mem values (primary_key t) = false ->
  _validate_types t (materialise t values) = Ok tt ->
  (exists r v', In r (rows t) /\ dict_get r (primary_key t) = Some v'
                /\ py_eq v' (VInt (next_id t)) = true) ->
  insert t values
    = (Raise (UniqueConstraintError (primary_key t) (str_of_int (next_id t))), t)
  /\ insert_all t (repeat values n) = t.
Proof.
  intros Hws Hflag Hmem Hval Hdup.
  assert (Hins : insert t values
            = (Raise (UniqueConstraintError (primary_key t) (str_of_int (next_id t))), t)).
  { unfold insert. rewrite Hval, (materialise_generates_key t values Hflag Hmem).
    rewrite (check_unique_collision (primary_key t) (VInt (next_id t)) (rows t));
      [reflexivity | | exact Hdup].
    intros r Hr. apply (well_shaped_has t r _ Hws Hr). now destruct Hws. }
  split; [exact Hins |].
  induction n as [| n IH]; [reflexivity |].
  cbn [repeat insert_all fold_left]. rewrite Hins. exact IH.
Qed.

End AutoKeyProps.

Lemma generated_keys_are_fresh_witness :
  fst (insert (after_calls students [CallInsert alice; CallDelete None; CallInsert bob])
         carol) = Ok (VInt 3).
Proof.
  refine (proj1 (proj2 (generated_keys_are_fresh "students" students_columns "id" students
                          [CallInsert alice; CallDelete None; CallInsert bob]
                          eq_refl _ eq_refl)) carol eq_refl eq_refl).
  split.
  - repeat constructor; cbn; intuition discriminate.
  - exists {| name := "id"; data_type := INTEGER; is_primary_key := true |}.
    repeat split. now left.
Defined.

Lemma generated_key_collision_persists_witness :
  let t := snd (insert students [("id", VInt 2); ("name", VStr "Eve")]) in
  insert t carol = (Raise (UniqueConstraintError "id" "2"), t)
  /\ insert_all t [carol; carol; carol] = t.
Proof.
  cbv zeta.
  refine (generated_key_collision_persists
            (snd (insert students [("id", VInt 2); ("name", VStr "Eve")])) carol 3
            _ _ eq_refl eq_refl _).
  - apply reachable_well_shaped, reach_insert.
    apply (reach_init "students" students_columns "id"). reflexivity.
  - split.
    + repeat constructor; cbn; intuition discriminate.
    + exists {| name := "id"; data_type := INTEGER; is_primary_key := true |}.
      repeat split. now left.
  - exists [("id", VInt 2); ("name", VStr "Eve"); ("age", VNone)], (VInt 2).
    repeat split. now left.
Defined.

(** ** The registry of tables *)

Section RegistryProps.

Context {F : Type} {PF : PyFloat F}.

Implicit Types (db : Database (F:=F)) (t : Table F) (nm : string).

Lemma dtype_of_str_spec (u : string) (ty : dtype) :
  dtype_of_str u = Some ty <-> u = dtype_text ty.
Proof.
  unfold dtype_of_str.
  destruct (String.eqb_spec u "INTEGER") as [-> | H1];
    [destruct ty; split; intros H; try discriminate H; reflexivity |].
  destruct (String.eqb_spec u "TEXT") as [-> | H2];
    [destruct ty; split; intros H; try discriminate H; reflexivity |].
  destruct (String.eqb_spec u "REAL") as [-> | H3];
    [destruct ty; split; intros H; try discriminate H; reflexivity |].
  split; [discriminate |]. intros ->. destruct ty; contradiction.
Qed.

(** The columns [create_table] builds from valid specs. *)
Lemma make_columns_ok (first : bool) (specs : list (string * string)) :
  Forall (fun spec => exists ty, upper (snd spec) = dtype_text ty) specs ->
  exists cols,
    make_columns first specs = Ok cols
    /\ map name cols = map fst specs
    /\ Forall2 (fun spec col => upper (snd spec) = dtype_text (data_type col)) specs cols
    /\ map is_primary_key cols
       = match specs with
         | [] => []
         | _ :: rest => first :: repeat false (List.length rest)
         end.
Proof.
  intros H. revert first. induction H as [| [n s] specs [ty Hty] _ IH]; intros first.
  - exists []. repeat split; constructor.
  - destruct (IH false) as [cols [Hm [Hn [Ht Hf]]]].
    exists ({| name := n; data_type := ty; is_primary_key := first |} :: cols).
    cbn [make_columns]. unfold Column_init.
    cbn [snd] in Hty. rewrite (proj2 (dtype_of_str_spec (upper s) ty) Hty).
    cbn [bind]. rewrite Hm. cbn [bind map name fst is_primary_key].
    split; [reflexivity |]. split; [now rewrite Hn |]. split.
    + constructor; [exact Hty | exact Ht].
    + f_equal. rewrite Hf. destruct specs as [| x rest]; [reflexivity |].
      cbn [List.length repeat]. reflexivity.
Qed.

(** The first spec with an unsupported type stops the construction. *)
Lemma make_columns_bad (first : bool) (pre post : list (string * string))
    (n s : string) :
  Forall (fun spec => exists ty, upper (snd spec) = dtype_text ty) pre ->
  (forall ty, upper s <> dtype_text ty) ->
  make_columns first (pre ++ (n, s) :: post) = Raise (SchemaError s).
Proof.
  intros Hpre Hbad. revert first. induction Hpre as [| [n0 s0] pre [ty Hty] _ IH];
    intros first; cbn [app make_columns]; unfold Column_init.
  - destruct (dtype_of_str (upper s)) as [ty |] eqn:E; [| reflexivity].
    apply dtype_of_str_spec in E. now destruct (Hbad ty).
  - cbn [snd] in Hty. rewrite (proj2 (dtype_of_str_spec (upper s0) ty) Hty).
    cbn [bind]. now rewrite IH.
Qed.

Lemma make_columns_errors (first : bool) (specs : list (string * string)) (e : exn) :
  make_columns first specs = Raise e -> exists s, e = SchemaError s.
Proof.
  revert first. induction specs as [| [n s] specs IH]; intros first; cbn [make_columns];
    [discriminate |].
  unfold Column_init. destruct (dtype_of_str (upper s)); cbn [bind].
  - destruct (make_columns false specs) as [cols | e0] eqn:E; cbn [bind]; [discriminate |].
    intros [= <-]. now apply (IH false).
  - intros [= <-]. now exists s.
Qed.

Lemma make_columns_names (first : bool) (specs : list (string * string))
    (cols : list Column) :
  make_columns first specs = Ok cols -> map name cols = map fst specs.
Proof.
  revert first cols. induction specs as [| [n s] specs IH]; intros first cols;
    cbn [make_columns].
  - now intros [= <-].
  - unfold Column_init. destruct (dtype_of_str (upper s)); cbn [bind]; [| discriminate].
    destruct (make_columns false specs) as [cols' |] eqn:E; cbn [bind]; [| discriminate].
    intros [= <-]. cbn [map name fst]. f_equal. now apply (IH false).
Qed.

(** The primary key [create_table] hands to the constructor is declared. *)
Lemma first_column_declared (first : Column) (others : list Column) :
  dict_mem (column_map_of (first :: others)) (name first) = true.
Proof.
  apply dict_mem_In. rewrite column_map_keys. apply keys_in_order_In. now left.
Qed.

(** X11. [create_table] under a name that is free, with one spec at least and a
    supported type (in any letter case) in each: it returns a new table and
    registers it last under that name, leaving the other names as they
    were. The table has no rows and 1 for [next_id]; its columns are the
    specs in order with their types in upper case; the first column, and no
    other, is flagged primary key and gives the table its key. *)
Theorem create_table_registers db nm (n1 s1 : string) (rest : list (string * string)) :
  dict_mem db nm = false ->
  Forall (fun spec => exists ty, upper (snd spec) = dtype_text ty) ((n1, s1) :: rest) ->
  exists t,
    create_table db nm ((n1, s1) :: rest) = (Ok t, dict_set db nm t)
    /\ get_table (dict_set db nm t) nm = Some t
    /\ (forall nm', nm' <> nm -> get_table (dict_set db nm t) nm' = get_table db nm')
    /\ list_tables (dict_set db nm t) = list_tables db ++ [nm]
    /\ table_name t = nm /\ rows t = [] /\ next_id t = 1 /\ primary_key t = n1
    /\ map name (columns t) = n1 :: map fst rest
    /\ Forall2 (fun spec col => upper (snd spec) = dtype_text (data_type col))
         ((n1, s1) :: rest) (columns t)
    /\ map is_primary_key (columns t) = true :: repeat false (List.length rest)
    /\ reachable t.
Proof.
  intros Hfree Hspecs.
  destruct (make_columns_ok true _ Hspecs) as [cols [Hm [Hn [Ht Hf]]]].
  destruct cols as [| first others]; [discriminate Hn |].
  cbn [map fst] in Hn. injection Hn as Hn1 Hn.
  set (t := ({| table_name := nm; columns := first :: others; primary_key := name first;
                rows := []; next_id := 1 |} : Table F)).
  assert (Hinit : Table_init nm (first :: others) (name first) = Ok t).
  { unfold Table_init. now rewrite first_column_declared. }
  exists t. unfold create_table. rewrite Hfree, Hm, Hinit.
  split; [reflexivity |]. split; [apply dict_get_set_same |]. split.
  - intros nm' Hne. unfold get_table. apply dict_get_set_other. congruence.
  - split.
    + unfold list_tables. rewrite dict_keys_set. unfold keys_step.
      assert (Hex : existsb (String.eqb nm) (dict_keys db) = false).
      { apply existsb_eqb_not_In. intros Hin. apply dict_mem_In in Hin. congruence. }
      now rewrite Hex.
    + cbn [table_name rows next_id primary_key columns t].
      repeat split; auto.
      * cbn [map]. now rewrite Hn1, Hn.
      * now apply (reach_init nm (first :: others) (name first)).
Qed.

(** X12. How [create_table] fails, and that it then registers nothing. A name
    already taken raises [DuplicateTableError], whatever the specs; no spec
    at all raises [IndexError]; otherwise the first spec whose type is not
    supported raises [SchemaError] with the type as it was written. The
    constructor's check of the primary key never fails here. *)
Theorem create_table_failures db nm (specs : list (string * string)) :
  (dict_mem db nm = true ->
     create_table db nm specs = (Raise (DuplicateTableError nm), db))
  /\ (dict_mem db nm = false -> specs = [] ->
        create_table db nm specs = (Raise IndexError, db))
  /\ (forall pre post n s,
        dict_mem db nm = false -> specs = pre ++ (n, s) :: post ->
        Forall (fun spec => exists ty, upper (snd spec) = dtype_text ty) pre ->
        (forall ty, upper s <> dtype_text ty) ->
        create_table db nm specs = (Raise (SchemaError s), db))
  /\ (forall e, fst (create_table db nm specs) = Raise e ->
        snd (create_table db nm specs) = db
        /\ (e = DuplicateTableError nm \/ e = IndexError \/ exists s, e = SchemaError s)).
Proof.
  split; [| split; [| split]].
  - intros H. unfold create_table. now rewrite H.
  - intros H ->. unfold create_table. now rewrite H.
  - intros pre post n s H -> Hpre Hbad. unfold create_table.
    now rewrite H, (make_columns_bad true pre post n s Hpre Hbad).
  - intros e. unfold create_table. destruct (dict_mem db nm).
    + intros [= <-]. split; [reflexivity | now left].
    + destruct (make_columns true specs) as [[| first others] | e0] eqn:E.
      * intros [= <-]. split; [reflexivity | right; now left].
      * unfold Table_init. rewrite first_column_declared. discriminate.
      * intros [= <-]. split; [reflexivity |]. right. right.
        now apply (make_columns_errors true specs).
Qed.

(** *** drop_table *)

Lemma dict_remove_set_fresh (V : Type) (d : dict V) (k : string) (v : V) :
  ~ In k (dict_keys d) -> dict_remove (dict_set d k v) k = d.
Proof.
  induction d as [| [k0 v0] d IH]; cbn [dict_set dict_remove dict_keys map fst In].
  - intros _. now rewrite String.eqb_refl.
  - intros H. destruct (String.eqb_spec k0 k) as [-> | Hne]; [tauto |].
    cbn [dict_remove]. apply String.eqb_neq in Hne. rewrite Hne. f_equal. apply IH. tauto.
Qed.

Lemma dict_remove_absent (V : Type) (d : dict V) (k : string) :
  ~ In k (dict_keys d) -> dict_remove d k = d.
Proof.
  induction d as [| [k0 v0] d IH]; cbn [dict_remove dict_keys map fst In]; [reflexivity |].
  intros H. destruct (String.eqb_spec k0 k) as [-> | Hne]; [tauto |].
  f_equal. apply IH. tauto.
Qed.

(** X13. [drop_table] answers whether the name was registered. Afterwards the
    name is free, every other table is found as before, and the names left
    are the former ones without it, in the same order. *)
Theorem drop_table_removes_one db nm :
  NoDup (list_tables db) ->
  let db' := snd (drop_table db nm) in
  fst (drop_table db nm) = dict_mem db nm
  /\ get_table db' nm = None
  /\ (forall nm', nm' <> nm -> get_table db' nm' = get_table db nm')
  /\ list_tables db' = filter (fun k => negb (String.eqb k nm)) (list_tables db)
  /\ NoDup (list_tables db')
  /\ (dict_mem db nm = false -> db' = db).
Proof.
  intros Hnd db'. unfold drop_table in *. unfold list_tables, get_table in *.
  assert (Hkeys : dict_keys (dict_remove db nm)
                  = filter (fun k => negb (String.eqb k nm)) (dict_keys db)).
  { clear db'. induction db as [| [k0 t0] db IH]; [reflexivity |].
    cbn [dict_keys map fst] in Hnd. inversion Hnd as [| ? ? Hfresh Hnd']; subst.
    cbn [dict_remove dict_keys map fst filter].
    destruct (String.eqb_spec k0 nm) as [-> | Hne]; cbn [negb].
    - fold (dict_keys db). symmetry. apply forallb_filter_id.
      apply forallb_forall. intros k Hk. apply negb_true_iff, String.eqb_neq.
      intros ->. contradiction.
    - cbn [map fst]. f_equal. now apply IH. }
  destruct (dict_mem db nm) eqn:E; unfold db'; cbn [fst snd].
  - split; [reflexivity |]. split; [now apply dict_remove_get_same |]. split.
    + intros nm' Hne. apply dict_remove_get_other. congruence.
    + split; [exact Hkeys |]. split; [| discriminate].
      rewrite Hkeys. now apply NoDup_filter.
  - assert (Habs : ~ In nm (dict_keys db))
      by (intros Hin; apply dict_mem_In in Hin; congruence).
    split; [reflexivity |]. split; [now apply dict_get_none |].
    split; [reflexivity |]. split; [| split; [exact Hnd | reflexivity]].
    rewrite <- Hkeys. now rewrite dict_remove_absent.
Qed.

(** X14. Creating a table and dropping it again leaves the registry as it was,
    and the name can then be used anew. *)
Theorem create_then_drop db nm (specs : list (string * string)) t (db' : Database (F:=F)) :
  dict_mem db nm = false ->
  create_table db nm specs = (Ok t, db') ->
  drop_table db' nm = (true, db)
  /\ get_table (snd (drop_table db' nm)) nm = None
  /\ exists t', create_table (snd (drop_table db' nm)) nm specs = (Ok t', db').
Proof.
  intros Hfree Hcreate.
  assert (Habs : ~ In nm (dict_keys db))
    by (intros Hin; apply dict_mem_In in Hin; congruence).
  unfold create_table in Hcreate. rewrite Hfree in Hcreate.
  destruct (make_columns true specs) as [[| first others] | e] eqn:Hm;
    try discriminate Hcreate.
  destruct (Table_init nm (first :: others) (name first)) as [t0 | e] eqn:Hi;
    [| discriminate Hcreate].
  injection Hcreate as <- <-.
  assert (Hdrop : drop_table (dict_set db nm t0) nm = (true, db)).
  { unfold drop_table, dict_mem. rewrite dict_get_set_same.
    now rewrite dict_remove_set_fresh. }
  rewrite Hdrop. cbn [snd]. split; [reflexivity |]. split.
  - unfold get_table. now apply dict_get_none.
  - exists t0. unfold create_table. now rewrite Hfree, Hm, Hi.
Qed.

(** *** get_table_schema *)

(** X15. For a name that is not registered the schema text says so. For a table
    just created it has one line for the name and one line for each column,
    with its name and its type in upper case; the first column's line, and
    only that one, ends with the primary-key marker. *)
Theorem schema_of_created_table db nm (specs : list (string * string)) t
    (db' : Database (F:=F)) :
  (get_table db nm = None ->
     get_table_schema db nm = ("Table '" ++ nm ++ "' does not exist")%string)
  /\ (create_table db nm specs = (Ok t, db') ->
      exists first others,
        columns t = first :: others
        /\ get_table_schema db' nm =
           join (String "010" "")
             (("Table: " ++ nm)%string
              :: ("  " ++ name first ++ ": " ++ dtype_text (data_type first)
                  ++ " (PRIMARY KEY)")%string
              :: map (fun col => ("  " ++ name col ++ ": "
                                  ++ dtype_text (data_type col))%string) others)
        /\ map (fun col => (name col, dtype_text (data_type col))) (columns t)
           = map (fun spec => (fst spec, upper (snd spec))) specs).
Proof.
  split.
  - intros H. unfold get_table_schema. now rewrite H.
  - intros Hcreate. unfold create_table in Hcreate.
    destruct (dict_mem db nm); [discriminate Hcreate |].
    destruct (make_columns true specs) as [[| first others] | e] eqn:Hm;
      try discriminate Hcreate.
    unfold Table_init in Hcreate. rewrite first_column_declared in Hcreate.
    injection Hcreate as <- <-. exists first, others. cbn [columns].
    split; [reflexivity |].
    assert (Hcols : forall flag sp cols,
              make_columns flag sp = Ok cols ->
              map (fun col => (name col, dtype_text (data_type col))) cols
              = map (fun spec => (fst spec, upper (snd spec))) sp
              /\ map is_primary_key cols
                 = match sp with [] => [] | _ :: r => flag :: repeat false (List.length r) end).
    { intros flag sp. revert flag. induction sp as [| [n s] sp IH]; intros flag cols;
        cbn [make_columns].
      - intros [= <-]. now split.
      - unfold Column_init. destruct (dtype_of_str (upper s)) as [ty |] eqn:E;
          cbn [bind]; [| discriminate].
        destruct (make_columns false sp) as [cols' |] eqn:E'; cbn [bind]; [| discriminate].
        intros [= <-]. destruct (IH false cols' E') as [IH1 IH2].
        apply dtype_of_str_spec in E. cbn [map name data_type is_primary_key fst snd].
        split; [now rewrite IH1, E |]. f_equal. rewrite IH2.
        destruct sp; reflexivity. }
    destruct (Hcols true specs _ Hm) as [Hnt Hflags]. split; [| exact Hnt].
    unfold get_table_schema, get_table. rewrite dict_get_set_same. cbn [columns map].
    destruct specs as [| sp0 rest]; [discriminate Hflags |].
    cbn [map is_primary_key] in Hflags. injection Hflags as Hf1 Hfo.
    f_equal. f_equal. apply f_equal2.
    + unfold schema_line. now rewrite Hf1.
    + clear Hm Hnt. revert Hfo. generalize (List.length rest).
      induction others as [| c others IH]; intros n Hn; [reflexivity |].
      destruct n as [| n]; [discriminate Hn |]. cbn [map repeat] in *.
      injection Hn as Hc Hn. f_equal; [| now apply (IH n)].
      unfold schema_line. rewrite Hc. now rewrite append_empty_r.
Qed.

End RegistryProps.

Lemma create_table_registers_witness :
  exists t, create_table (F:=Empty_set) [] "students"
              [("id", "integer"); ("name", "Text")]%string
            = (Ok t, [("students"%string, t)])
            /\ primary_key t = "id"%string.
Proof.
  destruct (create_table_registers (F:=Empty_set) [] "students" "id" "integer"
              [("name", "Text")]%string eq_refl)
    as [t [Hc [_ [_ [_ [_ [_ [_ [Hpk _]]]]]]]]].
  - constructor; [now exists INTEGER |]. constructor; [now exists TEXT | constructor].
  - exists t. split; [exact Hc | exact Hpk].
Defined.

Lemma create_table_failures_witness :
  create_table (F:=Empty_set) [] "t" [("id", "INTEGER"); ("data", "blob")]%string
  = (Raise (SchemaError "blob"), []).
Proof.
  refine (proj1 (proj2 (proj2 (create_table_failures (F:=Empty_set) [] "t"
                                 [("id", "INTEGER"); ("data", "blob")]%string)))
            [("id", "INTEGER")]%string [] "data"%string "blob"%string
            eq_refl eq_refl _ _).
  - constructor; [now exists INTEGER | constructor].
  - intros []; discriminate.
Defined.

Lemma drop_table_removes_one_witness :
  list_tables (snd (drop_table [("a"%string, students); ("b"%string, students)] "a"))
  = ["b"%string].
Proof.
  refine (eq_trans (proj1 (proj2 (proj2 (proj2 (drop_table_removes_one
            [("a"%string, students); ("b"%string, students)] "a" _))))) _).
  - repeat constructor; cbn; intuition discriminate.
  - reflexivity.
Defined.

Lemma create_then_drop_witness :
  drop_table (snd (create_table (F:=Empty_set) [] "t" [("id", "INTEGER")]%string)) "t"
  = (true, []).
Proof.
  exact (proj1 (create_then_drop (F:=Empty_set) [] "t" [("id", "INTEGER")]%string
                  (match fst (create_table (F:=Empty_set) [] "t" [("id", "INTEGER")]%string)
                   with Ok t => t | Raise _ => students end)
                  (snd (create_table (F:=Empty_set) [] "t" [("id", "INTEGER")]%string))
                  eq_refl eq_refl)).
Defined.

Lemma schema_of_created_table_witness :
  get_table_schema
    (snd (create_table (F:=Empty_set) [] "t" [("id", "integer"); ("name", "text")]%string))
    "t"
  = ("Table: t" ++ String "010" "  id: INTEGER (PRIMARY KEY)"
       ++ String "010" "  name: TEXT")%string.
Proof.
  destruct (proj2 (schema_of_created_table (F:=Empty_set) [] "t"
                     [("id", "integer"); ("name", "text")]%string
                     (match fst (create_table (F:=Empty_set) [] "t"
                                   [("id", "integer"); ("name", "text")]%string)
                      with Ok t => t | Raise _ => students end)
                     (snd (create_table (F:=Empty_set) [] "t"
                             [("id", "integer"); ("name", "text")]%string)))
              eq_refl) as [first [others [Hcols [Hschema _]]]].
  rewrite Hschema. vm_compute in Hcols. injection Hcols as <- <-. reflexivity.
Defined.

(** ** Integers through [str] and [int] *)

Section IntText.

Local Open Scope string_scope.

Lemma lstrip_by_free (p : ascii -> bool) (s : string) :
  all_chars (fun c => negb (p c)) s = true -> lstrip_by p s = s.
Proof.
  destruct s as [| c s]; [reflexivity |]. cbn [all_chars lstrip_by]. intros H.
  apply andb_true_iff in H as [Hc _]. apply negb_true_iff in Hc. now rewrite Hc.
Qed.

Lemma rstrip_by_free (p : ascii -> bool) (s : string) :
  all_chars (fun c => negb (p c)) s = true -> rstrip_by p s = s.
Proof.
  induction s as [| c s IH]; intros H; [reflexivity |].
  cbn [all_chars] in H. apply andb_true_iff in H as [Hc Hs].
  cbn [rstrip_by]. rewrite (IH Hs). apply negb_true_iff in Hc. rewrite Hc.
  destruct s; reflexivity.
Qed.

Lemma strip_by_free (p : ascii -> bool) (s : string) :
  all_chars (fun c => negb (p c)) s = true -> strip_by p s = s.
Proof.
  intros H. unfold strip_by. rewrite (lstrip_by_free p s H). now apply rstrip_by_free.
Qed.

Lemma all_chars_weaken (p q : ascii -> bool) (s : string) :
  (forall c, p c = true -> q c = true) -> all_chars p s = true -> all_chars q s = true.
Proof.
  intros Hpq. induction s as [| c s IH]; [reflexivity |]. cbn [all_chars]. intros H.
  apply andb_true_iff in H as [Hc Hs]. now rewrite (Hpq c Hc), (IH Hs).
Qed.

Lemma uint_digits (d : Decimal.uint) :
  all_chars is_digit (NilEmpty.string_of_uint d) = true.
Proof. induction d; cbn [NilEmpty.string_of_uint all_chars]; auto. Qed.

Lemma uint_length (d : Decimal.uint) :
  String.length (NilEmpty.string_of_uint d) = Decimal.nb_digits d.
Proof. induction d; cbn [NilEmpty.string_of_uint String.length Decimal.nb_digits]; auto. Qed.

(** Reading the digits of a decimal number continues the accumulator the
    way [Pos.of_uint_acc] does. *)
Lemma digits_go_acc (d : Decimal.uint) (acc : positive) (n : nat) :
  digits_go (Z.pos acc) n (NilEmpty.string_of_uint d)
  = Some (Z.pos (Pos.of_uint_acc d acc), (n + Decimal.nb_digits d)%nat).
Proof.
  revert acc n.
  induction d as [| d IH | d IH | d IH | d IH | d IH | d IH | d IH | d IH | d IH | d IH];
    intros acc n;
    cbn [NilEmpty.string_of_uint Decimal.nb_digits Pos.of_uint_acc];
    [cbn [digits_go]; now rewrite Nat.add_0_r | ..];
    match goal with
    | |- digits_go _ _ (String ?c _) = _ =>
        let k := eval vm_compute in (Z.of_nat (nat_of_ascii c - 48)) in
        change (digits_go (Z.pos acc) n (String c (NilEmpty.string_of_uint d)))
          with (digits_go (10 * Z.pos acc + k) (S n) (NilEmpty.string_of_uint d))
    end;
    match goal with
    | |- digits_go ?x _ _ = Some (Z.pos (Pos.of_uint_acc _ ?a), _) =>
        replace x with (Z.pos a) by lia
    end;
    rewrite IH; f_equal; f_equal; lia.
Qed.

Lemma digits_go_zero (d : Decimal.uint) (n : nat) :
  digits_go 0 n (NilEmpty.string_of_uint d)
  = Some (Z.of_N (Pos.of_uint d), (n + Decimal.nb_digits d)%nat).
Proof.
  revert n.
  induction d as [| d IH | d IH | d IH | d IH | d IH | d IH | d IH | d IH | d IH | d IH];
    intros n; cbn [NilEmpty.string_of_uint Decimal.nb_digits Pos.of_uint Z.of_N];
    [cbn [digits_go]; now rewrite Nat.add_0_r | ..];
    match goal with
    | |- digits_go _ _ (String ?c _) = _ =>
        let k := eval vm_compute in (Z.of_nat (nat_of_ascii c - 48)) in
        change (digits_go 0 n (String c (NilEmpty.string_of_uint d)))
          with (digits_go k (S n) (NilEmpty.string_of_uint d))
    end;
    [rewrite IH | rewrite digits_go_acc ..]; f_equal; f_equal; lia.
Qed.

Lemma unsigned_of_uint (d : Decimal.uint) :
  d <> Decimal.Nil -> (Decimal.nb_digits d <= int_max_str_digits)%nat ->
  unsigned_of_str (NilEmpty.string_of_uint d) = Some (Z.of_N (Pos.of_uint d)).
Proof.
  intros Hd Hlen.
  assert (H : unsigned_of_str (NilEmpty.string_of_uint d)
              = match digits_go 0 0 (NilEmpty.string_of_uint d) with
                | Some (v, n) => if Nat.ltb int_max_str_digits n then None else Some v
                | None => None
                end).
  { destruct d; [contradiction | reflexivity ..]. }
  rewrite H, digits_go_zero. cbn [Nat.add].
  replace (Nat.ltb int_max_str_digits (Decimal.nb_digits d)) with false; [reflexivity |].
  symmetry. apply Nat.ltb_ge. exact Hlen.
Qed.

Lemma digit_not_int_space (c : ascii) : is_digit c = true -> negb (is_int_space c) = true.
Proof.
  unfold is_digit, is_int_space, char_in. intros H.
  apply andb_true_iff in H as [H1 H2]. apply Nat.leb_le in H1, H2.
  apply negb_true_iff. repeat (apply orb_false_iff; split);
    apply andb_false_iff; (left; apply Nat.leb_gt; lia) || (right; apply Nat.leb_gt; lia).
Qed.

Lemma digit_not_space (c : ascii) : is_digit c = true -> not_space c = true.
Proof.
  unfold is_digit, not_space, is_space, char_in. intros H.
  apply andb_true_iff in H as [H1 H2]. apply Nat.leb_le in H1, H2.
  apply negb_true_iff. repeat (apply orb_false_iff; split);
    apply andb_false_iff; (left; apply Nat.leb_gt; lia) || (right; apply Nat.leb_gt; lia).
Qed.

Lemma str_of_pos (p : positive) :
  str_of_int (Z.pos p) = NilEmpty.string_of_uint (Pos.to_uint p)
  /\ str_of_int (Z.neg p) = String "-" (NilEmpty.string_of_uint (Pos.to_uint p)).
Proof.
  unfold str_of_int, NilZero.string_of_int, Z.to_int, NilZero.string_of_uint.
  pose proof (DecimalPos.Unsigned.to_uint_nonnil p) as H.
  destruct (Pos.to_uint p); [contradiction | now split ..].
Qed.

(** [int(str(n))] is [n], as long as [n] has no more digits than [int]
    accepts. *)
Lemma int_of_str_of_int (z : Z) :
  (String.length (str_of_int z) <= int_max_str_digits)%nat ->
  int_of_str (str_of_int z) = Some z.
Proof.
  destruct z as [| p | p]; [reflexivity | |]; destruct (str_of_pos p) as [Hp Hn].
  - rewrite Hp, uint_length. intros Hlen.
    pose proof (DecimalPos.Unsigned.to_uint_nonnil p) as Hnil.
    unfold int_of_str. rewrite strip_by_free
      by (apply (all_chars_weaken is_digit); [apply digit_not_int_space | apply uint_digits]).
    pose proof (unsigned_of_uint (Pos.to_uint p) Hnil Hlen) as Hu.
    rewrite DecimalPos.Unsigned.of_to in Hu. cbn [Z.of_N] in Hu.
    destruct (Pos.to_uint p); [contradiction | exact Hu ..].
  - rewrite Hn. cbn [String.length]. rewrite uint_length. intros Hlen.
    pose proof (DecimalPos.Unsigned.to_uint_nonnil p) as Hnil.
    unfold int_of_str. rewrite strip_by_free.
    + rewrite (unsigned_of_uint (Pos.to_uint p) Hnil) by lia.
      rewrite DecimalPos.Unsigned.of_to. reflexivity.
    + cbn [all_chars]. apply andb_true_iff. split; [reflexivity |].
      apply (all_chars_weaken is_digit); [apply digit_not_int_space | apply uint_digits].
Qed.

(** The text of an integer is one token, free of blanks, quotes and dots. *)
Lemma str_of_int_chars (z : Z) :
  exists c s, str_of_int z = String c s
              /\ all_chars (fun c => (is_digit c || Ascii.eqb c "-")%bool) (String c s) = true.
Proof.
  destruct z as [| p | p]; [now exists "0"%char, "" | |]; destruct (str_of_pos p) as [Hp Hn].
  - pose proof (DecimalPos.Unsigned.to_uint_nonnil p) as Hnil.
    pose proof (uint_digits (Pos.to_uint p)) as Hd. rewrite Hp.
    destruct (NilEmpty.string_of_uint (Pos.to_uint p)) as [| c s] eqn:E.
    + destruct (Pos.to_uint p); try contradiction; discriminate E.
    + exists c, s. split; [reflexivity |].
      apply (all_chars_weaken is_digit); [| exact Hd]. intros x Hx. now rewrite Hx.
  - rewrite Hn. exists "-"%char, (NilEmpty.string_of_uint (Pos.to_uint p)).
    split; [reflexivity |]. cbn [all_chars]. apply andb_true_iff. split; [reflexivity |].
    apply (all_chars_weaken is_digit); [| apply uint_digits]. intros x Hx. now rewrite Hx.
Qed.

Lemma sign_or_digit_not_space (c : ascii) :
  (is_digit c || Ascii.eqb c "-")%bool = true -> not_space c = true.
Proof.
  intros H. apply orb_true_iff in H as [H | H]; [now apply digit_not_space |].
  apply Ascii.eqb_eq in H. now subst.
Qed.

Lemma str_of_int_word (z : Z) : is_word (str_of_int z) = true.
Proof.
  destruct (str_of_int_chars z) as [c [s [-> H]]]. unfold is_word. cbn [truthy andb].
  apply (all_chars_weaken _ not_space _ sign_or_digit_not_space H).
Qed.

End IntText.

(** ** Looking a row up by the key [insert] returned *)

Section LookupProps.

Context {F : Type} {PF : PyFloat F}.

Implicit Types (t : Table F) (values r : dict (value F)) (v : value F).

Local Open Scope string_scope.

Lemma sign_or_digit_not_quote (c : ascii) :
  (is_digit c || Ascii.eqb c "-")%bool = true -> negb (is_quote c) = true.
Proof.
  intros H. apply orb_true_iff in H as [H | H].
  - unfold is_digit, char_in in H. apply andb_true_iff in H as [H1 H2].
    apply Nat.leb_le in H1, H2. apply negb_true_iff. unfold is_quote.
    apply orb_false_iff. split; apply Ascii.eqb_neq; intros ->; cbn in H1, H2; lia.
  - apply Ascii.eqb_eq in H. now subst.
Qed.

Lemma strip_quotes_int (z : Z) : strip_quotes (str_of_int z) = str_of_int z.
Proof.
  destruct (str_of_int_chars z) as [c [s [-> H]]]. apply strip_by_free.
  apply (all_chars_weaken _ _ _ sign_or_digit_not_quote H).
Qed.

(** The test [pk = k] on a row, [k] written out as [str] writes it. *)
Lemma key_test (r : row F) (pk : string) (k : Z) v :
  is_word pk = true -> (String.length (str_of_int k) <= int_max_str_digits)%nat ->
  dict_get r pk = Some v ->
  (v = VNone \/ isinstance_int v = true) ->
  _evaluate_where r (pk ++ " = " ++ str_of_int k) = Ok (py_eq v (VInt k)).
Proof.
  intros Hpk Hlen Hget Hkind.
  change (pk ++ " = " ++ str_of_int k) with (pk ++ spaced (op_text OpEq) ++ str_of_int k).
  destruct (is_word_spec pk Hpk) as [_ Hpka].
  destruct (is_word_spec _ (str_of_int_word k)) as [_ Hka].
  rewrite evaluate_where_one.
  - rewrite (strip_condition (op_text OpEq) pk (str_of_int k) Hpk (str_of_int_word k)).
    rewrite (evaluate_condition_word r pk (str_of_int k) OpEq Hpk (str_of_int_word k)).
    rewrite Hget, strip_quotes_int. cbn [apply_op bind].
    destruct Hkind as [-> | Hint].
    + reflexivity.
    + unfold parse_literal. rewrite Hint, (int_of_str_of_int k Hlen).
      now destruct (py_eq v (VInt k)).
  - change (contains " AND ") with (contains (spaced "AND")).
    now rewrite (contains_spaced "AND" (op_text OpEq) pk (str_of_int k) eq_refl eq_refl
                   Hpka Hka).
Qed.

(** X16. On a table the engine can reach whose key column is declared INTEGER,
    after an [insert] that returned the integer [k], selecting the rows
    whose key equals [k] (the key's name, an equals sign and [k] in decimal)
    returns the inserted row and nothing else. *)
Theorem lookup_by_returned_key t values (k : Z) (t' : Table F) (col : Column) :
  reachable t -> is_word (primary_key t) = true ->
  dict_get (column_map t) (primary_key t) = Some col -> data_type col = INTEGER ->
  (String.length (str_of_int k) <= int_max_str_digits)%nat ->
  insert t values = (Ok (VInt k), t') ->
  select t' None (Some (primary_key t ++ " = " ++ str_of_int k))
  = Ok [materialise t values].
Proof.
  intros Hreach Hpk Hcol Hty Hlen Hins.
  assert (Hreach' : reachable t')
    by (replace t' with (snd (insert t values)) by (now rewrite Hins); now constructor).
  pose proof (reachable_well_shaped t' Hreach') as Hws'.
  pose proof (reachable_well_shaped t Hreach) as Hws.
  pose proof (reachable_typed t Hreach) as Htyped.
  unfold insert in Hins.
  destruct (_validate_types t (materialise t values)) as [[] | e]; [| discriminate].
  destruct (dict_get (materialise t values) (primary_key t)) as [pk_val |] eqn:Hget;
    [| discriminate].
  destruct (check_unique (primary_key t) pk_val (rows t)) as [[] | e] eqn:Hu;
    [| discriminate].
  injection Hins as -> <-. apply check_unique_ok in Hu. rewrite Forall_forall in Hu.
  set (c := primary_key t ++ " = " ++ str_of_int k) in *.
  assert (Hold : Forall (fun r => _evaluate_where r c = Ok false) (rows t)).
  { apply Forall_forall. intros r Hr. destruct (Hu r Hr) as [v' [Hv' Hne]].
    rewrite <- Hne. apply key_test; auto.
    pose proof (Htyped r (primary_key t) v' col Hr (dict_get_In _ r _ v' Hv') Hcol) as Ha.
    rewrite Hty in Ha. destruct v'; try discriminate Ha; auto. }
  assert (Hnew : _evaluate_where (materialise t values) c = Ok true).
  { unfold c. rewrite (key_test _ _ k (VInt k) Hpk Hlen Hget) by (now right).
    cbn [py_eq int_value]. now rewrite Z.eqb_refl. }
  unfold select. cbn [columns rows].
  rewrite (proj2 (check_columns_ok _ (map name (columns t)))) by auto. cbn [bind].
  assert (Htruthy : truthy c = true).
  { unfold c. destruct (is_word_spec _ Hpk) as [Hne _].
    destruct (primary_key t); [now contradiction Hne | reflexivity]. }
  rewrite Htruthy.
  assert (Hf : filter_rows true c (rows t ++ [materialise t values])
               = Ok [materialise t values]).
  { clear - Hold Hnew. induction Hold as [| r rs Hr _ IH]; cbn [app filter_rows].
    - rewrite Hnew. reflexivity.
    - rewrite Hr, IH. reflexivity. }
  rewrite Hf. cbn [bind]. apply project_all_same.
  constructor; [apply materialise_keys | constructor].
Qed.

End LookupProps.

Lemma lookup_by_returned_key_witness :
  select (snd (insert two_students carol)) None (Some "id = 3"%string)
  = Ok [ [("id", VInt 3); ("name", VStr "Carol"); ("age", VNone)] ].
Proof.
  exact (lookup_by_returned_key two_students carol 3 (snd (insert two_students carol))
           {| name := "id"; data_type := INTEGER; is_primary_key := true |}
           two_students_reachable eq_refl eq_refl eq_refl
           (proj1 (Nat.leb_le 1 4300) eq_refl) eq_refl).
Defined.

(** ** The front end's reading of values *)

Section ReplProps.

Context {F : Type} {PF : PyFloat F}.

Local Open Scope string_scope.

Lemma quote_not_space (q : ascii) : is_quote q = true -> is_space q = false.
Proof.
  unfold is_quote. intros H. apply orb_true_iff in H as [H | H];
    apply Ascii.eqb_eq in H; now subst.
Qed.

Lemma endswith_app (a p : string) : endswith (a ++ p) p = true.
Proof.
  induction a as [| c a IH]; cbn [append].
  - destruct p; cbn [endswith]; now rewrite String.eqb_refl.
  - cbn [endswith]. rewrite IH. apply orb_true_r.
Qed.

Lemma drop_last_snoc (s : string) (c : ascii) : drop_last (s ++ String c "") = s.
Proof.
  induction s as [| x s IH]; [reflexivity |]. cbn [append drop_last]. rewrite IH.
  destruct s; reflexivity.
Qed.

Lemma strip_quoted (q : ascii) (s : string) :
  is_quote q = true -> strip (quoted q s) = quoted q s.
Proof.
  intros Hq. pose proof (quote_not_space q Hq) as Hsp.
  unfold strip, strip_by, quoted. cbn [lstrip_by]. rewrite Hsp.
  change (String q (s ++ String q "")) with (String q s ++ String q "").
  rewrite rstrip_app; cbn [rstrip_by]; rewrite Hsp; [reflexivity | discriminate].
Qed.

Lemma parse_single_quoted (q : ascii) (s : string) :
  is_quote q = true -> _parse_single_value (quoted q s) = VStr (F:=F) s.
Proof.
  intros Hq. unfold _parse_single_value. rewrite (strip_quoted q s Hq).
  assert (Hcond : ((startswith (quoted q s) dquote && endswith (quoted q s) dquote)
                   || (startswith (quoted q s) squote && endswith (quoted q s) squote))%bool
                  = true).
  { unfold is_quote in Hq. apply orb_true_iff in Hq as [Hq | Hq];
      apply Ascii.eqb_eq in Hq; subst q; unfold quoted.
    - apply orb_true_iff. right. cbn [startswith squote]. rewrite Ascii.eqb_refl.
      cbn [andb]. change (String "'" (s ++ String "'" "")) with (String "'" s ++ squote).
      apply endswith_app.
    - apply orb_true_iff. left. cbn [startswith dquote]. rewrite Ascii.eqb_refl.
      cbn [andb]. change (String "034" (s ++ String "034" ""))
        with (String "034" s ++ dquote).
      apply endswith_app. }
  rewrite Hcond. unfold quoted, inner. now rewrite drop_last_snoc.
Qed.

Lemma contains_dot_free (s : string) :
  all_chars (fun c => negb (Ascii.eqb c ".")) s = true -> contains "." s = false.
Proof.
  induction s as [| c s IH]; [reflexivity |]. cbn [all_chars]. intros H.
  apply andb_true_iff in H as [Hc Hs]. apply negb_true_iff in Hc.
  cbn [contains startswith]. rewrite Ascii.eqb_sym, Hc. cbn [andb orb]. now apply IH.
Qed.

Lemma sign_or_digit_not_dot (c : ascii) :
  (is_digit c || Ascii.eqb c "-")%bool = true -> negb (Ascii.eqb c ".") = true.
Proof.
  intros H. apply orb_true_iff in H as [H | H].
  - unfold is_digit, char_in in H. apply andb_true_iff in H as [H1 H2].
    apply Nat.leb_le in H1, H2. apply negb_true_iff, Ascii.eqb_neq.
    intros ->; cbn in H1, H2; lia.
  - apply Ascii.eqb_eq in H. now subst.
Qed.

Lemma parse_single_int (z : Z) :
  (String.length (str_of_int z) <= int_max_str_digits)%nat ->
  _parse_single_value (str_of_int z) = VInt (F:=F) z.
Proof.
  intros Hlen. unfold _parse_single_value. rewrite (strip_word _ (str_of_int_word z)).
  destruct (str_of_int_chars z) as [c [s [E H]]].
  assert (Hq : negb (is_quote c) = true).
  { cbn [all_chars] in H. apply andb_true_iff in H as [Hc _].
    now apply sign_or_digit_not_quote. }
  assert (Hcond : ((startswith (str_of_int z) dquote && endswith (str_of_int z) dquote)
                   || (startswith (str_of_int z) squote && endswith (str_of_int z) squote))%bool
                  = false).
  { rewrite E. apply negb_true_iff in Hq. unfold is_quote in Hq.
    apply orb_false_iff in Hq as [H1 H2]. cbn [startswith dquote squote].
    rewrite (Ascii.eqb_sym "034" c), (Ascii.eqb_sym "'" c), H1, H2. reflexivity. }
  rewrite Hcond, contains_dot_free, (int_of_str_of_int z Hlen); [reflexivity |].
  rewrite E. apply (all_chars_weaken _ _ _ sign_or_digit_not_dot H).
Qed.

(** X17. What the front end reads back. A text between two single or two double
    quotes is read as that text, untouched, whatever it holds: blanks at its
    ends, commas, digits only. An integer written in decimal is read as that
    integer (up to the number of digits [int] accepts). *)
Theorem parse_single_value_reads_back :
  (forall q s, is_quote q = true -> _parse_single_value (quoted q s) = VStr (F:=F) s)
  /\ (forall z, (String.length (str_of_int z) <= int_max_str_digits)%nat ->
        _parse_single_value (str_of_int z) = VInt (F:=F) z).
Proof. split; [apply parse_single_quoted | apply parse_single_int]. Qed.

(** *** Lists of values *)

Lemma append_snoc_assoc (a b : string) (c : ascii) :
  (a ++ String c "") ++ b = a ++ String c b.
Proof. induction a as [| x a IH]; cbn [append]; [reflexivity | now rewrite IH]. Qed.

Lemma loop_plain (s rest : string) (vals : list (value F)) (cur : string)
    (qc : option ascii) :
  all_chars (fun c => negb (is_quote c || Ascii.eqb c ",")) s = true ->
  parse_values_loop (s ++ rest) vals cur false qc
  = parse_values_loop rest vals (cur ++ s) false qc.
Proof.
  revert cur. induction s as [| c s IH]; intros cur H; cbn [append].
  - now rewrite append_empty_r.
  - cbn [all_chars] in H. apply andb_true_iff in H as [Hc Hs].
    apply negb_true_iff, orb_false_iff in Hc as [Hq Hcomma].
    cbn [parse_values_loop]. rewrite Hq, Hcomma, andb_false_r. cbn [andb].
    rewrite (IH _ Hs). now rewrite append_snoc_assoc.
Qed.

Lemma loop_inside (q : ascii) (s rest : string) (vals : list (value F)) (cur : string) :
  all_chars (fun c => negb (Ascii.eqb c q)) s = true ->
  parse_values_loop (s ++ String q rest) vals cur true (Some q)
  = parse_values_loop rest vals (cur ++ s ++ String q "") false (Some q).
Proof.
  revert cur. induction s as [| c s IH]; intros cur H; cbn [append].
  - cbn [parse_values_loop negb]. rewrite andb_false_r, Ascii.eqb_refl. reflexivity.
  - cbn [all_chars] in H. apply andb_true_iff in H as [Hc Hs]. apply negb_true_iff in Hc.
    cbn [parse_values_loop negb]. rewrite !andb_false_r, Hc. cbn [andb].
    rewrite (IH _ Hs). now rewrite append_snoc_assoc.
Qed.

(** The loop takes an item whole and is outside quotes after it. *)
Lemma loop_item (i rest : string) (vals : list (value F)) (cur : string)
    (qc : option ascii) :
  item i ->
  exists qc', parse_values_loop (i ++ rest) vals cur false qc
              = parse_values_loop rest vals (cur ++ i) false qc'.
Proof.
  intros Hi. revert rest cur qc.
  induction Hi as [s Hs | q s Hq Hs | a b _ IHa _ IHb]; intros rest cur qc.
  - exists qc. now apply loop_plain.
  - exists (Some q). unfold quoted. cbn [append parse_values_loop negb].
    rewrite Hq. cbn [andb]. rewrite append_snoc_assoc.
    rewrite (loop_inside q s rest vals _ Hs). now rewrite append_snoc_assoc.
  - destruct (IHa (b ++ rest) cur qc) as [qa Ea].
    destruct (IHb rest (cur ++ a) qa) as [qb Eb].
    exists qb. now rewrite append_assoc, Ea, Eb, append_assoc.
Qed.

Lemma loop_comma (rest : string) (vals : list (value F)) (cur : string)
    (qc : option ascii) :
  parse_values_loop (String "," rest) vals cur false qc
  = parse_values_loop rest (vals ++ [_parse_single_value (strip cur)])%list "" false qc.
Proof.
  cbn [parse_values_loop negb]. rewrite andb_false_r. reflexivity.
Qed.

Lemma join_cons (sep i j : string) (more : list string) :
  join sep (i :: j :: more) = i ++ sep ++ join sep (j :: more).
Proof. reflexivity. Qed.

Lemma loop_items (pre : list string) (lst : string) (vals : list (value F))
    (qc : option ascii) :
  Forall item pre -> item lst ->
  parse_values_loop (join "," (pre ++ [lst])%list) vals "" false qc
  = ((vals ++ map (fun i => _parse_single_value (strip i)) pre)%list, lst).
Proof.
  intros Hpre Hlst. revert vals qc.
  induction Hpre as [| i pre Hi _ IH]; intros vals qc.
  - cbn [app join map]. rewrite <- (append_empty_r lst) at 1.
    destruct (loop_item lst "" vals "" qc Hlst) as [qc' ->].
    cbn [parse_values_loop append]. now rewrite app_nil_r.
  - assert (Hj : join "," ((i :: pre) ++ [lst]) = i ++ "," ++ join "," (pre ++ [lst])).
    { cbn [app]. destruct pre; reflexivity. }
    rewrite Hj.
    destruct (loop_item i ("," ++ join "," (pre ++ [lst])%list) vals "" qc Hi) as [qc' ->].
    cbn [append]. rewrite loop_comma, IH. cbn [map]. now rewrite <- app_assoc.
Qed.

Lemma join_trailing (sep : string) (l : list string) :
  l <> [] -> join sep l ++ sep = join sep (l ++ [""])%list.
Proof.
  induction l as [| i l IH]; [congruence | intros _].
  destruct l as [| j l].
  - cbn [app join]. now rewrite append_empty_r.
  - change ((i :: j :: l) ++ [""])%list with (i :: j :: (l ++ [""]))%list.
    rewrite (join_cons sep i j (l ++ [""])%list), (join_cons sep i j l).
    change (j :: (l ++ [""]))%list with ((j :: l) ++ [""])%list.
    rewrite <- IH by discriminate. now rewrite !append_assoc.
Qed.

(** X18. A list of items separated by commas, the last one not blank, is read
    item by item: as many values as items, each the reading of its item, so
    that a comma between quotes separates nothing. A comma after the last
    item adds no value, and nothing at all gives no value. *)
Theorem parse_values_reads_items (pre : list string) (lst : string) :
  Forall item pre -> item lst -> truthy (strip lst) = true ->
  _parse_values (join "," (pre ++ [lst])%list)
    = map (fun i => _parse_single_value (F:=F) (strip i)) (pre ++ [lst])%list
  /\ _parse_values (join "," (pre ++ [lst])%list ++ ",")
     = map (fun i => _parse_single_value (F:=F) (strip i)) (pre ++ [lst])%list
  /\ _parse_values "" = @nil (value F).
Proof.
  intros Hpre Hlst Hlast. split; [| split; [| reflexivity]].
  - unfold _parse_values. rewrite (loop_items pre lst [] None Hpre Hlst), Hlast.
    cbn [app]. now rewrite map_app.
  - unfold _parse_values.
    assert (Hall : Forall item (pre ++ [lst])%list)
      by (apply Forall_app; split; [exact Hpre | now constructor]).
    assert (Hj : join "," (pre ++ [lst])%list ++ ","
                 = join "," ((pre ++ [lst]) ++ [""])%list)
      by (apply join_trailing; now destruct pre).
    rewrite Hj, (loop_items (pre ++ [lst])%list "" [] None Hall).
    + reflexivity.
    + now apply item_plain.
Qed.

End ReplProps.

Lemma parse_values_reads_items_witness :
  _parse_values (F:=Empty_set) "12, 'Smith, John' ,x"
  = [VInt 12; VStr "Smith, John"; VStr "x"].
Proof.
  refine (eq_trans (proj1 (parse_values_reads_items (F:=Empty_set)
                             ["12"; " 'Smith, John' "]%string "x"%string _ _ eq_refl)) _).
  - constructor; [now apply item_plain |].
    constructor; [| constructor].
    apply (@item_app " " "'Smith, John' "); [now apply item_plain |].
    apply (@item_app "'Smith, John'" " "); [| now apply item_plain].
    now apply (@item_quoted "'" "Smith, John").
  - now apply item_plain.
  - vm_compute. reflexivity.
Defined.

Lemma parse_single_value_reads_back_witness :
  _parse_single_value (F:=Empty_set) (quoted "'" " 007,a ") = VStr " 007,a "
  /\ _parse_single_value (F:=Empty_set) (str_of_int (-42)) = VInt (-42).
Proof.
  split.
  - apply (proj1 (parse_single_value_reads_back (F:=Empty_set)) "'"%char); reflexivity.
  - apply (proj2 (parse_single_value_reads_back (F:=Empty_set)) (-42)%Z).
    apply Nat.leb_le. reflexivity.
Defined.

(** ** The table printer: every line as wide as the header *)

Section PrintProps.

Context {F : Type} {PF : PyFloat F}.

Local Open Scope string_scope.

















End PrintProps.


Section PrintErrors.

Context {F : Type} {PF : PyFloat F}.

Lemma fold_widen_raise (r : row F) (columns : list string) (e : exn) :
  fold_left (widen r) columns (Raise e) = Raise e.
Proof. induction columns as [| c columns IH]; [reflexivity | exact IH]. Qed.

Lemma widen_outcome (r : row F) (w : dict nat) (c : string) :
  (exists w', widen r (Ok w) c = Ok w' /\ dict_mem r c = true)
  \/ widen r (Ok w) c = Raise (KeyError c).
Proof.
  unfold widen, subscript, dict_mem. cbn [bind].
  destruct (dict_get w c) as [old |]; cbn [bind]; [| now right].
  destruct (dict_get r c) as [v |]; cbn [bind]; [| now right].
  left. eexists. split; reflexivity.
Qed.

Lemma fold_widen_outcome (r : row F) (columns : list string) (w : dict nat) :
  (exists w', fold_left (widen r) columns (Ok w) = Ok w'
              /\ forall col, In col columns -> dict_mem r col = true)
  \/ exists k, fold_left (widen r) columns (Ok w) = Raise (KeyError k).
Proof.
  revert w. induction columns as [| c columns IH]; intros w; cbn [fold_left].
  - left. exists w. split; [reflexivity | intros ? []].
  - destruct (widen_outcome r w c) as [[w1 [-> Hc]] | ->].
    + destruct (IH w1) as [[w' [Hrun Hall]] | [k Hk]].
      * left. exists w'. split; [exact Hrun |]. intros col [<- | Hin]; [exact Hc | now apply Hall].
      * right. now exists k.
    + right. exists c. apply fold_widen_raise.
Qed.

Lemma fold_rows_raise (columns : list string) (rs : list (row F)) (e : exn) :
  fold_left (fun acc r => fold_left (widen r) columns acc) rs (Raise e) = Raise e.
Proof.
  induction rs as [| r rs IH]; [reflexivity |]. cbn [fold_left].
  now rewrite fold_widen_raise.
Qed.

Lemma fold_rows_outcome (columns : list string) (rs : list (row F)) (w : dict nat) :
  (exists w', fold_left (fun acc r => fold_left (widen r) columns acc) rs (Ok w) = Ok w'
              /\ forall r col, In r rs -> In col columns -> dict_mem r col = true)
  \/ exists k, fold_left (fun acc r => fold_left (widen r) columns acc) rs (Ok w)
               = Raise (KeyError k).
Proof.
  revert w. induction rs as [| r rs IH]; intros w; cbn [fold_left].
  - left. exists w. split; [reflexivity | intros ? ? []].
  - destruct (fold_widen_outcome r columns w) as [[w1 [-> Hr]] | [k ->]].
    + destruct (IH w1) as [[w' [Hrun Hall]] | [k Hk]].
      * left. exists w'. split; [exact Hrun |].
        intros r' col [<- | Hin] Hcol; [now apply Hr | now apply Hall].
      * right. now exists k.
    + right. exists k. apply fold_rows_raise.
Qed.

(** X20. A row that lacks one of the first row's columns stops the printer with
    a [KeyError] while it measures the columns, before it has printed
    anything, the header included. With no row at all it prints nothing and
    ends. *)
Theorem print_table_missing_column (first : row F) (more : list (row F))
    (r : row F) (col : string) :
  In r more -> In col (dict_keys first) -> dict_mem r col = false ->
  (exists k, _print_table (first :: more) = ([], Raise (KeyError k)))
  /\ _print_table (@nil (row F)) = ([], Ok tt).
Proof.
  intros Hr Hcol Hmiss. split; [| reflexivity].
  unfold _print_table, column_widths.
  destruct (fold_rows_outcome (dict_keys first) (first :: more)
              (initial_widths (dict_keys first))) as [[w [_ Hall]] | [k ->]].
  - rewrite (Hall r col (or_intror Hr) Hcol) in Hmiss. discriminate Hmiss.
  - now exists k.
Qed.

End PrintErrors.

Lemma print_table_missing_column_witness :
  exists k, _print_table (F:=Empty_set) [alice; carol] = ([], Raise (KeyError k)).
Proof.
  refine (proj1 (print_table_missing_column (F:=Empty_set) alice [carol] carol
                   "age"%string _ _ _)).
  - left. reflexivity.
  - right. left. reflexivity.
  - reflexivity.
Defined.
